(** * Bank-statement ingestion and normalisation (FinAware-AI)

    A shallow embedding of [backend/app/services/risk_service.py]:
    the decoder, the loader chain, the text transaction extractor, the
    column resolver, the numeric normaliser, the statement normaliser and
    the aggregate summariser, followed by the properties of the written
    specification.  The rule-based risk assessment of the same file
    (module [Risk]) and the statement endpoint of
    [backend/app/api/routers/risk.py] are embedded as well, with the
    properties their code shows.

    Modelling conventions.
    - Text is a [string] of 8-bit characters; bytes are [list byte].
    - A pandas [Series] is a list; a [DataFrame] is a list of column labels
      and a list of rows.  A raw cell is represented by the text that
      [astype(str)] renders for it, because the normaliser reads raw cells
      only through [astype(str)].
    - Numbers are exact rationals [Q]; NaN is [None].  Binary rounding of
      float64 and the bounded range of int64 are outside the model: a
      property of a sum, a mean, a deviation, a rounded value or an
      instalment is a property in exact arithmetic, and is stated as one.
      The two places where an upload takes the code out of exact
      arithmetic by integers alone are modelled apart: the sum of a
      column of 64-bit integers ([int64_sum]) and the absolute value of
      the least 64-bit integer ([int64_min]).
    - [pd.to_datetime] raises on some columns (timestamps with different
      UTC offsets, for one), so the parser of the class [Library] returns
      an [option]; it is only known to return on plain calendar dates.
    - A Python exception is the [Raise] outcome of the [Result] monad.
    - pandas, the codecs, the regex engine's date search and Python's float
      rendering are library code: they are the fields of the class
      [Library], and every definition is parametric in it. *)

From Stdlib Require Import List String Ascii Strings.Byte Bool Arith ZArith
  QArith Qabs Qround Qpower DecimalString Lia Lqa.
Import ListNotations.

Local Open Scope string_scope.
Local Open Scope list_scope.

(** ** Exceptions *)

Inductive Exn : Type :=
| AttributeError
| ValueError
| KeyError.

Inductive Result (A : Type) : Type :=
| Ok (a : A)
| Raise (e : Exn).

Arguments Ok {A} a.
Arguments Raise {A} e.

Definition bind {A B : Type} (r : Result A) (k : A -> Result B) : Result B :=
  match r with
  | Ok a => k a
  | Raise e => Raise e
  end.

Notation "x <- c ;; k" := (bind c (fun x => k))
  (at level 61, c at next level, right associativity).
Notation "' p <- c ;; k" := (bind c (fun x => match x with p => k end))
  (at level 61, p pattern, c at next level, right associativity).

(** ** Python string operations on 8-bit text *)

Module Str.

Definition code (c : ascii) : nat := nat_of_ascii c.

Definition between (lo hi : nat) (c : ascii) : bool :=
  ((lo <=? code c) && (code c <=? hi))%nat.

(** [str.isspace] on the code points below 256. *)
Definition is_space (c : ascii) : bool :=
  between 9 13 c || between 28 32 c || (code c =? 133)%nat || (code c =? 160)%nat.

(** [\d] restricted to the code points below 256. *)
Definition is_digit (c : ascii) : bool := between 48 57 c.

Definition is_lower_alpha (c : ascii) : bool := between 97 122 c.

(** [str.lower] on one character: A-Z and the Latin-1 capitals. *)
Definition lower_char (c : ascii) : ascii :=
  if between 65 90 c then ascii_of_nat (code c + 32)
  else if between 192 222 c && negb (code c =? 215)%nat
       then ascii_of_nat (code c + 32)
       else c.

Fixpoint map (f : ascii -> ascii) (s : string) : string :=
  match s with
  | EmptyString => EmptyString
  | String c r => String (f c) (map f r)
  end.

Fixpoint filter (p : ascii -> bool) (s : string) : string :=
  match s with
  | EmptyString => EmptyString
  | String c r => if p c then String c (filter p r) else filter p r
  end.

Fixpoint forallb (p : ascii -> bool) (s : string) : bool :=
  match s with
  | EmptyString => true
  | String c r => p c && forallb p r
  end.

Definition lower (s : string) : string := map lower_char s.

Fixpoint lstrip (s : string) : string :=
  match s with
  | String c r => if is_space c then lstrip r else s
  | EmptyString => EmptyString
  end.

Fixpoint rstrip (s : string) : string :=
  match s with
  | EmptyString => EmptyString
  | String c r =>
      match rstrip r with
      | EmptyString => if is_space c then EmptyString else String c EmptyString
      | r' => String c r'
      end
  end.

Definition strip (s : string) : string := rstrip (lstrip s).

Fixpoint starts_with (p s : string) : bool :=
  match p, s with
  | EmptyString, _ => true
  | String a p', String b s' => Ascii.eqb a b && starts_with p' s'
  | String _ _, EmptyString => false
  end.

(** Python's [needle in hay]. *)
Fixpoint contains (needle hay : string) : bool :=
  starts_with needle hay ||
  match hay with
  | EmptyString => false
  | String _ r => contains needle r
  end.

(** [Series.str.contains("k1|k2|...")] for a pattern that is an
    alternation of literal words. *)
Definition contains_any (keys : list string) (s : string) : bool :=
  existsb (fun k => contains k s) keys.

(** Python truthiness of a string. *)
Definition nonempty (s : string) : bool :=
  match s with EmptyString => false | String _ _ => true end.

(** Truthiness of a value that is a string or [None]. *)
Definition truthy (o : option string) : bool :=
  match o with Some s => nonempty s | None => false end.

End Str.

(** ** The numeric normaliser *)

(** [_normalize_col_name]: strip, lower-case, then delete every run of
    characters outside [a-z0-9]. *)
Definition _normalize_col_name (name : string) : string :=
  Str.filter (fun c => Str.is_lower_alpha c || Str.is_digit c)
             (Str.lower (Str.strip name)).

Definition digit_val (c : ascii) : Z := Z.of_nat (Str.code c - 48).

(** Reads a run of digits: the digits' value so far, how many were read,
    and the rest of the text. *)
Fixpoint read_digits (s : string) (acc : Z) (n : nat) : Z * nat * string :=
  match s with
  | String c r =>
      if Str.is_digit c then read_digits r (acc * 10 + digit_val c)%Z (S n)
      else (acc, n, s)
  | EmptyString => (acc, n, s)
  end.

Definition pow10 (k : nat) : positive := Pos.pow 10 (Pos.of_nat k).

Definition scale10 (k : nat) : positive :=
  match k with O => 1%positive | _ => pow10 k end.

(** The number denoted by an unsigned literal [digits* ( '.' digits* )?]
    holding at least one digit and nothing else. *)
Definition parse_unsigned (s : string) : option Q :=
  let '(ip, ni, r1) := read_digits s 0%Z 0 in
  match r1 with
  | EmptyString => if (0 <? ni)%nat then Some (Qmake ip 1) else None
  | String c r2 =>
      if Ascii.eqb c "."%char then
        let '(fp, nf, r3) := read_digits r2 0%Z 0 in
        match r3 with
        | EmptyString =>
            if (0 <? ni + nf)%nat
            then Some (Qmake (ip * Zpos (scale10 nf) + fp) (scale10 nf))
            else None
        | String _ _ => None
        end
      else None
  end.

(** [pd.to_numeric(..., errors="coerce")] on a text made of digits, dots
    and minus signs: a number when the text is a decimal literal with an
    optional leading minus, NaN otherwise. *)
Definition parse_number (s : string) : option Q :=
  match s with
  | String c r =>
      if Ascii.eqb c "-"%char
      then option_map Qopp (parse_unsigned r)
      else parse_unsigned s
  | EmptyString => None
  end.

(** The two [str.replace] steps of [_to_numeric]: commas are deleted, then
    every character that is not a digit, a dot or a minus sign. *)
Definition clean_numeric (s : string) : string :=
  Str.filter (fun c => Str.is_digit c || Ascii.eqb c "."%char || Ascii.eqb c "-"%char)
             (Str.filter (fun c => negb (Ascii.eqb c ","%char)) s).

(** [.replace({"": nan, "-": nan, ".": nan, "--": nan})]. *)
Definition blank_to_nan (s : string) : option string :=
  if existsb (String.eqb s) [""; "-"; "."; "--"] then None else Some s.

Definition to_numeric_cell (cell : string) : option Q :=
  match blank_to_nan (clean_numeric cell) with
  | None => None
  | Some s => parse_number s
  end.

(** [_to_numeric]. *)
Definition _to_numeric (series : list string) : list (option Q) :=
  List.map to_numeric_cell series.

(** ** Raw tables *)

(** A raw table: the column labels (as [str] renders them) and the rows,
    each a list of cells in column order. *)
Record DataFrame : Type := {
  columns : list string;
  data : list (list string)
}.

(** [pd.DataFrame()]. *)
Definition empty_frame : DataFrame := {| columns := []; data := [] |}.

(** [DataFrame.empty]: some axis has length zero. *)
Definition df_empty (df : DataFrame) : bool :=
  match columns df, data df with
  | [], _ => true
  | _, [] => true
  | _, _ => false
  end.

(** The cells of the column at position [j]; a cell a row lacks is NaN. *)
Definition column_at (j : nat) (df : DataFrame) : list string :=
  List.map (fun row => nth j row "nan") (data df).

Fixpoint positions (col : string) (labels : list string) (j : nat) : list nat :=
  match labels with
  | [] => []
  | l :: rest =>
      if String.eqb l col then j :: positions col rest (S j)
      else positions col rest (S j)
  end.

(** [df[col]] used as a Series.  When the label occurs more than once
    pandas returns a DataFrame, on which the Series operation the caller
    applies next raises [e]. *)
Definition getitem (e : Exn) (df : DataFrame) (col : string)
  : Result (list string) :=
  match positions col (columns df) 0 with
  | [] => Raise KeyError
  | [j] => Ok (column_at j df)
  | _ :: _ :: _ => Raise e
  end.

(** ** The library environment *)

Inductive Encoding : Type := utf_8_sig | utf_8 | latin1.

(** What calling one loader strategy yields. *)
Inductive Loaded : Type :=
| Raised
| ReturnedNone
| ReturnedFrame (df : DataFrame).

(** A calendar date [dddd-dd-dd], without a time and without a UTC
    offset. *)
Definition calendar_date (cell : string) : bool :=
  match list_ascii_of_string cell with
  | [y1; y2; y3; y4; s1; m1; m2; s2; d1; d2] =>
      List.forallb Str.is_digit [y1; y2; y3; y4; m1; m2; d1; d2]
      && Ascii.eqb s1 "-"%char && Ascii.eqb s2 "-"%char
  | _ => false
  end.

(** The library calls of the module.  [tables_from_pdf] and
    [tables_from_docx] stand for [_tables_from_pdf(contents)[0]] and
    [_tables_from_docx(contents)[0]], which wrap pdfplumber and
    python-docx; [float_repr] is [str] of a float; [to_datetime] is
    [pd.to_datetime(series, errors="coerce", dayfirst=...)], where [None]
    stands for the [ValueError] that the call raises in spite of
    [errors="coerce"] when the cells carry conflicting UTC offsets.
    [to_datetime_dates] records that a Series of plain calendar dates has
    no offset to conflict, so that the call returns on it. *)
Class Library : Type := {
  Timestamp : Type;
  decode : Encoding -> list byte -> option string;
  decode_ignore : list byte -> string;
  read_csv : list byte -> Loaded;
  read_excel : list byte -> Loaded;
  read_json : list byte -> Loaded;
  read_xml : list byte -> Loaded;
  tables_from_pdf : list byte -> Loaded;
  tables_from_docx : list byte -> Loaded;
  float_repr : Q -> string;
  to_datetime : bool -> list string -> option (list (option Timestamp));
  to_datetime_dates :
    forall (dayfirst : bool) (cells : list string),
      List.forallb calendar_date cells = true ->
      to_datetime dayfirst cells <> None
}.

(** ** The text transaction extractor *)

Module Extract.

(** The line boundaries of [str.splitlines] below code point 256. *)
Definition is_linebreak (c : ascii) : bool :=
  Str.between 10 13 c || Str.between 28 30 c || (Str.code c =? 133)%nat.

Definition is_cr (c : ascii) : bool := (Str.code c =? 13)%nat.
Definition is_lf (c : ascii) : bool := (Str.code c =? 10)%nat.

Definition head_is (p : ascii -> bool) (s : string) : bool :=
  match s with String c _ => p c | EmptyString => false end.

(** [str.splitlines]; a carriage return followed by a line feed is one
    boundary. *)
Fixpoint splitlines (s : string) : list string :=
  match s with
  | EmptyString => []
  | String c r =>
      if is_linebreak c then
        if is_cr c && head_is is_lf r then
          match splitlines r with
          | _ :: rest => "" :: rest
          | [] => [""]
          end
        else "" :: splitlines r
      else
        match splitlines r with
        | [] => [String c ""]
        | l :: rest => String c l :: rest
        end
  end.

Definition is_sign (c : ascii) : bool :=
  Ascii.eqb c "-"%char || Ascii.eqb c "+"%char.
Definition is_comma (c : ascii) : bool := Ascii.eqb c ","%char.
Definition is_dot (c : ascii) : bool := Ascii.eqb c "."%char.

(** Where the matcher of [[-+]?\d[\d,]*\.?\d*] stands. *)
Inductive Scan : Type :=
| Idle        (* no match under way *)
| Signed      (* a sign was read; a digit must follow *)
| IntPart     (* inside [\d[\d,]*] *)
| FracPart.   (* after the dot, inside [\d*] *)

Definition snoc (tok : string) (c : ascii) : string :=
  (tok ++ String c "")%string.

(** A match attempt starting at character [c]. *)
Definition start (c : ascii) : Scan * string :=
  if Str.is_digit c then (IntPart, String c "")
  else if is_sign c then (Signed, String c "")
  else (Idle, "").

(** [amount_re.findall(line)]: the leftmost non-overlapping matches. *)
Fixpoint findall (s : string) (st : Scan) (tok : string) : list string :=
  match s with
  | EmptyString =>
      match st with
      | IntPart | FracPart => [tok]
      | Idle | Signed => []
      end
  | String c r =>
      match st with
      | Idle => let '(st', tok') := start c in findall r st' tok'
      | Signed =>
          if Str.is_digit c then findall r IntPart (snoc tok c)
          else let '(st', tok') := start c in findall r st' tok'
      | IntPart =>
          if Str.is_digit c || is_comma c then findall r IntPart (snoc tok c)
          else if is_dot c then findall r FracPart (snoc tok c)
          else let '(st', tok') := start c in tok :: findall r st' tok'
      | FracPart =>
          if Str.is_digit c then findall r FracPart (snoc tok c)
          else let '(st', tok') := start c in tok :: findall r st' tok'
      end
  end.

Definition amount_re_findall (line : string) : list string :=
  findall line Idle "".

(** [float(n.replace(",", ""))]; [None] stands for the [ValueError] the
    source catches. *)
Definition float_of_token (n : string) : option Q :=
  match Str.filter (fun c => negb (is_comma c)) n with
  | String c r =>
      if Ascii.eqb c "-"%char then option_map Qopp (parse_unsigned r)
      else if Ascii.eqb c "+"%char then parse_unsigned r
      else parse_unsigned (String c r)
  | EmptyString => None
  end.

Fixpoint parse_all (numbers : list string) : list Q :=
  match numbers with
  | [] => []
  | n :: rest =>
      match float_of_token n with
      | Some q => q :: parse_all rest
      | None => parse_all rest
      end
  end.

(** [\w] on the code points below 256: letters, digits, the underscore,
    and the Latin-1 characters that [str.isalnum] accepts. *)
Definition is_word_char (c : ascii) : bool :=
  Str.is_digit c || Str.between 65 90 c || Str.between 97 122 c
  || (Str.code c =? 95)%nat
  || List.existsb (Nat.eqb (Str.code c)) [170; 178; 179; 181; 185; 186; 188; 189; 190]%nat
  || (Str.between 192 255 c && negb (Str.code c =? 215)%nat
      && negb (Str.code c =? 247)%nat).

Definition is_date_sep (c : ascii) : bool :=
  Ascii.eqb c "/"%char || Ascii.eqb c "-"%char.

(** Exactly [n] digits at the head of [s]: the digits and the rest. *)
Fixpoint take_digits (n : nat) (s : string) : option (string * string) :=
  match n with
  | O => Some ("", s)
  | S n' =>
      match s with
      | String c r =>
          if Str.is_digit c then
            match take_digits n' r with
            | Some (d, rest) => Some (String c d, rest)
            | None => None
            end
          else None
      | EmptyString => None
      end
  end.

(** A date with digit groups of the given lengths at the head of [s],
    ending at a word boundary. *)
Definition match_shape (shape : nat * nat * nat) (s : string) : option string :=
  let '(n1, n2, n3) := shape in
  match take_digits n1 s with
  | Some (a, String s1 r1) =>
      if is_date_sep s1 then
        match take_digits n2 r1 with
        | Some (b, String s2 r2) =>
            if is_date_sep s2 then
              match take_digits n3 r2 with
              | Some (c, rest) =>
                  if head_is is_word_char rest then None
                  else Some (a ++ String s1 b ++ String s2 c)%string
              | None => None
              end
            else None
        | _ => None
        end
      else None
  | _ => None
  end.

(** The group lengths in the order in which the backtracking matcher
    tries them: [\d{1,2}[/-]\d{1,2}[/-]\d{2,4}] with each count greedy,
    then [\d{4}[/-]\d{1,2}[/-]\d{1,2}]. *)
Definition date_shapes : list (nat * nat * nat) :=
  [ (2, 2, 4); (2, 2, 3); (2, 2, 2); (2, 1, 4); (2, 1, 3); (2, 1, 2);
    (1, 2, 4); (1, 2, 3); (1, 2, 2); (1, 1, 4); (1, 1, 3); (1, 1, 2);
    (4, 2, 2); (4, 2, 1); (4, 1, 2); (4, 1, 1) ]%nat.

Fixpoint first_shape (shapes : list (nat * nat * nat)) (s : string)
  : option string :=
  match shapes with
  | [] => None
  | shape :: rest =>
      match match_shape shape s with
      | Some m => Some m
      | None => first_shape rest s
      end
  end.

(** The leftmost match, scanning from the head of [s]; [prev_is_word]
    tells whether the character before [s] is a word character, for the
    leading [\b]. *)
Fixpoint date_search_from (prev_is_word : bool) (s : string) : option string :=
  match (if prev_is_word then None else first_shape date_shapes s) with
  | Some m => Some m
  | None =>
      match s with
      | EmptyString => None
      | String c r => date_search_from (is_word_char c) r
      end
  end.

(** [date_re.search(line)], with the matched text. *)
Definition date_search (line : string) : option string :=
  date_search_from false line.

Definition credit_words : list string :=
  ["credit"; "cr"; "salary"; "deposit"; "refund"; "received"].
Definition debit_words : list string :=
  ["debit"; "dr"; "withdraw"; "spent"; "purchase"; "payment"].

Definition text_columns : list string :=
  ["date"; "description"; "amount"; "balance"; "type"].

Section WithLibrary.
Context {L : Library}.

(** The row a line contributes, if it contributes one. *)
Definition row_of_line (raw_line : string) : option (list string) :=
  let line := Str.strip raw_line in
  if (String.length line <? 5)%nat then None
  else
    let numbers := amount_re_findall line in
    match numbers with
    | [] => None
    | _ :: _ =>
        let date_match := date_search line in
        let parsed_numbers := parse_all numbers in
        match parsed_numbers with
        | [] => None
        | first :: _ =>
            let amount := Qabs first in
            let balance :=
              if (2 <=? List.length parsed_numbers)%nat
              then float_repr (Qabs (last parsed_numbers first))
              else "nan" in
            let lower := Str.lower line in
            let tx_type :=
              if existsb (fun k => Str.contains k lower) credit_words
              then "credit"
              else if existsb (fun k => Str.contains k lower) debit_words
                   then "debit"
                   else "debit" in
            Some [ match date_match with Some d => d | None => "" end;
                   line; float_repr amount; balance; tx_type ]
        end
    end.

Fixpoint rows_of_lines (lines : list string) : list (list string) :=
  match lines with
  | [] => []
  | l :: rest =>
      match row_of_line l with
      | Some row => row :: rows_of_lines rest
      | None => rows_of_lines rest
      end
  end.

(** [_extract_text_transactions]; [pd.DataFrame([])] has no columns. *)
Definition _extract_text_transactions (text : string) : DataFrame :=
  match rows_of_lines (splitlines text) with
  | [] => empty_frame
  | rows => {| columns := text_columns; data := rows |}
  end.

End WithLibrary.

End Extract.

(** ** The decoder and the loader chain *)

Section Loader.
Context {L : Library}.

Fixpoint first_decoding (encs : list Encoding) (contents : list byte)
  : option string :=
  match encs with
  | [] => None
  | enc :: rest =>
      match decode enc contents with
      | Some text => Some text
      | None => first_decoding rest contents
      end
  end.

(** [_decode_bytes]. *)
Definition _decode_bytes (contents : list byte) : string :=
  match first_decoding [utf_8_sig; utf_8; latin1] contents with
  | Some text => text
  | None => decode_ignore contents
  end.

(** [s.rsplit(".", 1)[-1]]. *)
Fixpoint after_last_dot (s : string) : string :=
  match s with
  | EmptyString => EmptyString
  | String c r =>
      if Str.contains "." r then after_last_dot r
      else if Ascii.eqb c "."%char then r
      else s
  end.

Definition extension_of (filename : option string) : string :=
  match filename with
  | Some f =>
      if Str.nonempty f && Str.contains "." f
      then after_last_dot (Str.lower f)
      else ""
  | None => ""
  end.

Definition ext_in (ext : string) (exts : list string) : bool :=
  existsb (String.eqb ext) exts.

(** The strategies chosen by extension, each with the outcome of its
    call on [contents]. *)
Definition specific_loaders (extension : string) (contents : list byte)
  : list (string * Loaded) :=
  if String.eqb extension "csv" then [("csv", read_csv contents)]
  else if ext_in extension ["xlsx"; "xls"] then [("excel", read_excel contents)]
  else if ext_in extension ["tsv"; "txt"] then [("text_csv", read_csv contents)]
  else if String.eqb extension "json" then [("json", read_json contents)]
  else if String.eqb extension "xml" then [("xml", read_xml contents)]
  else if String.eqb extension "pdf" then [("pdf", tables_from_pdf contents)]
  else if ext_in extension ["docx"; "doc"] then [("docx", tables_from_docx contents)]
  else [].

(** The generic fallback chain. *)
Definition fallback_loaders (contents : list byte) : list (string * Loaded) :=
  [ ("csv", read_csv contents);
    ("excel", read_excel contents);
    ("json", read_json contents);
    ("xml", read_xml contents);
    ("pdf", tables_from_pdf contents);
    ("docx", tables_from_docx contents) ].

(** The loop over the strategies: an exception, [None] and an empty
    frame are misses; the first non-empty frame wins. *)
Fixpoint first_loaded (loaders : list (string * Loaded))
  : option (DataFrame * string) :=
  match loaders with
  | [] => None
  | (loader_name, outcome) :: rest =>
      match outcome with
      | ReturnedFrame candidate =>
          if df_empty candidate then first_loaded rest
          else Some (candidate, loader_name)
      | ReturnedNone => first_loaded rest
      | Raised => first_loaded rest
      end
  end.

(** [_load_statement_dataframe]. *)
Definition _load_statement_dataframe
  (contents : list byte) (filename : option string) : DataFrame * string :=
  let extension := extension_of filename in
  let text := _decode_bytes contents in
  let loaders := specific_loaders extension contents ++ fallback_loaders contents in
  match first_loaded loaders with
  | Some found => found
  | None =>
      let text_df := Extract._extract_text_transactions text in
      if negb (df_empty text_df) then (text_df, "text_fallback")
      else (empty_frame, "unparsed")
  end.

End Loader.

(** ** Series arithmetic *)

Definition Qltb (x y : Q) : bool := negb (Qle_bool y x).

Definition notna {A : Type} (v : option A) : bool :=
  match v with Some _ => true | None => false end.

(** [fillna(0)] on one value. *)
Definition fillna0 (v : option Q) : Q :=
  match v with Some q => q | None => 0 end.

(** Boolean indexing [s[mask]]. *)
Fixpoint select {A : Type} (mask : list bool) (s : list A) : list A :=
  match mask, s with
  | b :: mask', x :: s' => if b then x :: select mask' s' else select mask' s'
  | _, _ => []
  end.

(** An element-wise binary operation on two aligned Series. *)
Fixpoint map2 {A B C : Type} (f : A -> B -> C) (s1 : list A) (s2 : list B)
  : list C :=
  match s1, s2 with
  | x :: s1', y :: s2' => f x y :: map2 f s1' s2'
  | _, _ => []
  end.

(** [Series.sum()], which skips NaN, as an exact sum: the sum of a
    float64 column rounds and the sum of an int64 column is taken modulo
    2^64 ([int64_sum] below). *)
Fixpoint sum_skipna (s : list (option Q)) : Q :=
  match s with
  | [] => 0
  | Some q :: rest => q + sum_skipna rest
  | None :: rest => sum_skipna rest
  end.

Definition count_notna {A : Type} (s : list (option A)) : nat :=
  List.length (List.filter notna s).

Definition ratio (k n : nat) : Q := Qmake (Z.of_nat k) (Pos.of_nat n).

(** [s.notna().mean()]: NaN (here [None]) on an empty Series. *)
Definition notna_mean {A : Type} (s : list (option A)) : option Q :=
  match s with
  | [] => None
  | _ :: _ => Some (ratio (count_notna s) (List.length s))
  end.

(** [x < bound] for a float [x] that may be NaN. *)
Definition nan_lt (x : option Q) (bound : Q) : bool :=
  match x with Some q => Qltb q bound | None => false end.

(** [x > bound] for a float [x] that may be NaN. *)
Definition nan_gt (x : option Q) (bound : Q) : bool :=
  match x with Some q => Qltb bound q | None => false end.

(** [Series.mean()] over the values that are present. *)
Definition mean_skipna (s : list (option Q)) : Q :=
  sum_skipna s / inject_Z (Z.of_nat (count_notna s)).

(** Population variance, [ddof=0], over the values that are present. *)
Definition var_pop (s : list (option Q)) : Q :=
  let m := mean_skipna s in
  mean_skipna (List.map (option_map (fun x => (x - m) * (x - m))) s).

(** ** Rounding *)

(** The nearest integer, ties to the even one. *)
Definition round_half_even (q : Q) : Z :=
  let f := Qfloor q in
  match Qcompare (q - inject_Z f) (1 # 2) with
  | Lt => f
  | Gt => (f + 1)%Z
  | Eq => if Z.even f then f else (f + 1)%Z
  end.

Definition ten_pow (ndigits : nat) : positive := Pos.pow 10 (Pos.of_nat ndigits).

(** [round(q, ndigits)] for [ndigits >= 1], on the exact value [q]:
    Python rounds the float nearest to [q], which at a tie of the decimal
    expansion can fall on the other side (2.675 is stored below the tie
    and rounds to 2.67). *)
Definition py_round (q : Q) (ndigits : nat) : Q :=
  Qmake (round_half_even (q * inject_Z (Zpos (ten_pow ndigits)))) (ten_pow ndigits).

(** The integer nearest to the square root of [w >= 0], ties to even:
    [Z.sqrt (Qfloor (4 * w))] is the integer part of twice the root. *)
Definition round_sqrt (w : Q) : Z :=
  let s := Z.sqrt (Qfloor (4 * w)) in
  if Z.odd s && Qeq_bool (inject_Z (s * s)) (4 * w)
  then let k := (s / 2)%Z in if Z.even k then k else (k + 1)%Z
  else ((s + 1) / 2)%Z.

(** [round(sqrt(v), ndigits)], computed exactly. *)
Definition py_round_sqrt (v : Q) (ndigits : nat) : Q :=
  let p := ten_pow ndigits in
  Qmake (round_sqrt (v * inject_Z (Zpos (p * p)))) p.

(** ** The column resolver *)

Fixpoint find_label (key : string) (normalized : list (string * string))
  : option string :=
  match normalized with
  | [] => None
  | (col, norm) :: rest =>
      if Str.contains key norm then Some col else find_label key rest
  end.

Fixpoint first_match (keywords : list string) (normalized : list (string * string))
  : option string :=
  match keywords with
  | [] => None
  | key :: rest =>
      match find_label key normalized with
      | Some col => Some col
      | None => first_match rest normalized
      end
  end.

(** [_find_column].  The dictionary from label to normalised label is kept
    as the list of pairs in column order: a repeated label has the same
    normalised form at each occurrence, so scanning the list finds the
    label the dictionary scan finds. *)
Definition _find_column (df : DataFrame) (keywords : list string)
  : option string :=
  let normalized := List.map (fun col => (col, _normalize_col_name col)) (columns df) in
  first_match keywords normalized.

Definition date_keywords : list string :=
  ["date"; "valuedate"; "postdate"; "txndate"; "transactiondate"].
Definition balance_keywords : list string :=
  ["balance"; "runningbalance"; "availablebalance"; "closingbalance";
   "runningbal"; "closingbal"; "availbal"; "bal"].
Definition type_keywords : list string :=
  ["drcr"; "debitcredit"; "transtype"; "type"].
Definition description_keywords : list string :=
  ["description"; "narration"; "remarks"; "details"; "particular";
   "merchant"; "note"].
Definition debit_keywords : list string := ["debit"; "withdraw"; "dramount"; "dr"].
Definition credit_keywords : list string := ["credit"; "deposit"; "cramount"; "cr"].
Definition amount_keywords : list string :=
  ["amount"; "txnamount"; "transactionamount"; "amt"].

(** The loop of [_best_numeric_column]. *)
Fixpoint best_scan (df : DataFrame) (excluded : list string) (cols : list string)
  (best_col : option string) (best_score : Q) : Result (option string * Q) :=
  match cols with
  | [] => Ok (best_col, best_score)
  | col :: rest =>
      if existsb (String.eqb col) excluded
      then best_scan df excluded rest best_col best_score
      else
        cells <- getitem AttributeError df col ;;
        let numeric := _to_numeric cells in
        let score := notna_mean numeric in
        if nan_gt score best_score
        then best_scan df excluded rest (Some col) (fillna0 score)
        else best_scan df excluded rest best_col best_score
  end.

(** [_best_numeric_column]. *)
Definition _best_numeric_column (df : DataFrame) (excluded : list string)
  : Result (option string) :=
  ' (best_col, best_score) <- best_scan df excluded (columns df) None (-1) ;;
  if Qltb best_score (3 # 10) then Ok None else Ok best_col.

(** ** The statement normaliser *)

Definition type_credit_words : list string := ["cr"; "credit"; "dep"; "salary"; "refund"].
Definition type_debit_words : list string := ["dr"; "debit"; "with"; "pay"; "purchase"].
Definition desc_credit_words : list string :=
  ["credit"; "salary"; "deposit"; "refund"; "received"].
Definition desc_debit_words : list string :=
  ["debit"; "withdraw"; "payment"; "purchase"; "spent"].

(** [np.where(is_credit, "credit", np.where(is_debit, "debit", "debit"))]
    on one text. *)
Definition classify (credit_words debit_words : list string) (v : string) : string :=
  if Str.contains_any credit_words v then "credit"
  else if Str.contains_any debit_words v then "debit"
  else "debit".

(** Rule 4: [np.where(amount < 0, "debit", "credit")] on one raw amount. *)
Definition sign_type (a : option Q) : string :=
  if nan_lt a 0 then "debit" else "credit".

(** [credit.where(credit > 0, debit)] on one row. *)
Definition dual_amount (credit debit : Q) : Q :=
  if Qltb 0 credit then credit else debit.

(** [np.where(credit > 0, "credit", np.where(debit > 0, "debit", "debit"))]
    on one row. *)
Definition dual_type (credit debit : Q) : string :=
  if Qltb 0 credit then "credit"
  else if Qltb 0 debit then "debit"
  else "debit".

(** The role map returned next to the canonical table. *)
Record Detected : Type := {
  date_col : option string;
  amount_col : option string;
  debit_col : option string;
  credit_col : option string;
  type_col : option string;
  balance_col : option string;
  description_col : option string
}.

(** The columns of the table [normalized]; a missing value is [None]. *)
Record Normalized {L : Library} : Type := {
  n_date : list (option Timestamp);
  n_amount : list (option Q);
  n_type : list (option string);
  n_balance : list (option Q);
  n_description : list string
}.

(** [{c for c in [balance_col, date_col] if c}]. *)
Definition truthy_labels (cands : list (option string)) : list string :=
  flat_map (fun o => match o with
                     | Some c => if Str.nonempty c then [c] else []
                     | None => []
                     end) cands.

(** The label held by a role that passed its truthiness test. *)
Definition label_of (o : option string) : string :=
  match o with Some c => c | None => "" end.

Section Normalizer.
Context {L : Library}.

(** [work]: the copy of the table with stripped labels. *)
Definition work_of (df : DataFrame) : DataFrame :=
  {| columns := List.map Str.strip (columns df); data := data df |}.

(** The seven roles, resolved on [work] in the order of the source. *)
Definition resolve_roles (work : DataFrame) : Detected :=
  {| date_col := _find_column work date_keywords;
     balance_col := _find_column work balance_keywords;
     type_col := _find_column work type_keywords;
     description_col := _find_column work description_keywords;
     debit_col := _find_column work debit_keywords;
     credit_col := _find_column work credit_keywords;
     amount_col := _find_column work amount_keywords |}.

(** [if debit_col and credit_col]. *)
Definition dual (r : Detected) : bool :=
  Str.truthy (debit_col r) && Str.truthy (credit_col r).

(** [pd.to_datetime(cells, errors="coerce", dayfirst=dayfirst)] as a
    call that may raise. *)
Definition parse_dates (dayfirst : bool) (cells : list string)
  : Result (list (option Timestamp)) :=
  match to_datetime dayfirst cells with
  | Some parsed => Ok parsed
  | None => Raise ValueError
  end.

(** The column ["date"]. *)
Definition date_column (work : DataFrame) (r : Detected)
  : Result (list (option Timestamp)) :=
  if Str.truthy (date_col r) then
    cells <- getitem ValueError work (label_of (date_col r)) ;;
    parsed_dates <- parse_dates true cells ;;
    if nan_lt (notna_mean parsed_dates) (3 # 10)
    then parse_dates false cells
    else Ok parsed_dates
  else Ok (repeat None (List.length (data work))).

(** [amount_col] as the single-amount branch leaves it. *)
Definition resolve_amount_col (work : DataFrame) (r : Detected)
  : Result (option string) :=
  match amount_col r with
  | None => _best_numeric_column work (truthy_labels [balance_col r; date_col r])
  | Some c => Ok (Some c)
  end.

(** The local [amount] of the single-amount branch: the signed values,
    before [abs]. *)
Definition raw_amount (work : DataFrame) (amount_col' : option string)
  : Result (list (option Q)) :=
  if Str.truthy amount_col' then
    cells <- getitem AttributeError work (label_of amount_col') ;;
    Ok (_to_numeric cells)
  else Ok (repeat None (List.length (data work))).

(** The column ["type"] of the single-amount branch (rules 2, 3, 4). *)
Definition single_type (work : DataFrame) (r : Detected) (amount : list (option Q))
  : Result (list string) :=
  if Str.truthy (type_col r) then
    cells <- getitem AttributeError work (label_of (type_col r)) ;;
    let type_values := List.map (fun v => Str.lower (Str.strip v)) cells in
    Ok (List.map (classify type_credit_words type_debit_words) type_values)
  else if Str.truthy (description_col r) then
    cells <- getitem AttributeError work (label_of (description_col r)) ;;
    let desc := List.map Str.lower cells in
    Ok (List.map (classify desc_credit_words desc_debit_words) desc)
  else Ok (List.map sign_type amount).

(** The columns ["amount"] and ["type"], with the final [amount_col].
    [abs] is the exact absolute value; on a column of 64-bit integers it
    differs from it at the least 64-bit integer ([int64_min] below). *)
Definition amount_and_type (work : DataFrame) (r : Detected)
  : Result (list (option Q) * list string * option string) :=
  if dual r then
    dcells <- getitem AttributeError work (label_of (debit_col r)) ;;
    let debit := List.map (fun v => Qabs (fillna0 v)) (_to_numeric dcells) in
    ccells <- getitem AttributeError work (label_of (credit_col r)) ;;
    let credit := List.map (fun v => Qabs (fillna0 v)) (_to_numeric ccells) in
    let amount := map2 dual_amount credit debit in
    let tx_type := map2 dual_type credit debit in
    Ok (List.map Some amount, tx_type, amount_col r)
  else
    amount_col' <- resolve_amount_col work r ;;
    amount <- raw_amount work amount_col' ;;
    tx_type <- single_type work r amount ;;
    Ok (List.map (option_map Qabs) amount, tx_type, amount_col').

(** The column ["balance"]. *)
Definition balance_column (work : DataFrame) (r : Detected)
  : Result (list (option Q)) :=
  if Str.truthy (balance_col r) then
    cells <- getitem AttributeError work (label_of (balance_col r)) ;;
    Ok (_to_numeric cells)
  else Ok (repeat None (List.length (data work))).

(** The column ["description"]. *)
Definition description_column (work : DataFrame) (r : Detected)
  : Result (list string) :=
  if Str.truthy (description_col r) then
    cells <- getitem AttributeError work (label_of (description_col r)) ;;
    Ok (List.map Str.strip cells)
  else Ok (repeat "" (List.length (data work))).

(** The table [normalized] as it stands before [dropna], with the role
    map the function returns. *)
Definition assemble (df : DataFrame) : Result (Normalized * Detected) :=
  let work := work_of df in
  let r := resolve_roles work in
  date <- date_column work r ;;
  ' (amount, tx_type, amount_col') <- amount_and_type work r ;;
  balance <- balance_column work r ;;
  description <- description_column work r ;;
  Ok ({| n_date := date;
         n_amount := amount;
         n_type := List.map Some tx_type;
         n_balance := balance;
         n_description := description |},
      {| date_col := date_col r;
         amount_col := if negb (dual r) then amount_col' else None;
         debit_col := debit_col r;
         credit_col := credit_col r;
         type_col := type_col r;
         balance_col := balance_col r;
         description_col := description_col r |}).

(** [fillna("debit").astype(str).str.lower()], then every value outside
    ["credit"], ["debit"] is set to ["debit"]. *)
Definition coerce_type (t : option string) : option string :=
  let t' := Str.lower (match t with Some s => s | None => "debit" end) in
  if existsb (String.eqb t') ["credit"; "debit"] then Some t' else Some "debit".

(** [dropna(subset=["amount"])] and the clean-up of ["amount"] and
    ["type"] that ends [_normalize_statement]. *)
Definition finish (n : Normalized) : Normalized :=
  let keep := List.map notna (n_amount n) in
  {| n_date := select keep (n_date n);
     n_amount := List.map (fun a => Some (fillna0 a)) (select keep (n_amount n));
     n_type := List.map coerce_type (select keep (n_type n));
     n_balance := select keep (n_balance n);
     n_description := select keep (n_description n) |}.

(** [_normalize_statement]. *)
Definition _normalize_statement (df : DataFrame) : Result (Normalized * Detected) :=
  ' (normalized, detected) <- assemble df ;;
  Ok (finish normalized, detected).

End Normalizer.

(** ** The aggregate summariser *)

Record Summary : Type := {
  monthly_income_estimate : Q;
  monthly_expense_estimate : Q;
  avg_monthly_balance : Q;
  income_volatility_index : Q;
  upi_transaction_frequency : nat
}.

(** The literal all-zero record of the two early returns. *)
Definition zero_summary : Summary :=
  {| monthly_income_estimate := 0;
     monthly_expense_estimate := 0;
     avg_monthly_balance := 0;
     income_volatility_index := 0;
     upi_transaction_frequency := 0 |}.

Definition upi_markers : list string := ["upi"; "gpay"; "phonepe"; "paytm"; "bhim"].

Definition type_is (t : string) (v : option string) : bool :=
  match v with Some s => String.eqb s t | None => false end.

Section Summarizer.
Context {L : Library}.

(** [df[df["type"] == t]["amount"].abs()]. *)
Definition amounts_of (t : string) (df : Normalized) : list (option Q) :=
  List.map (option_map Qabs) (select (List.map (type_is t) (n_type df)) (n_amount df)).

Definition is_nil {A : Type} (s : list A) : bool :=
  match s with [] => true | _ :: _ => false end.

(** The statistics of a non-empty canonical table, in exact arithmetic
    (see [sum_skipna] and [py_round]). *)
Definition summarize (df : Normalized) (detected : Detected) : Summary :=
  let credit := amounts_of "credit" df in
  let debit := amounts_of "debit" df in
  let monthly_income := if negb (is_nil credit) then sum_skipna credit else 0 in
  let monthly_expenses := if negb (is_nil debit) then sum_skipna debit else 0 in
  let avg_balance :=
    if existsb notna (n_balance df) then mean_skipna (n_balance df) else 0 in
  let desc_text := List.map Str.lower (n_description df) in
  let upi_frequency :=
    match description_col detected with
    | Some _ => List.length (List.filter (Str.contains_any upi_markers) desc_text)
    | None => List.length (List.filter (type_is "debit") (n_type df))
    end in
  {| monthly_income_estimate := py_round monthly_income 2;
     monthly_expense_estimate := py_round monthly_expenses 2;
     avg_monthly_balance := py_round avg_balance 2;
     income_volatility_index :=
       if (1 <? List.length credit)%nat
       then py_round_sqrt (var_pop credit) 4
       else py_round 0 4;
     upi_transaction_frequency := upi_frequency |}.

(** The part of [analyze_bank_statement] that follows the loader. *)
Definition analyze_frame (raw_df : DataFrame) : Result Summary :=
  if df_empty raw_df then Ok zero_summary
  else
    ' (df, detected) <- _normalize_statement raw_df ;;
    if is_nil (n_amount df) then Ok zero_summary
    else Ok (summarize df detected).

(** [analyze_bank_statement]. *)
Definition analyze_bank_statement
  (contents : list byte) (filename : option string) : Result Summary :=
  let '(raw_df, _) := _load_statement_dataframe contents filename in
  analyze_frame raw_df.

End Summarizer.

(** ** A reader for plain comma-separated text

    [Csv.read] is what [pd.read_csv(io.BytesIO(contents), sep=None,
    engine="python")] returns on the documents accepted by
    [Csv.in_dialect]: ASCII text without quote characters, whose first line holds
    a comma (so that the sniffer settles on the comma), whose header
    fields are distinct words, whose rows have one field per header field,
    and whose fields are canonical integers, ISO dates or words that
    pandas reads as neither a number, a boolean nor a missing value.  On
    such a document every cell renders under [astype(str)] as the text of
    its field. *)

Module Csv.

Definition lf : ascii := ascii_of_nat 10.

(** [s.split(sep)]. *)
Fixpoint split_on (sep : ascii) (s : string) : list string :=
  match s with
  | EmptyString => [""]
  | String c r =>
      if Ascii.eqb c sep then "" :: split_on sep r
      else
        match split_on sep r with
        | [] => [String c ""]
        | l :: rest => String c l :: rest
        end
  end.

(** The lines of the document, blank lines skipped. *)
Definition lines (text : string) : list string :=
  List.filter Str.nonempty (split_on lf text).

Definition fields (line : string) : list string := split_on ","%char line.

Definition read (contents : list byte) : Loaded :=
  match lines (string_of_list_byte contents) with
  | [] => Raised
  | header :: rows =>
      ReturnedFrame {| columns := fields header; data := List.map fields rows |}
  end.

(** The tokens pandas reads as missing values, infinities or booleans. *)
Definition reserved : list string :=
  ["nan"; "na"; "n/a"; "null"; "none"; "<na>"; "#n/a"; "#na"; "-nan";
   "#n/a n/a"; "1.#qnan"; "-1.#qnan"; "1.#ind"; "-1.#ind";
   "inf"; "-inf"; "+inf"; "infinity"; "-infinity"; "+infinity";
   "true"; "false"].

Definition is_letter (c : ascii) : bool :=
  Str.between 65 90 c || Str.between 97 122 c.

Definition is_e (c : ascii) : bool :=
  Ascii.eqb c "e"%char || Ascii.eqb c "E"%char.

Fixpoint existsb (p : ascii -> bool) (s : string) : bool :=
  match s with
  | EmptyString => false
  | String c r => p c || existsb p r
  end.

(** A word: it holds a letter other than the exponent mark and is not a
    reserved token. *)
Definition is_word (f : string) : bool :=
  existsb (fun c => is_letter c && negb (is_e c)) f
  && negb (List.existsb (String.eqb (Str.lower (Str.strip f))) reserved).

(** [0] or a digit run of at most 18 digits that does not start with 0,
    with an optional minus sign. *)
Definition is_canonical_nat (f : string) : bool :=
  match f with
  | EmptyString => false
  | String c r =>
      Str.forallb Str.is_digit f
      && (String.length f <=? 18)%nat
      && (negb (Ascii.eqb c "0"%char) || String.eqb r "")
  end.

Definition is_canonical_int (f : string) : bool :=
  match f with
  | String c r => if Ascii.eqb c "-"%char then is_canonical_nat r else is_canonical_nat f
  | EmptyString => false
  end.

(** [dddd-dd-dd]. *)
Definition is_iso_date (f : string) : bool :=
  match list_ascii_of_string f with
  | [y1; y2; y3; y4; s1; m1; m2; s2; d1; d2] =>
      List.forallb Str.is_digit [y1; y2; y3; y4; m1; m2; d1; d2]
      && Ascii.eqb s1 "-"%char && Ascii.eqb s2 "-"%char
  | _ => false
  end.

Definition plain_field (f : string) : bool :=
  is_canonical_int f || is_iso_date f || is_word f.

Fixpoint distinct (l : list string) : bool :=
  match l with
  | [] => true
  | x :: rest => negb (List.existsb (String.eqb x) rest) && distinct rest
  end.

Definition plain_byte (b : byte) : bool :=
  let c := ascii_of_byte b in
  (Str.between 32 126 c && negb (Str.code c =? 34)%nat
   && negb (Str.code c =? 39)%nat)
  || Ascii.eqb c lf.

Definition in_dialect (contents : list byte) : bool :=
  List.forallb plain_byte contents &&
  match lines (string_of_list_byte contents) with
  | [] => false
  | header :: rows =>
      let hs := fields header in
      (2 <=? List.length hs)%nat
      && List.forallb is_word hs
      && distinct hs
      && List.forallb
           (fun row => (List.length (fields row) =? List.length hs)%nat
                       && List.forallb plain_field (fields row))
           rows
  end.

(** A document given by its lines, each ended by a line feed. *)
Definition document (ls : list string) : list byte :=
  list_byte_of_string (String.concat "" (List.map (fun l => (l ++ String lf "")%string) ls)).

End Csv.

(** ** A library environment for ASCII documents

    The environment of a plain-text upload: the spreadsheet, JSON and XML
    readers reject the input, and the optional PDF and DOCX parsers are
    not installed, so that their strategies return [None].  The codecs are
    given on ASCII input, where each returns the bytes as characters;
    other input is read as Latin-1.  Dates are recognised in ISO form
    only, and floats are rendered positionally. *)

Definition is_ascii_byte (b : byte) : bool := Str.between 0 127 (ascii_of_byte b).

Definition ascii_decode (enc : Encoding) (contents : list byte) : option string :=
  match enc with
  | latin1 => Some (string_of_list_byte contents)
  | utf_8_sig | utf_8 =>
      if List.forallb is_ascii_byte contents
      then Some (string_of_list_byte contents)
      else None
  end.

(** The decimal digits of [num / den] after the point, for
    [0 <= num < den]; at most [fuel] digits (a denominator that is a power
    of ten has fewer decimal places than binary digits). *)
Fixpoint frac_digits (fuel : nat) (num den : Z) : string :=
  match fuel with
  | O => ""
  | S fuel' =>
      if (num =? 0)%Z then ""
      else String (ascii_of_nat (48 + Z.to_nat (num * 10 / den)))
                  (frac_digits fuel' ((num * 10) mod den) den)
  end.

(** Positional rendering of a decimal number, as [str] renders a float of
    moderate size: "45000.0", "30.5". *)
Definition decimal_repr (q : Q) : string :=
  let n := Z.abs (Qnum q) in
  let d := Zpos (Qden q) in
  let frac := frac_digits (Pos.size_nat (Qden q)) (n mod d) d in
  ((if (Qnum q <? 0)%Z then "-" else "")
   ++ NilZero.string_of_int (Z.to_int (n / d)) ++ "."
   ++ (if Str.nonempty frac then frac else "0"))%string.

(** A value that is present is not the missing one. *)
Definition some_is_not_none {A : Type} (a : A) : Some a <> None :=
  fun E =>
    match E in _ = o return match o with Some _ => True | None => False end with
    | eq_refl => I
    end.

#[export] Instance ascii_library : Library := {|
  Timestamp := string;
  decode := ascii_decode;
  decode_ignore := fun contents =>
    string_of_list_byte (List.filter is_ascii_byte contents);
  read_csv := Csv.read;
  read_excel := fun _ => Raised;
  read_json := fun _ => Raised;
  read_xml := fun _ => Raised;
  tables_from_pdf := fun _ => ReturnedNone;
  tables_from_docx := fun _ => ReturnedNone;
  float_repr := decimal_repr;
  to_datetime := fun _ cells =>
    Some (List.map (fun c => if Csv.is_iso_date c then Some c else None) cells);
  to_datetime_dates := fun _ cells _ =>
    some_is_not_none
      (List.map (fun c => if Csv.is_iso_date c then Some c else None) cells)
|}.

(** ** A library environment whose timestamps carry UTC offsets

    The environment of [ascii_library] with a date parser that reads the
    timestamps [dddd-dd-ddTdd:dd:dd+dd:dd] as well and, like pandas,
    refuses a Series in which two of them carry different offsets. *)

(** The offset [+dd:dd] or [-dd:dd] that ends such a timestamp. *)
Definition utc_offset (cell : string) : option string :=
  match list_ascii_of_string cell with
  | [y1; y2; y3; y4; s1; m1; m2; s2; d1; d2; t;
     h1; h2; c1; n1; n2; c2; e1; e2; sg; o1; o2; c3; o3; o4] =>
      if List.forallb Str.is_digit
           [y1; y2; y3; y4; m1; m2; d1; d2; h1; h2; n1; n2; e1; e2; o1; o2; o3; o4]
         && Ascii.eqb s1 "-"%char && Ascii.eqb s2 "-"%char
         && Ascii.eqb t "T"%char
         && Ascii.eqb c1 ":"%char && Ascii.eqb c2 ":"%char
         && Extract.is_sign sg && Ascii.eqb c3 ":"%char
      then Some (string_of_list_ascii [sg; o1; o2; c3; o3; o4])
      else None
  | _ => None
  end.

(** Two cells carry different offsets; [seen] is the offset met so far. *)
Fixpoint conflicting (seen : option string) (cells : list string) : bool :=
  match cells with
  | [] => false
  | cell :: rest =>
      match utc_offset cell, seen with
      | Some o, Some o' => negb (String.eqb o o') || conflicting seen rest
      | Some o, None => conflicting (Some o) rest
      | None, _ => conflicting seen rest
      end
  end.

Definition stamps (cells : list string) : list (option string) :=
  List.map (fun c => if calendar_date c || notna (utc_offset c)
                     then Some c else None) cells.

Definition offsets_to_datetime (cells : list string)
  : option (list (option string)) :=
  if List.forallb calendar_date cells then Some (stamps cells)
  else if conflicting None cells then None
  else Some (stamps cells).

Definition offsets_library : Library := {|
  Timestamp := string;
  decode := ascii_decode;
  decode_ignore := fun contents =>
    string_of_list_byte (List.filter is_ascii_byte contents);
  read_csv := Csv.read;
  read_excel := fun _ => Raised;
  read_json := fun _ => Raised;
  read_xml := fun _ => Raised;
  tables_from_pdf := fun _ => ReturnedNone;
  tables_from_docx := fun _ => ReturnedNone;
  float_repr := decimal_repr;
  to_datetime := fun _ cells => offsets_to_datetime cells;
  to_datetime_dates := fun _ cells H =>
    @eq_ind_r bool true
      (fun b : bool =>
         (if b then Some (stamps cells)
          else if conflicting None cells then None else Some (stamps cells))
         <> None)
      (some_is_not_none (stamps cells))
      (List.forallb calendar_date cells) H
|}.

(** The CSV of the repository's test. *)
Definition statement_csv : list byte :=
  Csv.document
    [ "Txn Date,Narration,CR Amt,DR Amt,Running Bal";
      "2026-02-01,Salary credit,45000,0,52000";
      "2026-02-02,UPI grocery payment,0,1200,50800";
      "2026-02-03,UPI fuel payment,0,800,50000" ].

(** A table whose two labels collide once stripped. *)
Definition colliding_csv : list byte := Csv.document ["Amount, Amount"; "1,2"].

(** A table of ten credits of 999999999999999999 each, whose sum does
    not fit 64 bits. *)
Definition large_credits_table : DataFrame :=
  {| columns := ["Date"; "Amount"];
     data := repeat ["2026-02-01"; "999999999999999999"] 10 |}.

Definition large_credits_csv : list byte :=
  Csv.document ("Date,Amount" :: repeat "2026-02-01,999999999999999999" 10).

(** A table with distinct labels whose two timestamps carry different
    UTC offsets. *)
Definition mixed_offsets_table : DataFrame :=
  {| columns := ["Date"; "Amount"];
     data := [["2026-02-01T10:00:00+05:30"; "100"];
              ["2026-02-02T10:00:00+01:00"; "250"]] |}.

Definition mixed_offsets_csv : list byte :=
  Csv.document
    [ "Date,Amount";
      "2026-02-01T10:00:00+05:30,100";
      "2026-02-02T10:00:00+01:00,250" ].

(** A document without a single digit whose headers name a debit and a
    credit column. *)
Definition digitless_csv : list byte := Csv.document ["Debit,Credit"; "x,y"].

(** A table with one column that no keyword list recognises. *)
Definition single_column : DataFrame :=
  {| columns := ["value"]; data := [["100"]; ["250"]] |}.

(** ** The rule-based risk assessment

    The functions of [risk_service.py] that score a loan request.  Floats
    are exact rationals, as elsewhere, so [1 + r] differs from 1 for every
    positive [r] and no power overflows; [ZeroDivisionError] and
    [IndexError] are the two exceptions the arithmetic and the list
    indexing of these functions can raise. *)

Module Risk.

Inductive Exn : Type :=
| ZeroDivisionError
| IndexError.

Inductive Res (A : Type) : Type :=
| Val (a : A)
| Err (e : Exn).

Arguments Val {A} a.
Arguments Err {A} e.

Definition rbind {A B : Type} (r : Res A) (k : A -> Res B) : Res B :=
  match r with
  | Val a => k a
  | Err e => Err e
  end.

Notation "x <-- c ;; k" := (rbind c (fun x => k))
  (at level 61, c at next level, right associativity).

(** Python's [max(a, b)] and [min(a, b)]: the first argument unless the
    second is strictly larger (smaller). *)
Definition py_max (a b : Q) : Q := if Qltb a b then b else a.
Definition py_min (a b : Q) : Q := if Qltb b a then b else a.

(** [_clamp]. *)
Definition _clamp (value low high : Q) : Q := py_max low (py_min high value).

(** [_normalize_text]. *)
Definition _normalize_text (value : string) : string :=
  Str.lower (Str.strip value).

(** [any(x in text for x in words)]. *)
Definition any_in (words : list string) (text : string) : bool :=
  existsb (fun x => Str.contains x text) words.

(** [_purpose_profile]: loan type, annual rate, minimum and maximum
    tenure in months, purpose risk score. *)
Definition _purpose_profile (purpose : string) : string * Q * Z * Z * Q :=
  let text := _normalize_text purpose in
  if any_in ["home"; "house"; "property"] text
  then ("Home Loan", 9, 120%Z, 300%Z, 16)
  else if any_in ["education"; "study"; "college"; "course"] text
  then ("Education Loan", 10, 36%Z, 120%Z, 20)
  else if any_in ["business"; "inventory"; "shop"; "working capital"] text
  then ("Business Loan", 14, 12%Z, 60%Z, 28)
  else if any_in ["vehicle"; "bike"; "car"; "auto"] text
  then ("Vehicle Loan", 11, 24%Z, 84%Z, 22)
  else if any_in ["medical"; "health"; "hospital"] text
  then ("Medical Personal Loan", 15, 12%Z, 48%Z, 30)
  else ("Personal Loan", 16, 12%Z, 60%Z, 32).

(** [_occupation_risk]. *)
Definition _occupation_risk (occupation : string) : Q * string :=
  let text := _normalize_text occupation in
  if any_in ["government"; "govt"; "teacher"; "bank employee"] text
  then (12, "Your occupation profile appears stable, which supports repayment reliability.")
  else if any_in ["salaried"; "software"; "engineer"; "private employee"] text
  then (16, "A regular salaried income pattern generally improves repayment consistency.")
  else if any_in ["self"; "business"; "shop"; "vendor"; "trader"] text
  then (24, "Self-employment can involve income variability, so risk is treated as moderate.")
  else if any_in ["daily wage"; "freelancer"; "contract"] text
  then (34, "This occupation type may have uneven monthly cash flow, increasing repayment uncertainty.")
  else if Str.contains "student" text
  then (36, "Student profiles usually have limited independent repayment capacity at present.")
  else (26, "Occupation profile indicates a moderate repayment risk band.").

(** [_age_risk]. *)
Definition _age_risk (age : Z) : Q * string :=
  if ((23 <=? age) && (age <=? 55))%Z
  then (14, "Your age bracket is typically aligned with stable earning years.")
  else if ((18 <=? age) && (age <? 23))%Z
  then (28, "Early-career age bands often have developing income stability.")
  else if ((56 <=? age) && (age <=? 65))%Z
  then (26, "This age band can reduce lender flexibility for longer tenures.")
  else (34, "This profile may require shorter tenure and tighter lending terms.").

(** The last [d] decimal digits of [v], with leading zeros. *)
Fixpoint digits_fixed (d : nat) (v : Z) : string :=
  match d with
  | O => ""
  | S d' =>
      (digits_fixed d' (v / 10)
       ++ String (ascii_of_nat (48 + Z.to_nat (v mod 10))) "")%string
  end.

Definition str_int (z : Z) : string := NilZero.string_of_int (Z.to_int z).

(** [f"{q:.df}"] for [d >= 1]: the value rounded to [d] decimals, ties to
    even, with the sign of [q]. *)
Definition format_fixed (q : Q) (d : nat) : string :=
  let scaled := Z.abs (round_half_even (q * inject_Z (Zpos (ten_pow d)))) in
  let unit := Zpos (ten_pow d) in
  ((if Qltb q 0 then "-" else "")
   ++ str_int (scaled / unit) ++ "." ++ digits_fixed d (scaled mod unit))%string.

(** [_predict_financial_condition]: score, risk, note. *)
Definition _predict_financial_condition (occupation : string) (age : Z)
  : Q * Q * string :=
  let occupation_risk := fst (_occupation_risk occupation) in
  let age_risk := fst (_age_risk age) in
  let condition_risk := 0.62 * occupation_risk + 0.38 * age_risk in
  let condition_score := _clamp (100 - condition_risk) 5 95 in
  let label :=
    if Qle_bool 72 condition_score then "Strong"
    else if Qle_bool 52 condition_score then "Moderate"
    else "Vulnerable" in
  let note :=
    ("Financial-condition model (occupation + age) indicates a "
     ++ Str.lower label ++ " profile with score "
     ++ format_fixed condition_score 1 ++ "/100.")%string in
  (condition_score, condition_risk, note).

(** [_cibil_risk]. *)
Definition _cibil_risk (cibil_score : Z) (estimated : bool) : Q * string :=
  let source :=
    if estimated then "estimated from your profile" else "provided by you" in
  let head :=
    ("The CIBIL score (" ++ str_int cibil_score ++ ", " ++ source ++ ") ")%string in
  if (780 <=? cibil_score)%Z
  then (8, (head ++ "is strong and supports high lender confidence.")%string)
  else if (720 <=? cibil_score)%Z
  then (14, (head ++ "is good and supports approval probability.")%string)
  else if (680 <=? cibil_score)%Z
  then (22, (head ++ "is fair, indicating moderate credit risk.")%string)
  else if (620 <=? cibil_score)%Z
  then (34, (head ++ "is below ideal and may reduce approval odds.")%string)
  else (46, (head ++ "is low, which materially increases risk.")%string).

(** [_emi_pressure_risk]. *)
Definition _emi_pressure_risk (monthly_income existing_emis : Q) : Q * string :=
  let emi_ratio := existing_emis / py_max monthly_income 1 in
  if Qle_bool emi_ratio 0.2
  then (10, "Current EMI commitments are light relative to monthly income.")
  else if Qle_bool emi_ratio 0.35
  then (20, "Current EMI commitments are manageable, though repayment headroom is moderate.")
  else if Qle_bool emi_ratio 0.5
  then (34, "Existing EMI obligations consume a significant portion of income.")
  else (48, "High existing EMI obligations create strong repayment pressure.").

(** [_loan_burden_risk]. *)
Definition _loan_burden_risk (monthly_income loan_amount : Q) : Q * string :=
  let loan_to_annual_income := loan_amount / py_max (monthly_income * 12) 1 in
  if Qle_bool loan_to_annual_income 0.5
  then (12, "Requested loan size is modest relative to estimated annual income.")
  else if Qle_bool loan_to_annual_income 1
  then (20, "Requested loan size appears reasonable for the current income profile.")
  else if Qle_bool loan_to_annual_income 1.8
  then (32, "Requested loan size is high relative to annual income.")
  else (44, "Requested loan size is very high relative to annual income.").

(** [_expense_risk]. *)
Definition _expense_risk (monthly_income monthly_expenses : Q) : Q * string :=
  let expense_ratio := monthly_expenses / py_max monthly_income 1 in
  if Qle_bool expense_ratio 0.45
  then (10, "Monthly expense levels are well within income capacity.")
  else if Qle_bool expense_ratio 0.65
  then (20, "Monthly expense levels are moderate relative to income.")
  else if Qle_bool expense_ratio 0.8
  then (34, "Monthly expense levels are high and may pressure repayments.")
  else (48, "Very high expense levels leave limited room for additional EMI.").

(** [_savings_risk]. *)
Definition _savings_risk (monthly_income current_savings : Q) : Q * string :=
  let savings_ratio := current_savings / py_max monthly_income 1 in
  if Qle_bool 6 savings_ratio
  then (8, "Current savings provide a strong financial cushion for repayment continuity.")
  else if Qle_bool 3 savings_ratio
  then (16, "Savings buffer is healthy and supports repayment resilience.")
  else if Qle_bool 1 savings_ratio
  then (26, "Savings are limited; increasing reserves would further reduce risk.")
  else (40, "Low savings increase vulnerability to income and expense shocks.").

(** The request, as [RiskAssessmentRequest] declares it. *)
Record RiskAssessmentRequest : Type := {
  monthly_income : Q;
  existing_emis : Q;
  current_savings : Q;
  monthly_expenses : Q;
  cibil_score : option Z;
  purpose : string;
  loan_amount : Q;
  occupation : string;
  age : Z
}.

(** The response, as [RiskAssessmentResponse] declares it. *)
Record RiskAssessmentResponse : Type := {
  default_probability : Q;
  approval_probability : Q;
  risk_category : string;
  cibil_score_used : Z;
  cibil_estimated : bool;
  remarks : list string;
  recommended_loan_type : string;
  suggested_tenure_months : Z;
  estimated_monthly_emi : Q
}.

(** [_estimate_cibil]. *)
Definition _estimate_cibil (payload : RiskAssessmentRequest) : Z :=
  let income := monthly_income payload in
  let income_ratio := _clamp (income / 100000) 0 1 in
  let emi_ratio := _clamp (existing_emis payload / py_max income 1) 0 1.2 in
  let expense_ratio := _clamp (monthly_expenses payload / py_max income 1) 0 1.4 in
  let savings_months := _clamp (current_savings payload / py_max income 1) 0 12 in
  let loan_burden := _clamp (loan_amount payload / py_max (income * 12) 1) 0 3 in
  let occ_risk := fst (_occupation_risk (occupation payload)) in
  let age_risk := fst (_age_risk (age payload)) in
  let score :=
    675
    + 35 * income_ratio
    - 95 * emi_ratio
    - 75 * py_max (expense_ratio - 0.45) 0
    + 28 * (if Qle_bool savings_months 6 then savings_months / 6 else 1)
    - 45 * py_max (loan_burden - 0.8) 0
    - 0.8 * occ_risk
    - 0.5 * age_risk in
  round_half_even (_clamp score 520 790).

(** [base ** n] for an integer [n]: zero to a negative power raises. *)
Definition float_pow (base : Q) (n : Z) : Res Q :=
  if ((n <? 0)%Z && Qeq_bool base 0)%bool then Err ZeroDivisionError
  else Val (base ^ n).

(** [a / b] on floats. *)
Definition float_div (a b : Q) : Res Q :=
  if Qeq_bool b 0 then Err ZeroDivisionError else Val (a / b).

(** [_emi]. *)
Definition _emi (principal annual_rate : Q) (tenure_months : Z) : Res Q :=
  let monthly_rate := annual_rate / 12 / 100 in
  if Qeq_bool monthly_rate 0 then float_div principal (inject_Z tenure_months)
  else
    factor <-- float_pow (1 + monthly_rate) tenure_months ;;
    float_div (principal * monthly_rate * factor) (factor - 1).

(** The first [count] terms of [start, start + step, ...]. *)
Fixpoint range_from (start step : Z) (count : nat) : list Z :=
  match count with
  | O => []
  | S count' => start :: range_from (start + step) step count'
  end.

(** [list(range(start, stop, step))] for a positive [step]. *)
Definition py_range (start stop step : Z) : list Z :=
  range_from start step (Z.to_nat ((stop - start + step - 1) / step)).

(** The loop of [_pick_tenure]: the first tenure whose instalment is
    affordable, or the pair chosen so far. *)
Fixpoint first_affordable (loan_amount annual_rate affordable : Q)
  (options : list Z) (chosen : Z * Q) : Res (Z * Q) :=
  match options with
  | [] => Val chosen
  | tenure :: rest =>
      emi <-- _emi loan_amount annual_rate tenure ;;
      if Qle_bool emi affordable then Val (tenure, emi)
      else first_affordable loan_amount annual_rate affordable rest chosen
  end.

(** The tenures [_pick_tenure] tries, in order: the range from the
    minimum in steps of 6 or 12 months, closed by the maximum;
    [tenure_options[-1]] raises on an empty range. *)
Definition tenure_options (min_tenure_months max_tenure_months : Z)
  : Res (list Z) :=
  let step := if (96 <? max_tenure_months)%Z then 12%Z else 6%Z in
  let options := py_range min_tenure_months (max_tenure_months + 1) step in
  match options with
  | [] => Err IndexError
  | first :: _ =>
      if negb (last options first =? max_tenure_months)%Z
      then Val (options ++ [max_tenure_months])
      else Val options
  end.

(** [affordable_emi]. *)
Definition affordable_emi (monthly_income existing_emis monthly_expenses : Q) : Q :=
  py_max (monthly_income - monthly_expenses - existing_emis)
         (monthly_income * 0.08).

(** [_pick_tenure]. *)
Definition _pick_tenure (loan_amount annual_rate : Q)
  (min_tenure_months max_tenure_months : Z)
  (monthly_income existing_emis monthly_expenses : Q) : Res (Z * Q) :=
  options <-- tenure_options min_tenure_months max_tenure_months ;;
  let affordable := affordable_emi monthly_income existing_emis monthly_expenses in
  let chosen_tenure := max_tenure_months in
  chosen_emi <-- _emi loan_amount annual_rate chosen_tenure ;;
  first_affordable loan_amount annual_rate affordable options
    (chosen_tenure, chosen_emi).

(** [max(component_messages, key=lambda x: x[1])]: the first component of
    greatest score. *)
Fixpoint max_by_score (best : string * Q * string)
  (components : list (string * Q * string)) : string * Q * string :=
  match components with
  | [] => best
  | c :: rest =>
      if Qltb (snd (fst best)) (snd (fst c)) then max_by_score c rest
      else max_by_score best rest
  end.

(** [sum(...)] over floats, from 0. *)
Definition float_sum (xs : list Q) : Q := fold_left Qplus xs 0.

(** [assess_risk]. *)
Definition assess_risk (payload : RiskAssessmentRequest)
  : Res RiskAssessmentResponse :=
  let '(purpose_loan_type, annual_rate, min_tenure, max_tenure, purpose_risk_score) :=
    _purpose_profile (purpose payload) in
  let '(emi_risk, emi_msg) :=
    _emi_pressure_risk (monthly_income payload) (existing_emis payload) in
  let '(size_risk, size_msg) :=
    _loan_burden_risk (monthly_income payload) (loan_amount payload) in
  let '(expense_risk, expense_msg) :=
    _expense_risk (monthly_income payload) (monthly_expenses payload) in
  let '(savings_risk, savings_msg) :=
    _savings_risk (monthly_income payload) (current_savings payload) in
  let '(condition_score, condition_risk, condition_msg) :=
    _predict_financial_condition (occupation payload) (age payload) in
  let cibil_estimated :=
    match cibil_score payload with None => true | Some _ => false end in
  let cibil_score_used :=
    match cibil_score payload with
    | None => _estimate_cibil payload
    | Some score => score
    end in
  let '(cibil_risk, cibil_msg) := _cibil_risk cibil_score_used cibil_estimated in
  let weighted_components :=
    [ (emi_risk, 0.20); (size_risk, 0.18); (expense_risk, 0.16);
      (savings_risk, 0.12); (condition_risk, 0.17); (purpose_risk_score, 0.07) ]
    ++ [ (cibil_risk, 0.10) ] in
  let total_weight := float_sum (List.map snd weighted_components) in
  let risk_score :=
    float_sum (List.map (fun sw => fst sw * snd sw) weighted_components)
    / py_max total_weight (1 # 1000000000) in
  let default_probability := py_round (_clamp risk_score 3 95) 2 in
  let approval_probability := py_round (100 - default_probability) 2 in
  let risk_category :=
    if Qltb default_probability 30 then "Low"
    else if Qltb default_probability 60 then "Medium"
    else "High" in
  picked <-- _pick_tenure (loan_amount payload) annual_rate min_tenure max_tenure
               (monthly_income payload) (existing_emis payload)
               (monthly_expenses payload) ;;
  let '(suggested_tenure, estimated_emi) := picked in
  let primary_driver :=
    snd (max_by_score ("existing_emi", emi_risk, emi_msg)
           [ ("loan_size", size_risk, size_msg);
             ("monthly_expenses", expense_risk, expense_msg);
             ("current_savings", savings_risk, savings_msg);
             ("financial_condition", condition_risk, condition_msg);
             ("cibil", cibil_risk, cibil_msg) ]) in
  let emi_ratio := existing_emis payload / py_max (monthly_income payload) 1 in
  let expense_ratio := monthly_expenses payload / py_max (monthly_income payload) 1 in
  let savings_months := current_savings payload / py_max (monthly_income payload) 1 in
  let loan_to_annual_income :=
    loan_amount payload / py_max (monthly_income payload * 12) 1 in
  let cibil_source := if cibil_estimated then "estimated" else "provided" in
  let remarks :=
    [ ("Default probability is " ++ format_fixed default_probability 2
       ++ "% from your profile inputs. Approval probability is therefore "
       ++ format_fixed approval_probability 2
       ++ "% (calculated as 100 - default probability).")%string;
      ("Key drivers: EMI-to-income is " ++ format_fixed (emi_ratio * 100) 1
       ++ "%, expense-to-income is " ++ format_fixed (expense_ratio * 100) 1
       ++ "%, savings cover is about " ++ format_fixed savings_months 1
       ++ " month(s), and CIBIL used is " ++ str_int cibil_score_used
       ++ " (" ++ cibil_source ++ ").")%string;
      condition_msg;
      primary_driver;
      ("Best-fit product for your purpose (" ++ purpose payload ++ ") is "
       ++ purpose_loan_type ++ ", with suggested tenure around "
       ++ str_int suggested_tenure
       ++ " months. Requested loan size is "
       ++ format_fixed (loan_to_annual_income * 100) 1
       ++ "% of annual income.")%string ] in
  Val {| default_probability := default_probability;
         approval_probability := approval_probability;
         risk_category := risk_category;
         cibil_score_used := cibil_score_used;
         cibil_estimated := cibil_estimated;
         remarks := remarks;
         recommended_loan_type := purpose_loan_type;
         suggested_tenure_months := suggested_tenure;
         estimated_monthly_emi := py_round estimated_emi 2 |}.

End Risk.

(** ** Vocabulary of the properties *)

(** A label with its normalised form, as [_find_column] pairs them. *)
Definition pair_norm (col : string) : string * string :=
  (col, _normalize_col_name col).

(** The three spellings of the specification. *)
Definition txn_date_headers : list string := ["Txn Date"; "TXN_DATE"; " txn date "].

(** The table of the scenario CSV. *)
Definition statement_table : DataFrame :=
  {| columns := ["Txn Date"; "Narration"; "CR Amt"; "DR Amt"; "Running Bal"];
     data := [ ["2026-02-01"; "Salary credit"; "45000"; "0"; "52000"];
               ["2026-02-02"; "UPI grocery payment"; "0"; "1200"; "50800"];
               ["2026-02-03"; "UPI fuel payment"; "0"; "800"; "50000"] ] |}.

(** A strategy misses when it raises, returns [None], or returns an
    empty frame. *)
Definition misses (outcome : Loaded) : Prop :=
  match outcome with
  | ReturnedFrame df => df_empty df = true
  | ReturnedNone | Raised => True
  end.

(** A missing amount, or one that is not negative. *)
Definition nonneg_or_nan (a : option Q) : Prop :=
  match a with Some q => 0 <= q | None => True end.

(** One of the two canonical transaction types. *)
Definition credit_or_debit (t : option string) : Prop :=
  t = Some "credit" \/ t = Some "debit".

(** An amount that is present and not negative. *)
Definition resolved_nonneg (a : option Q) : Prop :=
  exists q, a = Some q /\ 0 <= q.

(** The least 64-bit integer.  In a column held as 64-bit integers [abs]
    returns it unchanged; everywhere else the absolute value is exact. *)
Definition int64_min : Q := inject_Z (- 2 ^ 63).

(** No cell of the table reads as the least 64-bit integer. *)
Definition abs_exact (df : DataFrame) : Prop :=
  Forall (Forall (fun cell => forall q : Q,
                      to_numeric_cell cell = Some q -> ~ q == int64_min))
         (data df).

(** A column whose cells are all integer literals that fit 64 bits is
    held as 64-bit integers, and its sum is taken modulo 2^64. *)
Definition wrap64 (z : Z) : Z := ((z + 2 ^ 63) mod 2 ^ 64 - 2 ^ 63)%Z.

Definition int64_sum (values : list Z) : Z :=
  List.fold_left (fun acc v => wrap64 (acc + v)) values 0%Z.

(** The values of a column held as 64-bit integers: none is missing and
    each is an integer of the 64-bit range. *)
Fixpoint as_int64 (values : list (option Q)) : option (list Z) :=
  match values with
  | [] => Some []
  | Some q :: rest =>
      if (Pos.eqb (Qden q) 1 && Z.leb (- 2 ^ 63) (Qnum q)
          && Z.ltb (Qnum q) (2 ^ 63))%bool
      then option_map (cons (Qnum q)) (as_int64 rest)
      else None
  | None :: _ => None
  end.

(** The local [amount] of the single-amount branch, from the roles. *)
Definition single_raw_amount (work : DataFrame) (r : Detected)
  : Result (list (option Q)) :=
  amount_col' <- resolve_amount_col work r ;;
  raw_amount work amount_col'.

(** The role map in which nothing is resolved. *)
Definition no_roles : Detected :=
  {| date_col := None; amount_col := None; debit_col := None;
     credit_col := None; type_col := None; balance_col := None;
     description_col := None |}.

(** The resolved values that are not negative, and those that are. *)
Definition credit_values (values : list (option Q)) : list (option Q) :=
  List.filter (fun a => negb (nan_lt a 0)) (List.filter notna values).

Definition debit_values (values : list (option Q)) : list (option Q) :=
  List.filter (fun a => nan_lt a 0) (List.filter notna values).

(** Documents, cells and tables without digits. *)
Definition not_digit (c : ascii) : bool := negb (Str.is_digit c).

(** No character of the text is a digit. *)
Definition digit_free (s : string) : bool := Str.forallb not_digit s.

(** No cell of the table holds a digit. *)
Definition table_digit_free (df : DataFrame) : Prop :=
  Forall (Forall (fun cell => digit_free cell = true)) (data df).

(** A strategy that returns a frame returns one without digits. *)
Definition outcome_digit_free (outcome : Loaded) : Prop :=
  match outcome with
  | ReturnedFrame df => table_digit_free df
  | ReturnedNone | Raised => True
  end.

(** A missing amount, or a zero one. *)
Definition zero_or_nan (a : option Q) : Prop :=
  match a with Some q => q == 0 | None => True end.

(** A document without a digit and without amount columns. *)
Definition names_csv : list byte := Csv.document ["Name,City"; "Alice,Paris"].

(** A document without a digit whose headers fill the debit role
    ("Address" holds "dr"), the credit role and the description role
    ("Description" holds "cr"). *)
Definition address_csv : list byte :=
  Csv.document ["Address,Description"; "Main road,UPI transfer"; "High street,rent"].

(** The rows whose description holds a payment-app marker. *)
Definition upi_rows (cells : list string) : nat :=
  List.length
    (List.filter (fun d => Str.contains_any upi_markers (Str.lower (Str.strip d)))
       cells).

(** A document without a table: one line of free text. *)
Definition salary_line : list byte :=
  Csv.document ["2026-02-01 Salary credit 45000.00"].

(** The role holds no label or the label of a column of [work]. *)
Definition names_column (work : DataFrame) (o : option string) : Prop :=
  forall c, o = Some c -> In c (columns work).

(** The date parser returns on the column of the date role: its cells
    carry no conflicting UTC offsets. *)
Definition dates_accepted {L : Library} (work : DataFrame) : Prop :=
  forall (cells : list string) (dayfirst : bool),
    getitem ValueError work (label_of (date_col (resolve_roles work))) = Ok cells ->
    to_datetime dayfirst cells <> None.

(** The two calls of the date parser on a column raise: the first one,
    or the second one, made when fewer than 30% of the cells parsed. *)
Definition parser_raises {L : Library} (cells : list string) : bool :=
  match to_datetime true cells with
  | None => true
  | Some parsed =>
      nan_lt (notna_mean parsed) (3 # 10)
      && match to_datetime false cells with None => true | Some _ => false end
  end.

(** The date parser raises on the column of the date role. *)
Definition dates_rejected {L : Library} (work : DataFrame) : Prop :=
  exists cells : list string,
    getitem ValueError work (label_of (date_col (resolve_roles work))) = Ok cells /\
    parser_raises cells = true.

(** A token without its commas, as [float] receives it. *)
Definition uncomma (tok : string) : string :=
  Str.filter (fun c => negb (Extract.is_comma c)) tok.

(** Every character is a digit. *)
Definition all_digits (s : string) : bool := Str.forallb Str.is_digit s.

(** No sign, or one sign character. *)
Definition sign_prefix (sgn : string) : Prop :=
  sgn = "" \/ exists c, Extract.is_sign c = true /\ sgn = String c "".

(** What the matcher has read so far: in [IntPart] a sign, if any, and
    digits with commas; in [FracPart] the same followed by a dot and
    digits. *)
Definition scan_inv (st : Extract.Scan) (tok : string) : Prop :=
  match st with
  | Extract.Idle => True
  | Extract.Signed => exists c, Extract.is_sign c = true /\ tok = String c ""
  | Extract.IntPart =>
      exists sgn ds,
        uncomma tok = (sgn ++ ds)%string /\ sign_prefix sgn /\
        all_digits ds = true /\ Str.nonempty ds = true
  | Extract.FracPart =>
      exists sgn ds fs,
        uncomma tok = (sgn ++ ds ++ String "." fs)%string /\ sign_prefix sgn /\
        all_digits ds = true /\ Str.nonempty ds = true /\ all_digits fs = true
  end.

(** The score [_best_numeric_column] gives a column: the share of its
    cells that read as numbers; NaN on a table without rows. *)
Definition numeric_share (df : DataFrame) (col : string) : option Q :=
  match getitem AttributeError df col with
  | Ok cells => notna_mean (_to_numeric cells)
  | Raise _ => None
  end.

(** The column is not in the excluded set. *)
Definition eligible (excluded : list string) (col : string) : Prop :=
  existsb (String.eqb col) excluded = false.

(** No eligible column scanned so far has a share above [bound]. *)
Definition shares_below (df : DataFrame) (excluded scanned : list string)
  (bound : Q) : Prop :=
  forall col share,
    In col scanned -> eligible excluded col ->
    numeric_share df col = Some share -> share <= bound.

(** The characters [_to_numeric] keeps. *)
Definition numeric_char (c : ascii) : bool :=
  Str.is_digit c || Ascii.eqb c "."%char || Ascii.eqb c "-"%char.

(** ** The statement endpoint

    [parse_bank_statement] of the router: the summary under status 200,
    status 400 for a [ValueError], status 500 for any other exception. *)

Inductive HttpResponse : Type :=
| Http200 (body : Summary)
| Http400
| Http500.

Definition parse_bank_statement {L : Library}
  (contents : list byte) (filename : option string) : HttpResponse :=
  match analyze_bank_statement contents filename with
  | Ok summary => Http200 summary
  | Raise ValueError => Http400
  | Raise _ => Http500
  end.

(** ** The amortisation schedule *)

(** The balance left after paying [instalment] at the end of each of
    [months] months, the balance growing at [monthly_rate] per month. *)
Fixpoint outstanding (principal monthly_rate instalment : Q) (months : nat)
  : Q :=
  match months with
  | O => principal
  | S m =>
      outstanding principal monthly_rate instalment m * (1 + monthly_rate)
      - instalment
  end.

(** * Properties *)

(** ** Stripping *)

Lemma rstrip_idem (s : string) : Str.rstrip (Str.rstrip s) = Str.rstrip s.
Proof.
  induction s as [|c r IH]; [reflexivity|].
  cbn [Str.rstrip].
  destruct (Str.rstrip r) as [|c' r'] eqn:E.
  - destruct (Str.is_space c) eqn:Hs; [reflexivity|].
    cbn [Str.rstrip]. now rewrite Hs.
  - change (Str.rstrip (String c (String c' r')))
      with (match Str.rstrip (String c' r') with
            | EmptyString =>
                if Str.is_space c then EmptyString else String c EmptyString
            | String a b => String c (String a b)
            end).
    now rewrite IH.
Qed.

Lemma rstrip_keeps_head (c : ascii) (r : string) :
  Str.is_space c = false -> exists r', Str.rstrip (String c r) = String c r'.
Proof.
  intros Hc. cbn [Str.rstrip].
  destruct (Str.rstrip r) as [|c' r'].
  - rewrite Hc. now exists EmptyString.
  - now exists (String c' r').
Qed.

Lemma lstrip_head (s : string) :
  Str.lstrip s = EmptyString \/
  exists c r, Str.lstrip s = String c r /\ Str.is_space c = false.
Proof.
  induction s as [|c r IH]; [now left|].
  cbn [Str.lstrip]. destruct (Str.is_space c) eqn:Hc; [exact IH|].
  right. now exists c, r.
Qed.

Lemma lstrip_fixed (c : ascii) (r : string) :
  Str.is_space c = false -> Str.lstrip (String c r) = String c r.
Proof. intros Hc. cbn [Str.lstrip]. now rewrite Hc. Qed.

(** Stripping twice is stripping once: the labels of [work] are their own
    stripped forms. *)
Lemma strip_idem (s : string) : Str.strip (Str.strip s) = Str.strip s.
Proof.
  unfold Str.strip.
  destruct (lstrip_head s) as [E | (c & r & E & Hc)]; rewrite E.
  - reflexivity.
  - destruct (rstrip_keeps_head c r Hc) as [r' E'].
    rewrite E', (lstrip_fixed c r' Hc), <- E'. apply rstrip_idem.
Qed.

(** Headers that agree once stripped and lower-cased have one normalised
    name, whatever their case and surrounding blanks. *)
Lemma normalize_col_name_insensitive (a b : string) :
  Str.lower (Str.strip a) = Str.lower (Str.strip b) ->
  _normalize_col_name a = _normalize_col_name b.
Proof. intros H. unfold _normalize_col_name. now rewrite H. Qed.

Lemma normalize_col_name_strip (l : string) :
  _normalize_col_name (Str.strip l) = _normalize_col_name l.
Proof. unfold _normalize_col_name. now rewrite strip_idem. Qed.

(** ** The column resolver *)

Lemma find_label_skip (key : string) (pre rest : list string) :
  Forall (fun l => Str.contains key (_normalize_col_name l) = false) pre ->
  find_label key (List.map pair_norm (pre ++ rest))
  = find_label key (List.map pair_norm rest).
Proof.
  induction 1 as [|l pre Hl _ IH]; [reflexivity|].
  cbn [app List.map find_label pair_norm]. now rewrite Hl.
Qed.

Lemma find_label_in (key : string) (labels : list string) (col : string) :
  find_label key (List.map pair_norm labels) = Some col -> In col labels.
Proof.
  induction labels as [|l rest IH]; cbn [List.map find_label pair_norm].
  - discriminate.
  - destruct (Str.contains key (_normalize_col_name l)).
    + intros [= <-]. now left.
    + intros H. right. now apply IH.
Qed.

Lemma first_match_in (keywords : list string) (labels : list string) (col : string) :
  first_match keywords (List.map pair_norm labels) = Some col -> In col labels.
Proof.
  induction keywords as [|key rest IH]; cbn [first_match]; [discriminate|].
  destruct (find_label key (List.map pair_norm labels)) eqn:E.
  - intros [= <-]. eapply find_label_in; eauto.
  - exact IH.
Qed.

(** A resolved role names a column of the table. *)
Lemma find_column_in (df : DataFrame) (keywords : list string) (col : string) :
  _find_column df keywords = Some col -> In col (columns df).
Proof. apply first_match_in. Qed.

Lemma find_label_found (key : string) (labels : list string) (l : string) :
  In l labels ->
  Str.contains key (_normalize_col_name l) = true ->
  exists c, find_label key (List.map pair_norm labels) = Some c /\
            Str.contains key (_normalize_col_name c) = true.
Proof.
  induction labels as [|x rest IH]; intros Hin Hl; [contradiction|].
  cbn [List.map find_label pair_norm].
  destruct (Str.contains key (_normalize_col_name x)) eqn:E; [eauto|].
  destruct Hin as [-> | Hin]; [congruence | auto].
Qed.

(** C7. Header matching ignores case and surrounding or inner blanks and
    punctuation: "Txn Date", "TXN_DATE" and " txn date " all normalise to
    "txndate". In every raw table that has one of them as a header the
    date role is resolved, to a header whose normalised name holds "date";
    it is resolved to that very header (to its stripped label, the label
    [work] carries) when no earlier header is date-like. *)
Theorem C7_header_resolves_to_date :
  forall (h : string) (df : DataFrame),
    In h txn_date_headers ->
    In h (columns df) ->
    _normalize_col_name h = "txndate" /\
    (exists c, date_col (resolve_roles (work_of df)) = Some c /\
               Str.contains "date" (_normalize_col_name c) = true) /\
    (forall pre post,
        columns df = pre ++ h :: post ->
        Forall (fun l => Str.contains "date" (_normalize_col_name l) = false) pre ->
        date_col (resolve_roles (work_of df)) = Some (Str.strip h)).
Proof.
  intros h df Hh Hin.
  assert (Hn : _normalize_col_name h = "txndate").
  { cbn [txn_date_headers In] in Hh.
    destruct Hh as [<- | [<- | [<- | []]]]; reflexivity. }
  assert (Hrole : date_col (resolve_roles (work_of df))
                  = find_label "date"
                      (List.map pair_norm (List.map Str.strip (columns df)))).
  { cbn [resolve_roles date_col]. unfold _find_column, work_of.
    cbn [columns].
    change (fun col : string => (col, _normalize_col_name col)) with pair_norm.
    unfold date_keywords. cbn [first_match].
    destruct (find_label_found "date" (List.map Str.strip (columns df))
                (Str.strip h)) as (c & -> & _); [| |reflexivity].
    - now apply in_map.
    - now rewrite normalize_col_name_strip, Hn. }
  split; [exact Hn|]. split.
  - rewrite Hrole. apply find_label_found with (l := Str.strip h).
    + now apply in_map.
    + now rewrite normalize_col_name_strip, Hn.
  - intros pre post Hcols Hpre. rewrite Hrole, Hcols, map_app. cbn [List.map].
    rewrite find_label_skip.
    + cbn [List.map find_label pair_norm].
      now rewrite normalize_col_name_strip, Hn.
    + rewrite Forall_map. eapply Forall_impl; [|exact Hpre].
      intros l Hl. cbn beta. now rewrite normalize_col_name_strip.
Qed.

Lemma C7_header_resolves_to_date_witness :
  _normalize_col_name "TXN_DATE" = "txndate" /\
  date_col (resolve_roles (work_of
    {| columns := ["Narration"; "TXN_DATE"; "Value Date"];
       data := [["rent"; "01-02-2026"; "02-02-2026"]] |}))
  = Some "TXN_DATE".
Proof.
  destruct (C7_header_resolves_to_date "TXN_DATE"
              {| columns := ["Narration"; "TXN_DATE"; "Value Date"];
                 data := [["rent"; "01-02-2026"; "02-02-2026"]] |})
    as (Hn & _ & Hfirst).
  - cbn. auto.
  - cbn. auto.
  - split; [exact Hn|].
    apply (Hfirst ["Narration"] ["Value Date"]); [reflexivity|].
    repeat constructor.
Defined.

(** ** The loader chain *)

Section LoaderFacts.
Context {L : Library}.

Lemma first_loaded_hit (name : string) (df : DataFrame)
  (rest : list (string * Loaded)) :
  df_empty df = false ->
  first_loaded ((name, ReturnedFrame df) :: rest) = Some (df, name).
Proof. intros H. cbn [first_loaded]. now rewrite H. Qed.

Lemma first_loaded_all_miss (loaders : list (string * Loaded)) :
  Forall (fun p => misses (snd p)) loaders -> first_loaded loaders = None.
Proof.
  induction 1 as [|[name outcome] rest Hm _ IH]; [reflexivity|].
  cbn [first_loaded]. destruct outcome as [| |df]; try exact IH.
  cbn [misses snd] in Hm. now rewrite Hm.
Qed.

(** Whatever the strategies do, the loader returns a pair. When the
    chain starts with the CSV strategy and that strategy yields a
    non-empty frame, the frame is the result. *)
Lemma load_csv_first (contents : list byte) (filename : option string)
  (df : DataFrame) :
  specific_loaders (extension_of filename) contents = []
  \/ (exists name, specific_loaders (extension_of filename) contents
                   = [(name, read_csv contents)]) ->
  read_csv contents = ReturnedFrame df ->
  df_empty df = false ->
  fst (_load_statement_dataframe contents filename) = df.
Proof.
  intros Hs Hr He. unfold _load_statement_dataframe. cbv zeta.
  unfold fallback_loaders.
  destruct Hs as [-> | [name ->]]; cbn [app];
    rewrite Hr, first_loaded_hit by exact He; reflexivity.
Qed.

Lemma analyze_via_frame (contents : list byte) (filename : option string) :
  analyze_bank_statement contents filename
  = analyze_frame (fst (_load_statement_dataframe contents filename)).
Proof.
  unfold analyze_bank_statement.
  now destruct (_load_statement_dataframe contents filename).
Qed.

End LoaderFacts.

(** The filename matters only through its extension. *)
Lemma analyze_depends_on_extension (L : Library) (contents : list byte)
  (filename1 filename2 : option string) :
  extension_of filename1 = extension_of filename2 ->
  analyze_bank_statement contents filename1
  = analyze_bank_statement contents filename2.
Proof.
  intros H. unfold analyze_bank_statement, _load_statement_dataframe.
  cbv zeta. now rewrite H.
Qed.

(** ** The scenario of the repository's test *)

Lemma statement_csv_reads :
  Csv.in_dialect statement_csv = true /\
  Csv.read statement_csv = ReturnedFrame statement_table.
Proof. split; vm_compute; reflexivity. Qed.

(** The statistics of the scenario table, under any library: the date
    parser is the only library call on this path, it returns on the
    three calendar dates of the table, and no statistic reads the
    dates. *)
Lemma statement_table_summary (L : Library) :
  exists s, analyze_frame statement_table = Ok s /\
    monthly_income_estimate s == 45000 /\
    monthly_expense_estimate s == 2000 /\
    avg_monthly_balance s == 50933.33 /\
    income_volatility_index s == 0 /\
    upi_transaction_frequency s = 2%nat.
Proof.
  unfold analyze_frame. cbn [df_empty statement_table columns data].
  unfold _normalize_statement, assemble.
  set (work := work_of _). set (r := resolve_roles work).
  vm_compute in r. vm_compute in work.
  assert (Hd : exists d, date_column work r = Ok d).
  { unfold date_column. subst r work.
    cbn [date_col Str.truthy Str.nonempty label_of].
    set (g := getitem _ _ _). vm_compute in g. subst g. cbn [bind].
    unfold parse_dates.
    destruct (to_datetime true _) as [parsed|] eqn:E1;
      [|exfalso; eapply to_datetime_dates; [|exact E1]; reflexivity].
    cbn [bind]. destruct (nan_lt _ _); [|eauto].
    destruct (to_datetime false _) as [parsed'|] eqn:E2; [eauto|].
    exfalso. eapply to_datetime_dates; [|exact E2]. reflexivity. }
  destruct Hd as [d ->]. cbn [bind].
  set (a := amount_and_type work r). vm_compute in a. subst a. cbn [bind].
  set (a := balance_column work r). vm_compute in a. subst a. cbn [bind].
  set (a := description_column work r). vm_compute in a. subst a. cbn [bind].
  unfold finish. cbn [n_amount n_type n_balance n_description n_date].
  cbn [is_nil List.map select notna].
  eexists. split; [reflexivity|].
  unfold summarize, amounts_of.
  cbn [n_amount n_type n_balance n_description n_date description_col
       monthly_income_estimate monthly_expense_estimate avg_monthly_balance
       income_volatility_index upi_transaction_frequency].
  repeat split; vm_compute; reflexivity.
Qed.

(** C2. The CSV of the scenario (headers Txn Date, Narration, CR Amt,
    DR Amt, Running Bal and its three rows), which the CSV strategy reads
    as the table of its four lines, gives monthly income 45000.00, monthly
    expenses 2000.00, average balance 50933.33 and a UPI frequency of at
    least 2, with the test's filename and without a filename. *)
Theorem C2_statement_scenario :
  forall (L : Library) (filename : option string),
    read_csv statement_csv = ReturnedFrame statement_table ->
    filename = None \/ filename = Some "statement_anyshape.csv" ->
    exists s, analyze_bank_statement statement_csv filename = Ok s /\
      monthly_income_estimate s == 45000 /\
      monthly_expense_estimate s == 2000 /\
      avg_monthly_balance s == 50933.33 /\
      (2 <= upi_transaction_frequency s)%nat.
Proof.
  intros L filename Hcsv Hf.
  rewrite analyze_via_frame, (load_csv_first statement_csv filename statement_table).
  - destruct (statement_table_summary L) as (s & Hs & Hi & He & Hb & _ & Hu).
    exists s. repeat split; try assumption. rewrite Hu. apply le_n.
  - destruct Hf as [-> | ->]; [left | right; exists "csv"]; reflexivity.
  - exact Hcsv.
  - reflexivity.
Qed.

Lemma C2_statement_scenario_witness :
  exists s,
    analyze_bank_statement (L := ascii_library) statement_csv
      (Some "statement_anyshape.csv") = Ok s /\
    monthly_income_estimate s == 45000 /\
    monthly_expense_estimate s == 2000 /\
    avg_monthly_balance s == 50933.33 /\
    (2 <= upi_transaction_frequency s)%nat.
Proof.
  apply (C2_statement_scenario ascii_library (Some "statement_anyshape.csv")).
  - vm_compute. reflexivity.
  - right. reflexivity.
Defined.

(** The free-text scenario of the specification: no table is recovered
    from the line "2026-02-01 Salary credit 45000.00", the text extractor
    builds one row from it, and the income is positive. The first numeric
    token of the line is the year of its date, which becomes the amount;
    the last token becomes the balance. *)
Example text_fallback_scenario :
  _load_statement_dataframe (L := ascii_library) salary_line None
  = ({| columns := Extract.text_columns;
        data := [["2026-02-01"; "2026-02-01 Salary credit 45000.00";
                  "2026.0"; "45000.0"; "credit"]] |}, "text_fallback") /\
  exists s, analyze_bank_statement (L := ascii_library) salary_line None = Ok s /\
    monthly_income_estimate s == 2026 /\ 0 < monthly_income_estimate s.
Proof.
  split; [vm_compute; reflexivity|].
  eexists. split; [vm_compute; reflexivity|]. split; vm_compute; reflexivity.
Qed.

(** ** Series lemmas *)

Lemma bind_ok {A B : Type} (r : Result A) (k : A -> Result B) (b : B) :
  bind r k = Ok b -> exists a, r = Ok a /\ k a = Ok b.
Proof. destruct r as [a|e]; cbn [bind]; [eauto | discriminate]. Qed.

Ltac inv_bind H :=
  let a := fresh "v" in
  let E := fresh "E" in
  apply bind_ok in H; destruct H as (a & E & H).

Tactic Notation "bind_inv" hyp(H) "as" ident(a) ident(E) :=
  apply bind_ok in H; destruct H as (a & E & H).

Lemma select_map {A B : Type} (p : A -> bool) (f : A -> B) (l : list A) :
  select (List.map p l) (List.map f l) = List.map f (List.filter p l).
Proof.
  induction l as [|x l IH]; [reflexivity|].
  cbn [List.map select List.filter]. destruct (p x); cbn [List.map]; now rewrite IH.
Qed.

Lemma select_self {A : Type} (p : A -> bool) (l : list A) :
  select (List.map p l) l = List.filter p l.
Proof.
  rewrite <- (map_id l) at 2. rewrite select_map. apply map_id.
Qed.

Lemma select_Forall {A : Type} (P : A -> Prop) (mask : list bool) (s : list A) :
  Forall P s -> Forall P (select mask s).
Proof.
  revert s. induction mask as [|b mask IH]; intros s H; [constructor|].
  destruct s as [|x s]; [constructor|]. inversion H; subst.
  cbn [select]. destruct b; auto.
Qed.

Lemma select_length_eq {A B : Type} (mask : list bool) (s1 : list A) (s2 : list B) :
  List.length s1 = List.length s2 ->
  List.length (select mask s1) = List.length (select mask s2).
Proof.
  revert s1 s2. induction mask as [|b mask IH]; intros s1 s2 H; [reflexivity|].
  destruct s1, s2; try discriminate; [reflexivity|].
  cbn [select]. injection H as H. destruct b; cbn [List.length]; auto.
Qed.

Lemma map2_length {A B C : Type} (f : A -> B -> C) (s1 : list A) (s2 : list B) :
  List.length s1 = List.length s2 ->
  List.length (map2 f s1 s2) = List.length s1.
Proof.
  revert s2. induction s1 as [|x s1 IH]; intros [|y s2] H; try discriminate;
    [reflexivity|]. cbn [map2 List.length]. injection H as H. now rewrite IH.
Qed.

Lemma map2_Forall {A B C : Type} (f : A -> B -> C) (P : C -> Prop)
  (s1 : list A) (s2 : list B) :
  (forall x y, In x s1 -> In y s2 -> P (f x y)) -> Forall P (map2 f s1 s2).
Proof.
  revert s2. induction s1 as [|x s1 IH]; intros [|y s2] H; try constructor.
  - apply H; now left.
  - apply IH. intros; apply H; now right.
Qed.

Lemma Qltb_lt (x y : Q) : Qltb x y = true <-> x < y.
Proof.
  unfold Qltb. rewrite negb_true_iff. split; intros H.
  - apply Qnot_le_lt. intros Hle. apply Qle_bool_iff in Hle. congruence.
  - destruct (Qle_bool y x) eqn:E; [|reflexivity].
    apply Qle_bool_iff in E. exfalso. eapply Qlt_not_le; eauto.
Qed.

Lemma Qltb_ge (x y : Q) : Qltb x y = false <-> y <= x.
Proof.
  unfold Qltb. rewrite negb_false_iff. apply Qle_bool_iff.
Qed.

(** ** Access to columns *)

Lemma getitem_length (e : Exn) (df : DataFrame) (col : string) (s : list string) :
  getitem e df col = Ok s -> List.length s = List.length (data df).
Proof.
  unfold getitem. destruct (positions col (columns df) 0) as [|j [|k rest]];
    try discriminate.
  intros [= <-]. unfold column_at. apply length_map.
Qed.

Lemma positions_absent (col : string) (labels : list string) (j : nat) :
  ~ In col labels -> positions col labels j = [].
Proof.
  revert j. induction labels as [|l rest IH]; intros j H; [reflexivity|].
  cbn [positions]. destruct (String.eqb l col) eqn:E.
  - apply String.eqb_eq in E. subst. exfalso. apply H. now left.
  - apply IH. intros Hin. apply H. now right.
Qed.

Lemma positions_unique (col : string) (labels : list string) (j : nat) :
  NoDup labels -> In col labels -> exists k, positions col labels j = [k].
Proof.
  revert j. induction labels as [|l rest IH]; intros j Hnd Hin; [contradiction|].
  inversion Hnd as [|? ? Hnotin Hnd']; subst. cbn [positions].
  destruct (String.eqb l col) eqn:E.
  - apply String.eqb_eq in E. subst. rewrite positions_absent by exact Hnotin.
    now exists j.
  - destruct Hin as [-> | Hin]; [rewrite String.eqb_refl in E; discriminate|].
    now apply IH.
Qed.

(** With pairwise distinct labels, selecting a column of the table gives a
    Series. *)
Lemma getitem_ok (e : Exn) (df : DataFrame) (col : string) :
  NoDup (columns df) -> In col (columns df) ->
  exists s, getitem e df col = Ok s.
Proof.
  intros Hnd Hin. unfold getitem.
  destruct (positions_unique col (columns df) 0 Hnd Hin) as [k ->]. eauto.
Qed.

Lemma truthy_label (o : option string) :
  Str.truthy o = true -> o = Some (label_of o).
Proof. destruct o; [reflexivity | discriminate]. Qed.

(** ** Amounts are resolved and non-negative *)

Lemma abs_fill_nonneg (v : option Q) : 0 <= Qabs (fillna0 v).
Proof. apply Qabs_nonneg. Qed.

Lemma dual_amount_nonneg (c d : Q) : 0 <= c -> 0 <= d -> 0 <= dual_amount c d.
Proof. intros Hc Hd. unfold dual_amount. now destruct (Qltb 0 c). Qed.

Lemma raw_amount_length (work : DataFrame) (c : option string)
  (amount : list (option Q)) :
  raw_amount work c = Ok amount -> List.length amount = List.length (data work).
Proof.
  unfold raw_amount. destruct (Str.truthy c).
  - intros H. inv_bind H. injection H as <-. unfold _to_numeric.
    rewrite length_map. eapply getitem_length; eauto.
  - intros [= <-]. apply repeat_length.
Qed.

Lemma single_type_length (work : DataFrame) (r : Detected)
  (amount : list (option Q)) (tx : list string) :
  List.length amount = List.length (data work) ->
  single_type work r amount = Ok tx ->
  List.length tx = List.length (data work).
Proof.
  intros Hlen. unfold single_type.
  destruct (Str.truthy (type_col r)); [|destruct (Str.truthy (description_col r))].
  - intros H. inv_bind H. injection H as <-. rewrite !length_map.
    eapply getitem_length; eauto.
  - intros H. inv_bind H. injection H as <-. rewrite !length_map.
    eapply getitem_length; eauto.
  - intros [= <-]. now rewrite length_map.
Qed.

Lemma amount_and_type_facts (work : DataFrame) (r : Detected)
  (amount : list (option Q)) (tx : list string) (c : option string) :
  amount_and_type work r = Ok (amount, tx, c) ->
  Forall nonneg_or_nan amount /\
  List.length amount = List.length (data work) /\
  List.length tx = List.length (data work).
Proof.
  unfold amount_and_type. destruct (dual r).
  - intros H. inv_bind H. inv_bind H. injection H as <- <- <-.
    apply getitem_length in E, E0.
    assert (Hl : List.length
                   (List.map (fun v => Qabs (fillna0 v)) (_to_numeric v0))
                 = List.length
                     (List.map (fun v => Qabs (fillna0 v)) (_to_numeric v))).
    { unfold _to_numeric. rewrite !length_map. congruence. }
    repeat split.
    + rewrite Forall_map. apply map2_Forall. intros x y Hx Hy. cbn [nonneg_or_nan].
      apply in_map_iff in Hx as (? & <- & _). apply in_map_iff in Hy as (? & <- & _).
      apply dual_amount_nonneg; apply abs_fill_nonneg.
    + rewrite length_map, map2_length by exact Hl. unfold _to_numeric.
      rewrite !length_map. exact E0.
    + rewrite map2_length by exact Hl. unfold _to_numeric.
      rewrite !length_map. exact E0.
  - intros H. inv_bind H. inv_bind H. inv_bind H. injection H as <- <- <-.
    pose proof (raw_amount_length _ _ _ E0) as Hlen.
    repeat split.
    + rewrite Forall_map. apply Forall_forall. intros [q|] _; cbn; [|exact I].
      apply Qabs_nonneg.
    + now rewrite length_map.
    + eapply single_type_length; eauto.
Qed.

Lemma assemble_facts (L : Library) (df : DataFrame) (pre : Normalized)
  (detected : Detected) :
  assemble df = Ok (pre, detected) ->
  Forall nonneg_or_nan (n_amount pre) /\
  List.length (n_amount pre) = List.length (data df) /\
  List.length (n_type pre) = List.length (data df).
Proof.
  unfold assemble. intros H. inv_bind H. inv_bind H.
  destruct v0 as [[amount tx] c]. inv_bind H. inv_bind H.
  injection H as <- <-. cbn [n_amount n_type].
  apply amount_and_type_facts in E0 as (Hn & Hl1 & Hl2).
  rewrite length_map. auto.
Qed.

Lemma normalize_inv (L : Library) (df : DataFrame) (final : Normalized)
  (detected : Detected) :
  _normalize_statement df = Ok (final, detected) ->
  exists pre, assemble df = Ok (pre, detected) /\ final = finish pre.
Proof.
  unfold _normalize_statement. intros H. inv_bind H. destruct v as [pre d].
  injection H as <- <-. eauto.
Qed.

Lemma filter_notna_fill (s : list (option Q)) :
  List.map (fun a => Some (fillna0 a)) (List.filter notna s) = List.filter notna s.
Proof.
  induction s as [|[q|] s IH]; cbn [List.filter notna List.map fillna0];
    [reflexivity | now rewrite IH | exact IH].
Qed.

Lemma finish_amount (L : Library) (pre : Normalized) :
  n_amount (finish pre) = List.filter notna (n_amount pre).
Proof.
  unfold finish. cbn [n_amount]. rewrite select_self. apply filter_notna_fill.
Qed.

Lemma filter_notna_resolved (s : list (option Q)) :
  Forall nonneg_or_nan s ->
  Forall (fun a => exists q, a = Some q /\ 0 <= q) (List.filter notna s).
Proof.
  induction 1 as [|[q|] s Hq _ IH]; cbn [List.filter notna]; auto.
  constructor; [eauto | exact IH].
Qed.

Lemma notna_abs (s : list (option Q)) :
  List.map notna (List.map (option_map Qabs) s) = List.map notna s.
Proof. rewrite map_map. apply map_ext. now intros [q|]. Qed.

Lemma select_all {A B : Type} (l : list A) (s : list B) :
  List.length l = List.length s ->
  select (List.map notna (List.map Some l)) s = s.
Proof.
  revert s. induction l as [|x l IH]; intros [|y s] H; try discriminate;
    [reflexivity|].
  cbn [List.map notna select]. injection H as H. now rewrite IH.
Qed.

Lemma dual_type_two_valued (c d : Q) :
  coerce_type (Some (dual_type c d)) = Some (dual_type c d).
Proof.
  unfold dual_type. destruct (Qltb 0 c); [reflexivity|].
  destruct (Qltb 0 d); reflexivity.
Qed.

(** The canonical table of the branch without a debit and credit pair,
    in terms of the cells of the amount column. *)
Lemma single_branch_rows (L : Library) (df : DataFrame) (final : Normalized)
  (detected : Detected) :
  dual (resolve_roles (work_of df)) = false ->
  _normalize_statement df = Ok (final, detected) ->
  exists (raw : list (option Q)) (pre : Normalized),
    raw_amount (work_of df) (amount_col detected) = Ok raw /\
    assemble df = Ok (pre, detected) /\
    List.length raw = List.length (data df) /\
    n_amount final = List.map (option_map Qabs) (List.filter notna raw) /\
    n_date final = select (List.map notna raw) (n_date pre) /\
    n_type final = List.map coerce_type (select (List.map notna raw) (n_type pre)) /\
    n_balance final = select (List.map notna raw) (n_balance pre) /\
    n_description final = select (List.map notna raw) (n_description pre).
Proof.
  intros Hdual H.
  apply normalize_inv in H as (pre & Hpre & ->).
  pose proof Hpre as Hasm.
  unfold assemble in Hpre. bind_inv Hpre as date Hdate.
  bind_inv Hpre as at' Hat. destruct at' as [[amount' tx] c].
  bind_inv Hpre as bal Hbal. bind_inv Hpre as desc Hdsc.
  injection Hpre as Epre Edet.
  unfold amount_and_type in Hat. rewrite Hdual in Hat.
  bind_inv Hat as col Hcol. bind_inv Hat as raw Hraw.
  bind_inv Hat as tx' Htx. injection Hat as <- <- <-.
  rewrite Hdual in Edet. cbn [negb] in Edet.
  exists raw, pre. subst detected. cbn [amount_col].
  split; [exact Hraw|]. split; [exact Hasm|].
  split; [apply (raw_amount_length _ _ _ Hraw)|].
  subst pre. unfold finish. cbn [n_amount n_date n_type n_balance n_description].
  rewrite notna_abs. repeat split.
  rewrite select_map, map_map. apply map_ext_in. intros [q|] Hin; [reflexivity|].
  apply filter_In in Hin as [_ Hin]. discriminate.
Qed.

(** The canonical table of the branch with a debit and a credit column:
    no row is dropped. *)
Lemma dual_branch_rows (L : Library) (df : DataFrame) (final : Normalized)
  (detected : Detected) :
  dual (resolve_roles (work_of df)) = true ->
  _normalize_statement df = Ok (final, detected) ->
  exists dcells ccells,
    getitem AttributeError (work_of df)
      (label_of (debit_col (resolve_roles (work_of df)))) = Ok dcells /\
    getitem AttributeError (work_of df)
      (label_of (credit_col (resolve_roles (work_of df)))) = Ok ccells /\
    n_amount final
    = List.map Some
        (map2 dual_amount
           (List.map (fun v => Qabs (fillna0 v)) (_to_numeric ccells))
           (List.map (fun v => Qabs (fillna0 v)) (_to_numeric dcells))) /\
    n_type final
    = List.map Some
        (map2 dual_type
           (List.map (fun v => Qabs (fillna0 v)) (_to_numeric ccells))
           (List.map (fun v => Qabs (fillna0 v)) (_to_numeric dcells))) /\
    List.length (n_amount final) = List.length (data df) /\
    amount_col detected = None.
Proof.
  intros Hdual H.
  apply normalize_inv in H as (pre & Hpre & ->).
  unfold assemble in Hpre.
  bind_inv Hpre as date Edate. bind_inv Hpre as v Eat.
  destruct v as [[amount tx] c].
  bind_inv Hpre as balance Ebal. bind_inv Hpre as description Edesc.
  injection Hpre as <- <-.
  unfold amount_and_type in Eat. rewrite Hdual in Eat.
  bind_inv Eat as dcells Ed. bind_inv Eat as ccells Ec.
  injection Eat as <- <- <-.
  exists dcells, ccells. split; [exact Ed|]. split; [exact Ec|].
  set (debit := List.map (fun v => Qabs (fillna0 v)) (_to_numeric dcells)).
  set (credit := List.map (fun v => Qabs (fillna0 v)) (_to_numeric ccells)).
  apply getitem_length in Ed, Ec.
  assert (Hl : List.length credit = List.length debit).
  { unfold credit, debit, _to_numeric. rewrite !length_map. congruence. }
  assert (Hlen : List.length (map2 dual_amount credit debit)
                 = List.length (data df)).
  { rewrite map2_length by exact Hl. unfold credit, _to_numeric.
    rewrite !length_map. exact Ec. }
  unfold finish. cbn [n_amount n_type]. rewrite Hdual. cbn [negb].
  repeat split.
  - rewrite select_all by (now rewrite length_map). rewrite map_map. reflexivity.
  - rewrite select_all
      by (rewrite length_map, !map2_length by exact Hl; reflexivity).
    rewrite map_map. clear. generalize debit. clear.
    induction credit as [|x credit IH]; intros [|y debit]; try reflexivity.
    cbn [map2 List.map]. now rewrite dual_type_two_valued, IH.
  - rewrite select_all by (now rewrite length_map). now rewrite !length_map.
Qed.

(** C6 (amended). On a table none of whose cells reads as the least
    64-bit integer, every canonical transaction has a resolved amount that
    is not negative.  Without both a debit and a credit column the
    canonical rows are exactly the rows whose cell in the reported amount
    column reads as a number (no row at all when there is no amount
    column): every column is cut by that one mask.  With both columns no
    row is dropped: a debit or credit cell that does not read as a number
    counts as 0, so a row in which neither reads as a number is kept with
    amount 0. *)
Theorem C6_amounts_resolved_and_nonnegative :
  forall (L : Library) (df : DataFrame) (final : Normalized) (detected : Detected),
    let work := work_of df in
    let r := resolve_roles work in
    abs_exact df ->
    _normalize_statement df = Ok (final, detected) ->
    Forall (fun a => exists q, a = Some q /\ 0 <= q) (n_amount final) /\
    (dual r = false ->
     exists (raw : list (option Q)) (pre : Normalized),
       raw_amount work (amount_col detected) = Ok raw /\
       assemble df = Ok (pre, detected) /\
       List.length raw = List.length (data df) /\
       n_amount final = List.map (option_map Qabs) (List.filter notna raw) /\
       n_date final = select (List.map notna raw) (n_date pre) /\
       n_type final
       = List.map coerce_type (select (List.map notna raw) (n_type pre)) /\
       n_balance final = select (List.map notna raw) (n_balance pre) /\
       n_description final = select (List.map notna raw) (n_description pre)) /\
    (dual r = true ->
     exists dcells ccells,
       getitem AttributeError work (label_of (debit_col r)) = Ok dcells /\
       getitem AttributeError work (label_of (credit_col r)) = Ok ccells /\
       n_amount final
       = List.map Some
           (map2 dual_amount
              (List.map (fun v => Qabs (fillna0 v)) (_to_numeric ccells))
              (List.map (fun v => Qabs (fillna0 v)) (_to_numeric dcells))) /\
       List.length (n_amount final) = List.length (data df)).
Proof.
  intros L df final detected work r _ H. split; [|split].
  - pose proof H as H'.
    apply normalize_inv in H' as (pre & Hpre & ->).
    pose proof (assemble_facts L df pre detected Hpre) as (Hn & _ & _).
    rewrite finish_amount. now apply filter_notna_resolved.
  - intros Hdual. now apply single_branch_rows.
  - intros Hdual.
    destruct (dual_branch_rows L df final detected Hdual H)
      as (dcells & ccells & Hd & Hc & Ha & _ & Hlen & _).
    exists dcells, ccells. auto.
Qed.

Lemma C6_amounts_resolved_and_nonnegative_witness :
  exists final detected,
    _normalize_statement (L := ascii_library)
      {| columns := ["amount"]; data := [["-12.50"]; ["n/a"]; ["3"]] |}
    = Ok (final, detected) /\
    Forall (fun a => exists q, a = Some q /\ 0 <= q) (n_amount final) /\
    exists raw,
      raw_amount {| columns := ["amount"]; data := [["-12.50"]; ["n/a"]; ["3"]] |}
        (amount_col detected) = Ok raw /\
      List.map notna raw = [true; false; true] /\
      n_amount final = List.map (option_map Qabs) (List.filter notna raw).
Proof.
  eexists. eexists.
  assert (H : _normalize_statement (L := ascii_library)
                {| columns := ["amount"]; data := [["-12.50"]; ["n/a"]; ["3"]] |}
              = Ok (finish {| n_date := [None; None; None];
                              n_amount := [Some (Qabs (-(1250 # 100))); None;
                                           Some (Qabs (3 # 1))];
                              n_type := [Some "debit"; Some "credit"; Some "credit"];
                              n_balance := [None; None; None];
                              n_description := [""; ""; ""] |},
                    {| date_col := None; amount_col := Some "amount";
                       debit_col := None; credit_col := None; type_col := None;
                       balance_col := None; description_col := None |}))
    by reflexivity.
  split; [exact H|].
  destruct (C6_amounts_resolved_and_nonnegative ascii_library
              {| columns := ["amount"]; data := [["-12.50"]; ["n/a"]; ["3"]] |} _ _
              ltac:(repeat constructor; intros q [= <-]; vm_compute; discriminate)
              H)
    as (Hnn & Hsingle & _).
  split; [exact Hnn|].
  destruct (Hsingle eq_refl) as (raw & pre & Hraw & _ & _ & Ha & _).
  exists raw. split; [exact Hraw|]. split; [|exact Ha].
  vm_compute in Hraw. injection Hraw as <-. reflexivity.
Defined.

(** A row whose amount cannot be resolved is kept all the same when the
    table has a debit and a credit column: neither cell of the only row
    reads as a number, and the row is a canonical transaction of
    amount 0. *)
Lemma C6_unresolved_row_kept :
  _to_numeric ["pending"] = [None] /\
  _to_numeric ["unknown"] = [None] /\
  exists final detected,
    _normalize_statement (L := ascii_library)
      {| columns := ["Debit"; "Credit"]; data := [["pending"; "unknown"]] |}
    = Ok (final, detected) /\
    List.length (n_amount final) = 1%nat /\
    Forall (fun a => exists q, a = Some q /\ q == 0) (n_amount final).
Proof.
  split; [reflexivity|]. split; [reflexivity|].
  eexists. eexists. split; [reflexivity|]. split; [reflexivity|].
  repeat constructor. eexists. split; [reflexivity|]. vm_compute. reflexivity.
Qed.

(** ** Rounding error *)

Lemma round_half_even_error (q : Q) :
  Qabs (inject_Z (round_half_even q) - q) <= 1 # 2.
Proof.
  unfold round_half_even.
  pose proof (Qfloor_le q) as Hlo. pose proof (Qlt_floor q) as Hhi.
  rewrite inject_Z_plus in Hhi. change (inject_Z 1) with 1 in Hhi.
  apply Qabs_Qle_condition.
  destruct (Qcompare (q - inject_Z (Qfloor q)) (1 # 2)) eqn:E.
  - apply Qeq_alt in E.
    destruct (Z.even (Qfloor q));
      rewrite ?inject_Z_plus; change (inject_Z 1) with 1; split; lra.
  - apply Qlt_alt in E. split; lra.
  - apply Qgt_alt in E. rewrite inject_Z_plus. change (inject_Z 1) with 1.
    split; lra.
Qed.

Lemma Qmake_scale (z : Z) (p : positive) : z # p == inject_Z z * (1 # p).
Proof. unfold Qeq, Qmult, inject_Z. cbn. lia. Qed.

(** Rounding to two decimals moves a value by at most half a cent. *)
Lemma py_round_2_error (q : Q) : Qabs (py_round q 2 - q) <= 1 # 200.
Proof.
  unfold py_round. change (ten_pow 2) with 100%positive.
  pose proof (round_half_even_error (q * inject_Z 100)) as H.
  apply Qabs_Qle_condition in H. apply Qabs_Qle_condition.
  rewrite (Qmake_scale (round_half_even (q * inject_Z 100)) 100).
  generalize dependent (inject_Z (round_half_even (q * inject_Z 100))).
  intros z H. change (inject_Z 100) with (100 # 1) in H.
  split; lra.
Qed.

Lemma round_half_even_comp (x y : Q) :
  x == y -> round_half_even x = round_half_even y.
Proof.
  intros H. unfold round_half_even.
  rewrite (Qfloor_comp x y H).
  assert (Hc : Qcompare (x - inject_Z (Qfloor y)) (1 # 2)
               = Qcompare (y - inject_Z (Qfloor y)) (1 # 2)).
  { apply Qcompare_comp; [now rewrite H | reflexivity]. }
  now rewrite Hc.
Qed.

Lemma py_round_zero (q : Q) (ndigits : nat) : q == 0 -> py_round q ndigits == 0.
Proof.
  intros H. unfold py_round.
  rewrite (round_half_even_comp (q * inject_Z (Z.pos (ten_pow ndigits))) 0).
  - reflexivity.
  - rewrite H. ring.
Qed.

(** ** Credits and debits partition the canonical table *)

Lemma coerce_type_two_valued (t : option string) : credit_or_debit (coerce_type t).
Proof.
  unfold coerce_type, credit_or_debit.
  set (t' := Str.lower _). cbn [existsb].
  destruct (String.eqb t' "credit") eqn:E1; cbn [orb].
  - apply String.eqb_eq in E1. left. now rewrite E1.
  - destruct (String.eqb t' "debit") eqn:E2; cbn [orb].
    + apply String.eqb_eq in E2. right. now rewrite E2.
    + now right.
Qed.

Lemma finish_types (L : Library) (pre : Normalized) :
  Forall credit_or_debit (n_type (finish pre)).
Proof.
  unfold finish. cbn [n_type]. rewrite Forall_map.
  apply Forall_forall. intros t _. apply coerce_type_two_valued.
Qed.

Lemma finish_lengths (L : Library) (pre : Normalized) :
  List.length (n_type pre) = List.length (n_amount pre) ->
  List.length (n_type (finish pre)) = List.length (n_amount (finish pre)).
Proof.
  intros H. unfold finish. cbn [n_type n_amount]. rewrite !length_map.
  now apply select_length_eq.
Qed.

Lemma partition_sum (types : list (option string)) (amounts : list (option Q)) :
  List.length types = List.length amounts ->
  Forall credit_or_debit types ->
  Forall resolved_nonneg amounts ->
  sum_skipna (List.map (option_map Qabs)
                (select (List.map (type_is "credit") types) amounts))
  + sum_skipna (List.map (option_map Qabs)
                  (select (List.map (type_is "debit") types) amounts))
  == sum_skipna amounts.
Proof.
  revert amounts.
  induction types as [|t types IH]; intros [|a amounts] Hlen Ht Ha;
    try discriminate.
  - cbn. reflexivity.
  - injection Hlen as Hlen. inversion Ht as [|? ? Ht1 Ht2]; subst.
    inversion Ha as [|? ? (q & -> & Hq) Ha2]; subst.
    specialize (IH amounts Hlen Ht2 Ha2).
    destruct Ht1 as [-> | ->]; cbn [List.map type_is select sum_skipna option_map];
      cbn [String.eqb Ascii.eqb Bool.eqb andb];
      cbn [List.map sum_skipna option_map];
      rewrite (Qabs_pos q Hq); rewrite <- IH; ring.
Qed.

Lemma sum_if_nil (s : list (option Q)) :
  (if negb (is_nil s) then sum_skipna s else 0) = sum_skipna s.
Proof. now destruct s. Qed.

Lemma df_empty_cases (df : DataFrame) :
  df_empty df = true -> columns df = [] \/ data df = [].
Proof.
  unfold df_empty. destruct (columns df); [now left|].
  destruct (data df); [now right | discriminate].
Qed.

Lemma filter_notna_all_nan (n : nat) :
  List.filter notna (List.map (option_map Qabs) (repeat None n)) = [].
Proof. induction n; [reflexivity | exact IHn]. Qed.

(** A raw table without columns or without rows has no canonical
    transaction. *)
Lemma normalize_empty_raw (L : Library) (df : DataFrame) (final : Normalized)
  (detected : Detected) :
  df_empty df = true ->
  _normalize_statement df = Ok (final, detected) ->
  n_amount final = [].
Proof.
  intros He H. apply normalize_inv in H as (pre & Hpre & ->).
  rewrite finish_amount.
  destruct (df_empty_cases df He) as [Hc | Hd].
  - unfold assemble in Hpre. destruct df as [cols rows]. cbn [columns] in Hc.
    subst cols. unfold work_of in Hpre. cbn [columns data List.map] in Hpre.
    inv_bind Hpre. inv_bind Hpre. destruct v0 as [[amount tx] c].
    inv_bind Hpre. inv_bind Hpre. injection Hpre as <- _. cbn [n_amount].
    cbv in E0. injection E0 as <- _ _.
    change (List.filter notna
              (List.map (option_map Qabs) (repeat None (List.length rows))) = []).
    apply filter_notna_all_nan.
  - apply assemble_facts in Hpre as (_ & Hl & _). rewrite Hd in Hl.
    destruct (n_amount pre); [reflexivity | discriminate].
Qed.

(** In exact arithmetic every canonical transaction is typed "credit" or
    "debit", the credit amounts and the debit amounts add up to the sum of
    all canonical amounts, and the two estimates, which are these two sums
    rounded to two decimals, add up to the total within one cent. *)
Lemma income_plus_expense_exact :
  forall (L : Library) (raw_df : DataFrame) (final : Normalized)
         (detected : Detected),
    _normalize_statement raw_df = Ok (final, detected) ->
    Forall (fun t => t = Some "credit" \/ t = Some "debit") (n_type final) /\
    sum_skipna (amounts_of "credit" final) + sum_skipna (amounts_of "debit" final)
      == sum_skipna (n_amount final) /\
    exists s, analyze_frame raw_df = Ok s /\
      Qabs (monthly_income_estimate s + monthly_expense_estimate s
            - sum_skipna (n_amount final)) <= 1 # 100.
Proof.
  intros L raw_df final detected H.
  pose proof (normalize_inv L raw_df final detected H) as (pre & Hpre & Hfin).
  pose proof (assemble_facts L raw_df pre detected Hpre) as (Hn & Hl1 & Hl2).
  assert (Ht : Forall credit_or_debit (n_type final))
    by (subst final; apply finish_types).
  assert (Ha : Forall resolved_nonneg (n_amount final)).
  { subst final. rewrite finish_amount. now apply filter_notna_resolved. }
  assert (Hlen : List.length (n_type final) = List.length (n_amount final)).
  { subst final. apply finish_lengths. congruence. }
  pose proof (partition_sum (n_type final) (n_amount final) Hlen Ht Ha) as Hsum.
  split; [exact Ht|]. split; [exact Hsum|].
  unfold analyze_frame. destruct (df_empty raw_df) eqn:He.
  - exists zero_summary. split; [reflexivity|].
    rewrite (normalize_empty_raw L raw_df final detected He H). cbn. discriminate.
  - rewrite H. cbn [bind]. destruct (is_nil (n_amount final)) eqn:En.
    + exists zero_summary. split; [reflexivity|].
      destruct (n_amount final); [|discriminate]. cbn. discriminate.
    + eexists. split; [reflexivity|].
      cbn [summarize monthly_income_estimate monthly_expense_estimate].
      rewrite !sum_if_nil.
      fold (amounts_of "credit" final) in Hsum.
      fold (amounts_of "debit" final) in Hsum.
      pose proof (py_round_2_error (sum_skipna (amounts_of "credit" final))) as H1.
      pose proof (py_round_2_error (sum_skipna (amounts_of "debit" final))) as H2.
      apply Qabs_Qle_condition in H1, H2. apply Qabs_Qle_condition.
      rewrite <- Hsum. split; lra.
Qed.

(** C9 (defect). On the upload with the headers Date and Amount and ten
    rows of amount 999999999999999999 every row is a canonical credit and
    the amounts are held as 64-bit integers; their 64-bit sum, which the
    income estimate is made of, is -8446744073709551626, while the
    canonical amounts add up to 9999999999999999990. *)
Theorem C9_integer_credits_wrap :
  Csv.in_dialect large_credits_csv = true /\
  Csv.read large_credits_csv = ReturnedFrame large_credits_table /\
  exists final detected,
    _normalize_statement (L := ascii_library) large_credits_table
    = Ok (final, detected) /\
    n_type final = repeat (Some "credit") 10 /\
    amounts_of "credit" final = n_amount final /\
    as_int64 (amounts_of "credit" final)
    = Some (repeat 999999999999999999%Z 10) /\
    int64_sum (repeat 999999999999999999%Z 10) = (-8446744073709551626)%Z /\
    sum_skipna (n_amount final) == inject_Z 9999999999999999990.
Proof.
  split; [vm_compute; reflexivity|]. split; [vm_compute; reflexivity|].
  exists (@Build_Normalized ascii_library
            (repeat (Some "2026-02-01") 10)
            (repeat (Some (inject_Z 999999999999999999)) 10)
            (repeat (Some "credit") 10)
            (repeat None 10)
            (repeat "" 10)),
         {| date_col := Some "Date"; amount_col := Some "Amount";
            debit_col := None; credit_col := None; type_col := None;
            balance_col := None; description_col := None |}.
  split; [reflexivity|].
  repeat split; vm_compute; reflexivity.
Qed.

(** ** Rule 4: classification by the sign of the raw amount *)


Lemma coerce_sign_type (a : option Q) :
  coerce_type (Some (sign_type a)) = Some (sign_type a).
Proof. unfold sign_type. now destruct (nan_lt a 0). Qed.

Lemma sign_type_spec (q : Q) :
  (q < 0 -> sign_type (Some q) = "debit") /\
  (0 <= q -> sign_type (Some q) = "credit").
Proof.
  unfold sign_type, nan_lt. split; intros H.
  - apply Qltb_lt in H. now rewrite H.
  - apply Qltb_ge in H. now rewrite H.
Qed.

(** The canonical table of a raw table that falls under rule 4. *)
Lemma rule4_table (L : Library) (df : DataFrame) (final : Normalized)
  (detected : Detected) :
  dual (resolve_roles (work_of df)) = false ->
  type_col (resolve_roles (work_of df)) = None ->
  description_col (resolve_roles (work_of df)) = None ->
  _normalize_statement df = Ok (final, detected) ->
  exists amount,
    single_raw_amount (work_of df) (resolve_roles (work_of df)) = Ok amount /\
    n_amount final = List.map (option_map Qabs) (List.filter notna amount) /\
    n_type final = List.map (fun a => Some (sign_type a)) (List.filter notna amount) /\
    description_col detected = None.
Proof.
  intros Hdual Htype Hdesc H.
  apply normalize_inv in H as (pre & Hpre & ->).
  unfold assemble in Hpre. bind_inv Hpre as date Hdate.
  bind_inv Hpre as at' Hat. destruct at' as [[amount' tx] c].
  bind_inv Hpre as bal Hbal. bind_inv Hpre as desc Hdsc.
  injection Hpre as <- <-.
  unfold amount_and_type in Hat. rewrite Hdual in Hat.
  bind_inv Hat as col Hcol. bind_inv Hat as amount Hamount.
  bind_inv Hat as tx' Htx. injection Hat as <- <- <-.
  unfold single_type in Htx. rewrite Htype, Hdesc in Htx. cbn [Str.truthy] in Htx.
  injection Htx as <-.
  exists amount. split; [|split; [|split]].
  - unfold single_raw_amount. rewrite Hcol. exact Hamount.
  - unfold finish. cbn [n_amount]. rewrite notna_abs, select_map, map_map.
    apply map_ext_in. intros [q|] Hin; [reflexivity|].
    apply filter_In in Hin as [_ Hin]. discriminate.
  - unfold finish. cbn [n_amount n_type].
    rewrite notna_abs, !map_map, select_map, map_map.
    apply map_ext. intros a. apply coerce_sign_type.
  - cbn [description_col]. exact Hdesc.
Qed.

(** C4. When no debit/credit pair, no type column and no description
    column resolve, every canonical transaction comes from a row whose raw
    amount is a number [q]; its amount is [|q|] and its type is "debit"
    when [q < 0] and "credit" when [0 <= q]. *)
Theorem C4_type_from_sign_of_raw_amount :
  forall (L : Library) (df : DataFrame) (final : Normalized) (detected : Detected),
    dual (resolve_roles (work_of df)) = false ->
    type_col (resolve_roles (work_of df)) = None ->
    description_col (resolve_roles (work_of df)) = None ->
    _normalize_statement df = Ok (final, detected) ->
    exists amount : list (option Q),
      single_raw_amount (work_of df) (resolve_roles (work_of df)) = Ok amount /\
      Forall2 (fun raw row =>
                 exists q, raw = Some q /\ fst row = Some (Qabs q) /\
                   (q < 0 -> snd row = Some "debit") /\
                   (0 <= q -> snd row = Some "credit"))
              (List.filter notna amount)
              (List.combine (n_amount final) (n_type final)).
Proof.
  intros L df final detected Hdual Htype Hdesc H.
  destruct (rule4_table L df final detected Hdual Htype Hdesc H)
    as (amount & Hraw & -> & -> & _).
  exists amount. split; [exact Hraw|].
  assert (Hres : Forall (fun a => notna a = true) (List.filter notna amount)).
  { apply Forall_forall. intros a Ha. now apply filter_In in Ha. }
  induction Hres as [|[q|] rest Hq _ IH]; cbn [List.map List.combine];
    constructor; try discriminate; [|exact IH].
  exists q. cbn [fst snd option_map].
  destruct (sign_type_spec q) as [Hneg Hpos].
  repeat split; [intros Hlt; now rewrite Hneg | intros Hge; now rewrite Hpos].
Qed.

Lemma C4_type_from_sign_of_raw_amount_witness :
  exists final detected amount,
    _normalize_statement (L := ascii_library)
      {| columns := ["value"]; data := [["-40"]; ["15"]; ["?"]] |}
    = Ok (final, detected) /\
    amount = [Some (-(40 # 1)); Some (15 # 1); None] /\
    Forall2 (fun raw row =>
               exists q, raw = Some q /\ fst row = Some (Qabs q) /\
                 (q < 0 -> snd row = Some "debit") /\
                 (0 <= q -> snd row = Some "credit"))
            (List.filter notna amount)
            (List.combine (n_amount final) (n_type final)).
Proof.
  assert (H : _normalize_statement (L := ascii_library)
                {| columns := ["value"]; data := [["-40"]; ["15"]; ["?"]] |}
              = Ok (finish {| n_date := [None; None; None];
                              n_amount := [Some (40 # 1); Some (15 # 1); None];
                              n_type := [Some "debit"; Some "credit"; Some "credit"];
                              n_balance := [None; None; None];
                              n_description := [""; ""; ""] |},
                    {| date_col := None; amount_col := Some "value";
                       debit_col := None; credit_col := None; type_col := None;
                       balance_col := None; description_col := None |}))
    by reflexivity.
  destruct (C4_type_from_sign_of_raw_amount ascii_library
              {| columns := ["value"]; data := [["-40"]; ["15"]; ["?"]] |}
              _ _ eq_refl eq_refl eq_refl H)
    as (amount & Hraw & Hrows).
  eexists. eexists. exists amount. split; [exact H|].
  split; [|exact Hrows].
  vm_compute in Hraw. now injection Hraw as <-.
Defined.

(** ** A single ambiguous numeric column *)

Lemma round_comp (x y : Q) (ndigits : nat) :
  x == y -> py_round x ndigits = py_round y ndigits.
Proof.
  intros H. unfold py_round. f_equal. apply round_half_even_comp. now rewrite H.
Qed.

Lemma sum_skipna_ext (f g : Q -> Q) (s : list (option Q)) :
  Forall (fun a => match a with Some q => f q == g q | None => True end) s ->
  sum_skipna (List.map (option_map f) s) == sum_skipna (List.map (option_map g) s).
Proof.
  induction 1 as [|[q|] s Hq _ IH]; cbn [List.map option_map sum_skipna].
  - reflexivity.
  - now rewrite Hq, IH.
  - exact IH.
Qed.

Lemma type_is_sign_credit (a : option Q) :
  type_is "credit" (Some (sign_type a)) = negb (nan_lt a 0).
Proof. unfold sign_type. now destruct (nan_lt a 0). Qed.

Lemma type_is_sign_debit (a : option Q) :
  type_is "debit" (Some (sign_type a)) = nan_lt a 0.
Proof. unfold sign_type. now destruct (nan_lt a 0). Qed.

Lemma amounts_of_rule4 (L : Library) (t : string) (final : Normalized)
  (F : list (option Q)) :
  n_amount final = List.map (option_map Qabs) F ->
  n_type final = List.map (fun a => Some (sign_type a)) F ->
  amounts_of t final
  = List.map (option_map (fun q => Qabs (Qabs q)))
      (List.filter (fun a => type_is t (Some (sign_type a))) F).
Proof.
  intros Ha Ht. unfold amounts_of. rewrite Ha, Ht, map_map, select_map, map_map.
  apply map_ext. now intros [q|].
Qed.

(** Under rule 4 the income is the sum of the non-negative raw values and
    the expenses are the sum of the magnitudes of the negative ones. *)
Lemma rule4_sums (L : Library) (final : Normalized) (detected : Detected)
  (amount : list (option Q)) :
  n_amount final = List.map (option_map Qabs) (List.filter notna amount) ->
  n_type final = List.map (fun a => Some (sign_type a)) (List.filter notna amount) ->
  monthly_income_estimate (summarize final detected)
    = py_round (sum_skipna (credit_values amount)) 2 /\
  monthly_expense_estimate (summarize final detected)
    = py_round (sum_skipna (List.map (option_map Qabs) (debit_values amount))) 2.
Proof.
  intros Ha Ht.
  cbn [summarize monthly_income_estimate monthly_expense_estimate].
  rewrite !sum_if_nil.
  rewrite (amounts_of_rule4 L "credit" final _ Ha Ht).
  rewrite (amounts_of_rule4 L "debit" final _ Ha Ht).
  split; apply round_comp.
  - rewrite (filter_ext _ _ type_is_sign_credit). fold (credit_values amount).
    rewrite <- (map_id (credit_values amount)) at 2.
    rewrite <- (map_ext (option_map (fun q => q)) (fun a => a))
      by (now intros [q|]).
    apply sum_skipna_ext. apply Forall_forall. intros [q|] Hin; [|exact I].
    apply filter_In in Hin as [_ Hin]. apply negb_true_iff in Hin.
    apply Qltb_ge in Hin. now rewrite !Qabs_pos by (try apply Qabs_nonneg; exact Hin).
  - rewrite (filter_ext _ _ type_is_sign_debit). fold (debit_values amount).
    apply sum_skipna_ext. apply Forall_forall. intros [q|] _; [|exact I].
    apply Qabs_pos, Qabs_nonneg.
Qed.

Lemma ratio_nonneg (k n : nat) : Qltb (-1) (ratio k n) = true.
Proof. apply Qltb_lt. unfold ratio, Qlt. cbn. lia. Qed.

Lemma ratio_positive (k n : nat) : 3 # 10 <= ratio k n -> (1 <= k)%nat.
Proof. unfold ratio, Qle. cbn. lia. Qed.

Lemma count_notna_filter {A : Type} (s : list (option A)) :
  (1 <= count_notna s)%nat -> List.filter notna s <> [].
Proof. unfold count_notna. destruct (List.filter notna s); cbn; [lia | discriminate]. Qed.

(** The canonical table of a one-column table whose header resolves no
    role and whose column is numeric in at least 30% of its rows. *)
Lemma single_column_table (L : Library) (h : string) (rows : list (list string)) :
  let df := {| columns := [h]; data := rows |} in
  let values := _to_numeric (column_at 0 df) in
  resolve_roles (work_of df) = no_roles ->
  Str.strip h <> "" ->
  rows <> [] ->
  3 # 10 <= ratio (count_notna values) (List.length values) ->
  exists final detected,
    _normalize_statement df = Ok (final, detected) /\
    n_amount final = List.map (option_map Qabs) (List.filter notna values) /\
    n_type final = List.map (fun a => Some (sign_type a)) (List.filter notna values).
Proof.
  intros df values Hroles Hh Hrows Hratio.
  assert (Hget : forall e, getitem e (work_of df) (Str.strip h)
                           = Ok (column_at 0 df)).
  { intros e. unfold getitem, work_of, df. cbn [columns List.map positions].
    now rewrite String.eqb_refl. }
  assert (Hne : Str.nonempty (Str.strip h) = true)
    by (destruct (Str.strip h); [contradiction | reflexivity]).
  assert (Hraw : single_raw_amount (work_of df) (resolve_roles (work_of df))
                 = Ok values).
  { unfold single_raw_amount, resolve_amount_col. rewrite Hroles.
    cbn [amount_col no_roles balance_col date_col truthy_labels flat_map app].
    unfold _best_numeric_column.
    change (columns (work_of df)) with [Str.strip h].
    cbn [best_scan existsb]. rewrite Hget. cbn [bind].
    fold values. unfold notna_mean.
    destruct values as [|v0 vs] eqn:Ev.
    { unfold values, _to_numeric, column_at in Ev. cbn [data df] in Ev.
      destruct rows; [contradiction | discriminate]. }
    cbn [nan_gt]. rewrite ratio_nonneg. cbn [bind fillna0].
    apply Qltb_ge in Hratio. rewrite Hratio.
    unfold raw_amount. cbn [bind Str.truthy label_of]. rewrite Hne, Hget.
    cbn [bind]. fold values. now rewrite Ev. }
  unfold single_raw_amount in Hraw.
  destruct (resolve_amount_col (work_of df) (resolve_roles (work_of df)))
    as [col|e] eqn:Hcol; [|discriminate]. cbn [bind] in Hraw.
  assert (Hnorm : exists final detected, _normalize_statement df = Ok (final, detected)).
  { unfold _normalize_statement, assemble. fold df.
    unfold date_column, amount_and_type, balance_column, description_column,
      single_type.
    rewrite Hcol. cbn [bind]. rewrite Hraw. rewrite Hroles.
    cbn [date_col type_col description_col balance_col debit_col credit_col
         no_roles dual Str.truthy andb bind].
    eauto. }
  destruct Hnorm as (final & detected & Hnorm).
  exists final, detected. split; [exact Hnorm|].
  destruct (rule4_table L df final detected) as (amount & Hraw' & Ha & Ht & _);
    try (rewrite Hroles; reflexivity); try exact Hnorm.
  unfold single_raw_amount in Hraw'. rewrite Hcol in Hraw'. cbn [bind] in Hraw'.
  rewrite Hraw in Hraw'. injection Hraw' as <-. auto.
Qed.

(** C3 (amended). For every raw table that is not empty and resolves no
    debit and credit pair, no type column and no description column, each
    row whose amount reads as a number is classified by the sign of that
    raw amount: "debit" when it is negative, "credit" otherwise.  In exact
    arithmetic the monthly income is then the sum of the non-negative raw
    amounts and the monthly expenses are the sum of the absolute values of
    the negative ones, each rounded to two decimals. *)
Theorem C3_rows_classified_by_sign :
  forall (L : Library) (df : DataFrame) (s : Summary),
    let r := resolve_roles (work_of df) in
    df_empty df = false ->
    dual r = false ->
    type_col r = None ->
    description_col r = None ->
    analyze_frame df = Ok s ->
    exists (final : Normalized) (detected : Detected) (values : list (option Q)),
      _normalize_statement df = Ok (final, detected) /\
      single_raw_amount (work_of df) r = Ok values /\
      n_type final
      = List.map (fun a => Some (sign_type a)) (List.filter notna values) /\
      monthly_income_estimate s
      == py_round (sum_skipna (credit_values values)) 2 /\
      monthly_expense_estimate s
      == py_round (sum_skipna (List.map (option_map Qabs) (debit_values values))) 2.
Proof.
  intros L df s r He Hdual Htype Hdesc H.
  unfold analyze_frame in H. rewrite He in H.
  bind_inv H as v Hnorm. destruct v as [final detected].
  destruct (rule4_table L df final detected Hdual Htype Hdesc Hnorm)
    as (values & Hraw & Ha & Ht & _).
  exists final, detected, values.
  split; [exact Hnorm|]. split; [exact Hraw|]. split; [exact Ht|].
  destruct (is_nil (n_amount final)) eqn:Hnil; injection H as <-.
  - assert (Hnone : List.filter notna values = []).
    { rewrite Ha in Hnil. destruct (List.filter notna values);
        [reflexivity | discriminate]. }
    unfold credit_values, debit_values. rewrite Hnone.
    cbn [List.filter List.map sum_skipna monthly_income_estimate
         monthly_expense_estimate zero_summary].
    split; vm_compute; reflexivity.
  - destruct (rule4_sums L final detected values Ha Ht) as [-> ->].
    split; reflexivity.
Qed.

Lemma C3_rows_classified_by_sign_witness :
  exists s final detected,
    analyze_frame (L := ascii_library)
      {| columns := ["Date"; "value"];
         data := [["2026-02-01"; "100"]; ["2026-02-02"; "-30.5"];
                  ["2026-02-03"; "250"]] |} = Ok s /\
    _normalize_statement (L := ascii_library)
      {| columns := ["Date"; "value"];
         data := [["2026-02-01"; "100"]; ["2026-02-02"; "-30.5"];
                  ["2026-02-03"; "250"]] |} = Ok (final, detected) /\
    n_type final = [Some "credit"; Some "debit"; Some "credit"] /\
    monthly_income_estimate s == 350 /\
    monthly_expense_estimate s == 30.5.
Proof.
  assert (Hs : exists s,
             analyze_frame (L := ascii_library)
               {| columns := ["Date"; "value"];
                  data := [["2026-02-01"; "100"]; ["2026-02-02"; "-30.5"];
                           ["2026-02-03"; "250"]] |} = Ok s)
    by (eexists; vm_compute; reflexivity).
  destruct Hs as [s Hs].
  destruct (C3_rows_classified_by_sign ascii_library
              {| columns := ["Date"; "value"];
                 data := [["2026-02-01"; "100"]; ["2026-02-02"; "-30.5"];
                          ["2026-02-03"; "250"]] |} s
              eq_refl eq_refl eq_refl eq_refl Hs)
    as (final & detected & values & Hnorm & Hraw & Ht & Hi & Hx).
  exists s, final, detected. split; [exact Hs|]. split; [exact Hnorm|].
  vm_compute in Hraw. injection Hraw as <-.
  split; [exact Ht|]. rewrite Hi, Hx. split; vm_compute; reflexivity.
Defined.

(** The specification's reading of the scenario (every row a debit, the
    expenses the sum of the values, no income) fails on the one-column
    table with the values 100 and 250: both rows are credits. *)
Lemma C3_all_rows_debit_refuted :
  resolve_roles (work_of single_column) = no_roles /\
  exists s, analyze_frame (L := ascii_library) single_column = Ok s /\
    monthly_income_estimate s == 350 /\
    monthly_expense_estimate s == 0 /\
    ~ monthly_income_estimate s == 0 /\
    ~ monthly_expense_estimate s == 350.
Proof.
  split; [reflexivity|].
  eexists. split; [reflexivity|].
  repeat split; vm_compute; discriminate.
Qed.

(** ** When the normaliser cannot raise *)

Section NoRaise.
Context {L : Library}.
Variable work : DataFrame.
Hypothesis labels_distinct : NoDup (columns work).
Hypothesis dates_parse : dates_accepted work.

Let r : Detected := resolve_roles work.

Lemma getitem_role (e : Exn) (o : option string) :
  names_column work o -> Str.truthy o = true ->
  exists s, getitem e work (label_of o) = Ok s.
Proof.
  intros Hn Ht. apply getitem_ok; [exact labels_distinct|].
  apply Hn. now apply truthy_label.
Qed.

Lemma roles_name_columns :
  names_column work (date_col r) /\ names_column work (balance_col r) /\
  names_column work (type_col r) /\ names_column work (description_col r) /\
  names_column work (debit_col r) /\ names_column work (credit_col r) /\
  names_column work (amount_col r).
Proof.
  repeat split; intros c Hc; eapply find_column_in; exact Hc.
Qed.

Lemma date_column_ok : exists d, date_column work r = Ok d.
Proof.
  unfold date_column. destruct (Str.truthy (date_col r)) eqn:Ht; [|eauto].
  destruct (getitem_role ValueError (date_col r)) as [s Hs];
    [apply roles_name_columns | exact Ht |].
  rewrite Hs. cbn [bind]. unfold parse_dates.
  destruct (to_datetime true s) as [parsed|] eqn:E1;
    [|now apply dates_parse in E1].
  cbn [bind]. destruct (nan_lt _ _); [|eauto].
  destruct (to_datetime false s) as [parsed'|] eqn:E2; [eauto|].
  now apply dates_parse in E2.
Qed.

Lemma best_scan_ok (excluded cols : list string) (best : option string)
  (score : Q) :
  incl cols (columns work) -> names_column work best ->
  exists b s, best_scan work excluded cols best score = Ok (b, s)
              /\ names_column work b.
Proof.
  revert best score.
  induction cols as [|col rest IH]; intros best score Hincl Hbest.
  - cbn [best_scan]. eauto.
  - cbn [best_scan].
    assert (Hrest : incl rest (columns work))
      by (intros c Hc; apply Hincl; now right).
    destruct (existsb (String.eqb col) excluded); [now apply IH|].
    destruct (getitem_ok AttributeError work col labels_distinct) as [s ->];
      [apply Hincl; now left|].
    cbn [bind]. destruct (nan_gt _ _); apply IH; auto.
    intros c [= <-]. apply Hincl. now left.
Qed.

Lemma resolve_amount_col_ok :
  exists c, resolve_amount_col work r = Ok c /\ names_column work c.
Proof.
  unfold resolve_amount_col. destruct (amount_col r) as [c|] eqn:E.
  - exists (Some c). split; [reflexivity|]. rewrite <- E.
    apply roles_name_columns.
  - unfold _best_numeric_column.
    destruct (best_scan_ok (truthy_labels [balance_col r; date_col r])
                (columns work) None (-1)) as (b & s & -> & Hb).
    + apply incl_refl.
    + intros c Hc. discriminate.
    + cbn [bind]. destruct (Qltb s (3 # 10)); eexists; split; eauto.
      intros c Hc. discriminate.
Qed.

Lemma raw_amount_ok (c : option string) :
  names_column work c -> exists amount, raw_amount work c = Ok amount.
Proof.
  intros Hc. unfold raw_amount. destruct (Str.truthy c) eqn:Ht; [|eauto].
  destruct (getitem_role AttributeError c Hc Ht) as [s ->]. cbn [bind]. eauto.
Qed.

Lemma single_type_ok (amount : list (option Q)) :
  exists tx, single_type work r amount = Ok tx.
Proof.
  unfold single_type. destruct (Str.truthy (type_col r)) eqn:Ht.
  - destruct (getitem_role AttributeError (type_col r)) as [s ->];
      [apply roles_name_columns | exact Ht |]. cbn [bind]. eauto.
  - destruct (Str.truthy (description_col r)) eqn:Hd; [|eauto].
    destruct (getitem_role AttributeError (description_col r)) as [s ->];
      [apply roles_name_columns | exact Hd |]. cbn [bind]. eauto.
Qed.

Lemma amount_and_type_ok : exists v, amount_and_type work r = Ok v.
Proof.
  unfold amount_and_type. destruct (dual r) eqn:Hdual.
  - unfold dual in Hdual. apply andb_true_iff in Hdual as [Hd Hc].
    destruct (getitem_role AttributeError (debit_col r)) as [s1 ->];
      [apply roles_name_columns | exact Hd |].
    destruct (getitem_role AttributeError (credit_col r)) as [s2 ->];
      [apply roles_name_columns | exact Hc |].
    cbn [bind]. eauto.
  - destruct resolve_amount_col_ok as (c & -> & Hc). cbn [bind].
    destruct (raw_amount_ok c Hc) as [amount ->]. cbn [bind].
    destruct (single_type_ok amount) as [tx ->]. cbn [bind]. eauto.
Qed.

Lemma balance_column_ok : exists b, balance_column work r = Ok b.
Proof.
  unfold balance_column. destruct (Str.truthy (balance_col r)) eqn:Ht; [|eauto].
  destruct (getitem_role AttributeError (balance_col r)) as [s ->];
    [apply roles_name_columns | exact Ht |]. cbn [bind]. eauto.
Qed.

Lemma description_column_ok : exists d, description_column work r = Ok d.
Proof.
  unfold description_column.
  destruct (Str.truthy (description_col r)) eqn:Ht; [|eauto].
  destruct (getitem_role AttributeError (description_col r)) as [s ->];
    [apply roles_name_columns | exact Ht |]. cbn [bind]. eauto.
Qed.

End NoRaise.

(** The normaliser returns a table whenever the stripped labels of the raw
    table are pairwise distinct and the date parser returns on the date
    column. *)
Lemma normalize_ok (L : Library) (df : DataFrame) :
  NoDup (List.map Str.strip (columns df)) ->
  dates_accepted (work_of df) ->
  exists final detected, _normalize_statement df = Ok (final, detected).
Proof.
  intros Hnd Hdates. unfold _normalize_statement, assemble.
  assert (Hw : NoDup (columns (work_of df))) by exact Hnd.
  destruct (date_column_ok (work_of df) Hw Hdates) as [d ->]. cbn [bind].
  destruct (amount_and_type_ok (work_of df) Hw) as [[[amount tx] c] ->].
  cbn [bind].
  destruct (balance_column_ok (work_of df) Hw) as [b ->]. cbn [bind].
  destruct (description_column_ok (work_of df) Hw) as [ds ->]. cbn [bind].
  eauto.
Qed.

Lemma analyze_frame_ok (L : Library) (df : DataFrame) :
  NoDup (List.map Str.strip (columns df)) ->
  dates_accepted (work_of df) ->
  exists s, analyze_frame df = Ok s.
Proof.
  intros Hnd Hdates. unfold analyze_frame. destruct (df_empty df); [eauto|].
  destruct (normalize_ok L df Hnd Hdates) as (final & detected & ->). cbn [bind].
  destruct (is_nil (n_amount final)); eauto.
Qed.

Lemma distinct_NoDup (l : list string) : Csv.distinct l = true -> NoDup l.
Proof.
  induction l as [|x rest IH]; cbn [Csv.distinct]; [constructor|].
  intros H. apply andb_true_iff in H as [Hx Hrest]. constructor; [|auto].
  intros Hin. apply negb_true_iff in Hx.
  assert (He : existsb (String.eqb x) rest = true).
  { apply existsb_exists. exists x. split; [exact Hin | apply String.eqb_refl]. }
  congruence.
Qed.

(** The tables built by the text extractor never have colliding labels:
    a collision can only come from a structured reader. *)
Lemma text_table_labels_distinct (L : Library) (text : string) :
  NoDup (List.map Str.strip (columns (Extract._extract_text_transactions text))).
Proof.
  unfold Extract._extract_text_transactions.
  destruct (Extract.rows_of_lines (Extract.splitlines text)).
  - constructor.
  - apply distinct_NoDup. reflexivity.
Qed.

(** C1 (defect). The analysis raises to its caller on two well-formed
    uploads.  On the CSV whose header fields "Amount" and " Amount"
    collide once stripped, [work["Amount"]] is a frame and [_to_numeric]
    fails on it with an [AttributeError].  On the CSV with the distinct
    headers "Date" and "Amount" whose two timestamps carry different UTC
    offsets, the unguarded date parser raises a [ValueError]. *)
Theorem C1_analysis_raises :
  (Csv.in_dialect colliding_csv = true /\
   Csv.read colliding_csv
   = ReturnedFrame {| columns := ["Amount"; " Amount"]; data := [["1"; "2"]] |} /\
   analyze_bank_statement (L := ascii_library) colliding_csv None
   = Raise AttributeError) /\
  (Csv.in_dialect mixed_offsets_csv = true /\
   Csv.read mixed_offsets_csv
   = ReturnedFrame
       {| columns := ["Date"; "Amount"];
          data := [["2026-02-01T10:00:00+05:30"; "100"];
                   ["2026-02-02T10:00:00+01:00"; "250"]] |} /\
   analyze_bank_statement (L := offsets_library) mixed_offsets_csv None
   = Raise ValueError).
Proof. repeat split; vm_compute; reflexivity. Qed.

(** ** Documents without digits *)

Lemma forallb_filter (p q : ascii -> bool) (s : string) :
  Str.forallb p s = true -> Str.forallb p (Str.filter q s) = true.
Proof.
  induction s as [|c r IH]; [reflexivity|]. cbn [Str.forallb Str.filter].
  intros H. apply andb_true_iff in H as [Hc Hr].
  destruct (q c); cbn [Str.forallb]; [rewrite Hc|]; auto.
Qed.

Lemma forallb_lstrip (p : ascii -> bool) (s : string) :
  Str.forallb p s = true -> Str.forallb p (Str.lstrip s) = true.
Proof.
  induction s as [|c r IH]; [reflexivity|]. cbn [Str.lstrip]. intros H.
  destruct (Str.is_space c); [|exact H].
  cbn [Str.forallb] in H. apply andb_true_iff in H as [_ Hr]. auto.
Qed.

Lemma forallb_rstrip (p : ascii -> bool) (s : string) :
  Str.forallb p s = true -> Str.forallb p (Str.rstrip s) = true.
Proof.
  induction s as [|c r IH]; [reflexivity|]. cbn [Str.forallb Str.rstrip].
  intros H. apply andb_true_iff in H as [Hc Hr]. specialize (IH Hr).
  destruct (Str.rstrip r) as [|c' r'].
  - destruct (Str.is_space c); cbn [Str.forallb]; [reflexivity | now rewrite Hc].
  - change (Str.forallb p (String c (String c' r')))
      with (p c && Str.forallb p (String c' r')). now rewrite Hc, IH.
Qed.

Lemma forallb_strip (p : ascii -> bool) (s : string) :
  Str.forallb p s = true -> Str.forallb p (Str.strip s) = true.
Proof. intros H. unfold Str.strip. now apply forallb_rstrip, forallb_lstrip. Qed.

Lemma read_digits_stops (c : ascii) (r : string) (acc : Z) (n : nat) :
  Str.is_digit c = false -> read_digits (String c r) acc n = (acc, n, String c r).
Proof. intros H. cbn [read_digits]. now rewrite H. Qed.

Lemma digit_free_cons (c : ascii) (r : string) :
  digit_free (String c r) = true -> Str.is_digit c = false /\ digit_free r = true.
Proof.
  unfold digit_free. cbn [Str.forallb]. intros H.
  apply andb_true_iff in H as [Hc Hr]. split; [|exact Hr].
  now apply negb_true_iff.
Qed.

Lemma parse_unsigned_digit_free (s : string) :
  digit_free s = true -> parse_unsigned s = None.
Proof.
  intros H. unfold parse_unsigned. destruct s as [|c r]; [reflexivity|].
  apply digit_free_cons in H as [Hc Hr]. rewrite read_digits_stops by exact Hc.
  destruct (Ascii.eqb c "."%char); [|reflexivity].
  destruct r as [|c' r']; [reflexivity|].
  apply digit_free_cons in Hr as [Hc' _].
  now rewrite read_digits_stops by exact Hc'.
Qed.

Lemma parse_number_digit_free (s : string) :
  digit_free s = true -> parse_number s = None.
Proof.
  intros H. unfold parse_number. destruct s as [|c r]; [reflexivity|].
  destruct (Ascii.eqb c "-"%char).
  - apply digit_free_cons in H as [_ Hr].
    now rewrite parse_unsigned_digit_free.
  - now apply parse_unsigned_digit_free.
Qed.

(** A cell without digits is not a number. *)
Lemma to_numeric_cell_digit_free (cell : string) :
  digit_free cell = true -> to_numeric_cell cell = None.
Proof.
  intros H. unfold to_numeric_cell.
  destruct (blank_to_nan (clean_numeric cell)) as [s|] eqn:E; [|reflexivity].
  unfold blank_to_nan in E. destruct (existsb _ _); [discriminate|].
  injection E as <-. apply parse_number_digit_free.
  unfold clean_numeric, digit_free. now apply forallb_filter, forallb_filter.
Qed.

Lemma to_numeric_digit_free (cells : list string) :
  Forall (fun cell => digit_free cell = true) cells ->
  _to_numeric cells = List.map (fun _ => None) cells.
Proof.
  intros H. unfold _to_numeric. apply map_ext_in. intros cell Hin.
  apply to_numeric_cell_digit_free. rewrite Forall_forall in H. auto.
Qed.

Lemma getitem_digit_free (e : Exn) (df : DataFrame) (col : string)
  (cells : list string) :
  table_digit_free df -> getitem e df col = Ok cells ->
  Forall (fun cell => digit_free cell = true) cells.
Proof.
  intros Hdf. unfold getitem.
  destruct (positions col (columns df) 0) as [|j [|k rest]]; try discriminate.
  intros [= <-]. unfold column_at. rewrite Forall_map.
  eapply Forall_impl; [|exact Hdf]. intros row Hrow. cbn beta.
  destruct (nth_in_or_default j row "nan") as [Hin | ->]; [|reflexivity].
  rewrite Forall_forall in Hrow. auto.
Qed.

(** *** The text extractor finds nothing *)

Lemma findall_digit_free (s : string) (st : Extract.Scan) (tok : string) :
  digit_free s = true ->
  st = Extract.Idle \/ st = Extract.Signed ->
  Extract.findall s st tok = [].
Proof.
  revert st tok. induction s as [|c r IH]; intros st tok H Hst.
  - destruct Hst as [-> | ->]; reflexivity.
  - apply digit_free_cons in H as [Hc Hr].
    assert (Hstart : forall st' tok', Extract.start c = (st', tok') ->
                       st' = Extract.Idle \/ st' = Extract.Signed).
    { unfold Extract.start. rewrite Hc. intros st' tok'.
      destruct (Extract.is_sign c); intros [= <- _]; auto. }
    destruct Hst as [-> | ->]; cbn [Extract.findall]; rewrite ?Hc;
      destruct (Extract.start c) as [st' tok'] eqn:E;
      apply IH; eauto.
Qed.

Lemma splitlines_forallb (p : ascii -> bool) (s : string) :
  Str.forallb p s = true ->
  Forall (fun l => Str.forallb p l = true) (Extract.splitlines s).
Proof.
  induction s as [|c r IH]; [constructor|].
  cbn [Str.forallb Extract.splitlines]. intros H.
  apply andb_true_iff in H as [Hc Hr]. specialize (IH Hr).
  destruct (Extract.is_linebreak c).
  - destruct (Extract.is_cr c && Extract.head_is Extract.is_lf r).
    + inversion IH; subst; constructor; auto.
    + constructor; auto.
  - inversion IH; subst; constructor; auto; cbn [Str.forallb]; now rewrite Hc.
Qed.

Lemma row_of_line_digit_free (L : Library) (line : string) :
  digit_free line = true -> Extract.row_of_line line = None.
Proof.
  intros H. unfold Extract.row_of_line. cbv zeta.
  destruct (String.length (Str.strip line) <? 5)%nat; [reflexivity|].
  unfold Extract.amount_re_findall.
  rewrite findall_digit_free; [reflexivity | | now left].
  now apply forallb_strip.
Qed.

Lemma extract_digit_free (L : Library) (text : string) :
  digit_free text = true -> Extract._extract_text_transactions text = empty_frame.
Proof.
  intros H. unfold Extract._extract_text_transactions.
  assert (Hrows : Extract.rows_of_lines (Extract.splitlines text) = []).
  { pose proof (splitlines_forallb not_digit text H) as Hl.
    induction Hl as [|l ls Hl _ IH]; [reflexivity|].
    cbn [Extract.rows_of_lines]. now rewrite row_of_line_digit_free. }
  now rewrite Hrows.
Qed.

(** *** The table handed over by the loader has no digit *)

Lemma first_loaded_in (loaders : list (string * Loaded)) (df : DataFrame)
  (name : string) :
  first_loaded loaders = Some (df, name) ->
  In (name, ReturnedFrame df) loaders /\ df_empty df = false.
Proof.
  induction loaders as [|[n outcome] rest IH]; cbn [first_loaded]; [discriminate|].
  destruct outcome as [| |candidate].
  - intros H. destruct (IH H). split; [now right | assumption].
  - intros H. destruct (IH H). split; [now right | assumption].
  - destruct (df_empty candidate) eqn:E.
    + intros H. destruct (IH H). split; [now right | assumption].
    + intros [= <- <-]. split; [now left | exact E].
Qed.

(** The strategy picked by extension calls one of the six readers of the
    fallback chain. *)
Lemma specific_in_fallback (L : Library) (P : Loaded -> Prop)
  (extension : string) (contents : list byte) :
  Forall (fun p => P (snd p)) (fallback_loaders contents) ->
  Forall (fun p => P (snd p)) (specific_loaders extension contents).
Proof.
  intros H. unfold fallback_loaders in H.
  repeat match goal with
         | H : Forall _ (_ :: _) |- _ => inversion H; clear H; subst
         end.
  unfold specific_loaders.
  repeat match goal with
         | |- context [if ?b then _ else _] => destruct b
         end; repeat constructor; assumption.
Qed.

Lemma chain_property (L : Library) (P : Loaded -> Prop)
  (contents : list byte) (filename : option string) :
  Forall (fun p => P (snd p)) (fallback_loaders contents) ->
  Forall (fun p => P (snd p))
    (specific_loaders (extension_of filename) contents ++ fallback_loaders contents).
Proof.
  intros H. apply Forall_app. split; [|exact H].
  now apply specific_in_fallback.
Qed.

Lemma loaded_digit_free (L : Library) (contents : list byte)
  (filename : option string) :
  digit_free (_decode_bytes contents) = true ->
  Forall (fun p => outcome_digit_free (snd p)) (fallback_loaders contents) ->
  table_digit_free (fst (_load_statement_dataframe contents filename)).
Proof.
  intros Htext Hlib. unfold _load_statement_dataframe. cbv zeta.
  pose proof (chain_property L outcome_digit_free contents filename Hlib) as Hall.
  destruct (first_loaded _) as [[df name]|] eqn:E.
  - apply first_loaded_in in E as [Hin _]. rewrite Forall_forall in Hall.
    exact (Hall _ Hin).
  - rewrite extract_digit_free by exact Htext. constructor.
Qed.

(** *** The summary of a table without digits *)

Lemma sum_skipna_zero (s : list (option Q)) :
  Forall zero_or_nan s -> sum_skipna s == 0.
Proof.
  induction 1 as [|[q|] s Hq _ IH]; cbn [sum_skipna]; [reflexivity| |exact IH].
  cbn [zero_or_nan] in Hq. rewrite Hq, IH. reflexivity.
Qed.

Lemma select_all_false {A : Type} (mask : list bool) (s : list A) :
  Forall (fun b => b = false) mask -> select mask s = [].
Proof.
  intros H. revert s. induction H as [|b mask Hb _ IH]; intros s; [reflexivity|].
  destruct s as [|x s]; [reflexivity|]. cbn [select]. now rewrite Hb.
Qed.

Lemma filter_notna_all_none {A : Type} (s : list (option A)) :
  Forall (fun a => a = None) s -> List.filter notna s = [].
Proof.
  induction 1 as [|a s Ha _ IH]; [reflexivity|]. subst a. exact IH.
Qed.

Lemma existsb_notna_all_none {A : Type} (s : list (option A)) :
  Forall (fun a => a = None) s -> existsb notna s = false.
Proof.
  induction 1 as [|a s Ha _ IH]; [reflexivity|]. subst a. exact IH.
Qed.

Lemma Forall_const_map {A B : Type} (b : B) (s : list A) :
  Forall (fun x => x = b) (List.map (fun _ => b) s).
Proof. rewrite Forall_map. apply Forall_forall. reflexivity. Qed.

Lemma Forall_repeat {A : Type} (a : A) (n : nat) :
  Forall (fun x => x = a) (repeat a n).
Proof. induction n; constructor; auto. Qed.

Lemma numeric_column_all_nan (e : Exn) (df : DataFrame) (col : string)
  (cells : list string) :
  table_digit_free df -> getitem e df col = Ok cells ->
  Forall (fun a => a = None) (_to_numeric cells).
Proof.
  intros Hdf Hget.
  rewrite (to_numeric_digit_free cells (getitem_digit_free e df col cells Hdf Hget)).
  apply Forall_const_map.
Qed.

(** What the table before [dropna] looks like when no raw cell holds a
    digit: no balance is resolved; without both a debit and a credit column
    no amount is resolved either; with both, every row is kept with amount
    0 and type "debit". *)
Lemma assemble_digit_free (L : Library) (df : DataFrame) (pre : Normalized)
  (detected : Detected) :
  table_digit_free df ->
  assemble df = Ok (pre, detected) ->
  Forall (fun b => b = None) (n_balance pre) /\
  ((dual (resolve_roles (work_of df)) = false /\
    Forall (fun a => a = None) (n_amount pre))
   \/
   (dual (resolve_roles (work_of df)) = true /\
    Forall (fun a => a = Some (Qabs 0)) (n_amount pre) /\
    Forall (fun t => t = Some "debit") (n_type pre))).
Proof.
  intros Hdf H.
  assert (Hw : table_digit_free (work_of df)) by exact Hdf.
  unfold assemble in H. bind_inv H as date Hdate.
  bind_inv H as at' Hat. destruct at' as [[amount tx] c].
  bind_inv H as bal Hbal. bind_inv H as desc Hdsc.
  injection H as <- _. cbn [n_balance n_amount n_type].
  split.
  - unfold balance_column in Hbal.
    destruct (Str.truthy (balance_col (resolve_roles (work_of df)))).
    + bind_inv Hbal as cells Hcells. injection Hbal as <-.
      eapply numeric_column_all_nan; eauto.
    + injection Hbal as <-. apply Forall_repeat.
  - unfold amount_and_type in Hat.
    destruct (dual (resolve_roles (work_of df))); [right | left];
      (split; [reflexivity|]).
    + bind_inv Hat as dcells Hd. bind_inv Hat as ccells Hc.
      injection Hat as <- <- _.
      rewrite (to_numeric_digit_free dcells
                 (getitem_digit_free _ _ _ dcells Hw Hd)).
      rewrite (to_numeric_digit_free ccells
                 (getitem_digit_free _ _ _ ccells Hw Hc)).
      rewrite !map_map. cbn [fillna0].
      split; rewrite Forall_map; apply map2_Forall; intros x y Hx Hy;
        apply in_map_iff in Hx as (? & <- & _);
        apply in_map_iff in Hy as (? & <- & _); reflexivity.
    + bind_inv Hat as col Hcol. bind_inv Hat as raw Hraw.
      bind_inv Hat as tx' Htx. injection Hat as <- _ _.
      rewrite Forall_map. unfold raw_amount in Hraw.
      destruct (Str.truthy col).
      * bind_inv Hraw as cells Hcells. injection Hraw as <-.
        eapply Forall_impl;
          [|eapply numeric_column_all_nan; [exact Hw | exact Hcells]].
        now intros a ->.
      * injection Hraw as <-. eapply Forall_impl; [|apply Forall_repeat].
        now intros a ->.
Qed.

Lemma contains_nonempty (key s : string) :
  Str.nonempty key = true -> Str.contains key s = true -> Str.nonempty s = true.
Proof.
  intros Hk H. destruct s; [|reflexivity].
  destruct key; [discriminate|]. discriminate.
Qed.

Lemma find_label_some (key : string) (labels : list string) (col : string) :
  find_label key (List.map pair_norm labels) = Some col ->
  exists pre post,
    labels = pre ++ col :: post /\
    Forall (fun l => Str.contains key (_normalize_col_name l) = false) pre /\
    Str.contains key (_normalize_col_name col) = true.
Proof.
  induction labels as [|l rest IH]; cbn [List.map find_label pair_norm];
    [discriminate|].
  destruct (Str.contains key (_normalize_col_name l)) eqn:E.
  - intros [= <-]. exists [], rest. auto.
  - intros H. destruct (IH H) as (pre & post & -> & Hpre & Hcol).
    exists (l :: pre), post. repeat split; auto.
Qed.

Lemma role_truthy (keywords labels : list string) (c : string) :
  Forall (fun k => Str.nonempty k = true) keywords ->
  first_match keywords (List.map pair_norm labels) = Some c ->
  Str.nonempty c = true.
Proof.
  intros Hk. induction Hk as [|k rest Hne _ IH]; cbn [first_match]; [discriminate|].
  destruct (find_label k (List.map pair_norm labels)) as [c'|] eqn:E.
  - intros [= ->]. apply find_label_some in E as (_ & _ & _ & _ & Hc).
    pose proof (contains_nonempty _ _ Hne Hc) as Hn.
    destruct c; [|reflexivity]. discriminate.
  - exact IH.
Qed.

Lemma select_keep_all {A B : Type} (l : list (option A)) (s : list B) :
  Forall (fun a => notna a = true) l ->
  List.length l = List.length s ->
  select (List.map notna l) s = s.
Proof.
  intros H. revert s. induction H as [|a l Ha _ IH]; intros [|x s] Hlen;
    try discriminate; [reflexivity|].
  cbn [List.map select]. rewrite Ha. injection Hlen as Hlen. now rewrite IH.
Qed.

Lemma filter_map_length {A B : Type} (p : B -> bool) (g : A -> B) (l : list A) :
  List.length (List.filter p (List.map g l))
  = List.length (List.filter (fun x => p (g x)) l).
Proof.
  induction l as [|x l IH]; [reflexivity|]. cbn [List.map List.filter].
  destruct (p (g x)); cbn [List.length]; now rewrite IH.
Qed.

Lemma filter_all_length {A : Type} (p : A -> bool) (l : list A) :
  Forall (fun x => p x = true) l -> List.length (List.filter p l) = List.length l.
Proof.
  induction 1 as [|x l Hx _ IH]; [reflexivity|]. cbn [List.filter].
  rewrite Hx. cbn [List.length]. now rewrite IH.
Qed.

(** The description column and the reported description role. *)
Lemma assemble_description (L : Library) (df : DataFrame) (pre : Normalized)
  (detected : Detected) :
  assemble df = Ok (pre, detected) ->
  description_col detected = description_col (resolve_roles (work_of df)) /\
  description_column (work_of df) (resolve_roles (work_of df))
  = Ok (n_description pre) /\
  List.length (n_description pre) = List.length (data df).
Proof.
  unfold assemble. intros H. bind_inv H as date Hdate.
  bind_inv H as at' Hat. destruct at' as [[amount tx] c].
  bind_inv H as bal Hbal. bind_inv H as desc Hdsc.
  injection H as <- <-. cbn [n_description description_col].
  split; [reflexivity|]. split; [exact Hdsc|].
  unfold description_column in Hdsc.
  destruct (Str.truthy (description_col (resolve_roles (work_of df)))).
  - bind_inv Hdsc as cells Hcells. injection Hdsc as <-.
    rewrite length_map. apply (getitem_length _ _ _ _ Hcells).
  - injection Hdsc as <-. apply repeat_length.
Qed.

(** The summary of a table without digits: the four estimates are zero,
    and so is the UPI frequency unless both a debit and a credit column
    are resolved; then every row is kept and the frequency counts the
    rows, or the rows whose description holds a marker. *)
Lemma analyze_frame_digit_free (L : Library) (df : DataFrame) :
  table_digit_free df ->
  NoDup (List.map Str.strip (columns df)) ->
  dates_accepted (work_of df) ->
  exists s, analyze_frame df = Ok s /\
    monthly_income_estimate s == 0 /\
    monthly_expense_estimate s == 0 /\
    avg_monthly_balance s == 0 /\
    income_volatility_index s == 0 /\
    (dual (resolve_roles (work_of df)) = false ->
     upi_transaction_frequency s = 0%nat) /\
    (dual (resolve_roles (work_of df)) = true ->
     match description_col (resolve_roles (work_of df)) with
     | Some label =>
         exists cells,
           getitem AttributeError (work_of df) label = Ok cells /\
           upi_transaction_frequency s = upi_rows cells
     | None => upi_transaction_frequency s = List.length (data df)
     end).
Proof.
  intros Hdf Hnd Hdates.
  destruct (normalize_ok L df Hnd Hdates) as (final & detected & Hnorm).
  pose proof Hnorm as Hinv.
  apply normalize_inv in Hinv as (pre & Hpre & ->).
  pose proof (assemble_facts L df pre detected Hpre) as (_ & Hlen & Hlent).
  pose proof (assemble_description L df pre detected Hpre) as (Hdc & Hdesc & Hlend).
  pose proof (assemble_digit_free L df pre detected Hdf Hpre) as (Hbal & Hcases).
  set (r := resolve_roles (work_of df)) in *.
  (* the rows kept, in the branch with both columns *)
  assert (Hdualrows :
            dual r = true ->
            List.length (n_amount (finish pre)) = List.length (data df) /\
            n_description (finish pre) = n_description pre /\
            List.length (List.filter (type_is "debit") (n_type (finish pre)))
            = List.length (data df)).
  { intros Hd. destruct Hcases as [[Hd' _] | (_ & Hamt & Htyp)]; [congruence|].
    assert (Hall : Forall (fun a => notna a = true) (n_amount pre)).
    { eapply Forall_impl; [|exact Hamt]. now intros a ->. }
    unfold finish. cbn [n_amount n_description n_type].
    rewrite !select_keep_all by (auto; congruence).
    rewrite length_map. split; [exact Hlen|]. split; [reflexivity|].
    rewrite filter_all_length; [now rewrite length_map|].
    rewrite Forall_map. eapply Forall_impl; [|exact Htyp]. now intros t ->. }
  (* the frequency of the branch with both columns, for a summary whose
     frequency is [n] *)
  assert (Hupi :
            forall n : nat,
              (dual r = true ->
               n = match description_col detected with
                   | Some _ =>
                       List.length
                         (List.filter (Str.contains_any upi_markers)
                            (List.map Str.lower (n_description (finish pre))))
                   | None =>
                       List.length
                         (List.filter (type_is "debit") (n_type (finish pre)))
                   end) ->
              dual r = true ->
              match description_col r with
              | Some label =>
                  exists cells,
                    getitem AttributeError (work_of df) label = Ok cells /\
                    n = upi_rows cells
              | None => n = List.length (data df)
              end).
  { intros n Hn Hd. specialize (Hn Hd).
    destruct (Hdualrows Hd) as (_ & Hkeep & Hdebit).
    rewrite Hdc in Hn. rewrite Hkeep, Hdebit in Hn.
    unfold description_column in Hdesc. fold r in Hdesc.
    destruct (description_col r) as [label|] eqn:El; [|exact Hn].
    assert (Htruthy : Str.truthy (Some label) = true).
    { cbn [Str.truthy]. unfold r in El. cbn [resolve_roles description_col] in El.
      eapply role_truthy; [|exact El]. repeat constructor. }
    rewrite Htruthy in Hdesc. cbn [label_of] in Hdesc.
    bind_inv Hdesc as cells Hcells. injection Hdesc as Hds.
    exists cells. split; [exact Hcells|]. rewrite Hn, <- Hds.
    rewrite map_map. unfold upi_rows. apply filter_map_length. }
  unfold analyze_frame.
  destruct (df_empty df) eqn:He.
  - exists zero_summary. split; [reflexivity|].
    do 5 (split; [reflexivity|]).
    apply Hupi. intros Hd. destruct (Hdualrows Hd) as (Hrows & Hkeep & Hdebit).
    assert (Hdata : data df = []).
    { destruct (df_empty_cases df He) as [Hc | Hc]; [|exact Hc].
      exfalso. unfold dual in Hd. apply andb_true_iff in Hd as [Hd _].
      apply truthy_label in Hd.
      apply (find_column_in (work_of df)) in Hd.
      cbn [work_of columns] in Hd. rewrite Hc in Hd. exact Hd. }
    rewrite Hdebit, Hkeep.
    assert (Hnil : n_description pre = []).
    { destruct (n_description pre); [reflexivity|].
      rewrite Hdata in Hlend. discriminate. }
    rewrite Hnil, Hdata. now destruct (description_col detected).
  - rewrite Hnorm. cbn [bind].
    destruct (is_nil (n_amount (finish pre))) eqn:Hnil.
    + exists zero_summary. split; [reflexivity|].
      do 5 (split; [reflexivity|]).
      apply Hupi. intros Hd. destruct (Hdualrows Hd) as (Hrows & Hkeep & Hdebit).
      assert (Hdata : data df = []).
      { destruct (n_amount (finish pre)); [|discriminate].
        destruct (data df); [reflexivity | discriminate]. }
      rewrite Hdebit, Hkeep.
      assert (Hn : n_description pre = []).
      { destruct (n_description pre); [reflexivity|].
        rewrite Hdata in Hlend. discriminate. }
      rewrite Hn, Hdata. now destruct (description_col detected).
    + destruct Hcases as [(_ & Hnone) | (Hdual & Hamt & Htyp)].
      { rewrite finish_amount, filter_notna_all_none in Hnil by exact Hnone.
        discriminate. }
      eexists. split; [reflexivity|].
      cbn [summarize monthly_income_estimate monthly_expense_estimate
           avg_monthly_balance income_volatility_index upi_transaction_frequency].
      assert (Hcredit : amounts_of "credit" (finish pre) = []).
      { unfold amounts_of. rewrite select_all_false; [reflexivity|].
        unfold finish. cbn [n_type]. rewrite Forall_map, Forall_map.
        apply select_Forall. eapply Forall_impl; [|exact Htyp]. now intros t ->. }
      rewrite Hcredit. cbn [is_nil negb List.length Nat.ltb Nat.leb].
      assert (Hbalance : existsb notna (n_balance (finish pre)) = false).
      { apply existsb_notna_all_none. unfold finish. cbn [n_balance].
        now apply select_Forall. }
      rewrite Hbalance, sum_if_nil.
      assert (Hr2 : py_round 0 2 == 0) by (vm_compute; reflexivity).
      assert (Hr4 : py_round 0 4 == 0) by (vm_compute; reflexivity).
      split; [exact Hr2|]. split; [|split; [exact Hr2|split; [exact Hr4|split]]].
      * apply py_round_zero, sum_skipna_zero. unfold amounts_of.
        rewrite Forall_map. apply select_Forall. rewrite finish_amount.
        apply Forall_forall. intros a Ha. apply filter_In in Ha as [Ha _].
        rewrite Forall_forall in Hamt. rewrite (Hamt a Ha). cbn. reflexivity.
      * intros Hd. fold r in Hdual. congruence.
      * apply Hupi. intros _. reflexivity.
Qed.

(** C5 (amended). When the decoded document holds no digit, the library
    readers return no digit that the document does not hold, the stripped
    labels of the loaded table are distinct and the date parser returns on
    cells without digits, the four numeric estimates are 0.  The UPI
    frequency is 0 as well unless the table resolves both a debit and a
    credit column: then no row is dropped, and the frequency is the number
    of rows whose description holds a payment-app marker when a
    description column is resolved, and the number of rows when none
    is. *)
Theorem C5_digit_free_document :
  forall (L : Library) (contents : list byte) (filename : option string),
    let frame := fst (_load_statement_dataframe contents filename) in
    let roles := resolve_roles (work_of frame) in
    digit_free (_decode_bytes contents) = true ->
    Forall (fun p => outcome_digit_free (snd p)) (fallback_loaders contents) ->
    (forall dayfirst cells,
        Forall (fun cell => digit_free cell = true) cells ->
        to_datetime dayfirst cells <> None) ->
    NoDup (List.map Str.strip (columns frame)) ->
    exists s, analyze_bank_statement contents filename = Ok s /\
      monthly_income_estimate s == 0 /\
      monthly_expense_estimate s == 0 /\
      avg_monthly_balance s == 0 /\
      income_volatility_index s == 0 /\
      (dual roles = false -> upi_transaction_frequency s = 0%nat) /\
      (dual roles = true ->
       match description_col roles with
       | Some label =>
           exists cells,
             getitem AttributeError (work_of frame) label = Ok cells /\
             upi_transaction_frequency s = upi_rows cells
       | None => upi_transaction_frequency s = List.length (data frame)
       end).
Proof.
  intros L contents filename frame roles Htext Hlib Hdates Hnd.
  rewrite analyze_via_frame.
  assert (Hfree : table_digit_free frame) by now apply loaded_digit_free.
  apply analyze_frame_digit_free; [exact Hfree | exact Hnd |].
  intros cells dayfirst Hcells. apply Hdates.
  eapply getitem_digit_free; [|exact Hcells]. exact Hfree.
Qed.

Lemma C5_digit_free_document_witness :
  exists s,
    analyze_bank_statement (L := ascii_library) address_csv None = Ok s /\
    monthly_income_estimate s == 0 /\
    monthly_expense_estimate s == 0 /\
    avg_monthly_balance s == 0 /\
    income_volatility_index s == 0 /\
    upi_transaction_frequency s = 1%nat.
Proof.
  destruct (C5_digit_free_document ascii_library address_csv None)
    as (s & Hs & Hi & He & Hb & Hv & _ & Hu).
  - vm_compute. reflexivity.
  - vm_compute. repeat constructor.
  - intros dayfirst cells _. discriminate.
  - apply distinct_NoDup. vm_compute. reflexivity.
  - exists s. repeat split; try assumption.
    destruct (Hu eq_refl) as (cells & Hcells & ->).
    vm_compute in Hcells. injection Hcells as <-. reflexivity.
Defined.

(** A document without a digit whose summary is not all zero: the headers
    "Debit" and "Credit" resolve both columns, the row is kept with amount
    0 and type "debit", and it is counted by the UPI frequency. *)
Lemma C5_upi_frequency_not_zero :
  Csv.in_dialect digitless_csv = true /\
  digit_free (_decode_bytes (L := ascii_library) digitless_csv) = true /\
  Csv.read digitless_csv
  = ReturnedFrame {| columns := ["Debit"; "Credit"]; data := [["x"; "y"]] |} /\
  exists s,
    analyze_bank_statement (L := ascii_library) digitless_csv None = Ok s /\
    upi_transaction_frequency s = 1%nat.
Proof.
  repeat split; try (vm_compute; reflexivity).
  eexists. split; vm_compute; reflexivity.
Qed.

(** ** The empty document *)

(** C10. On the empty byte string, with or without a filename: when the
    readers reject empty input and the first codec decodes it to the empty
    text, every structured strategy misses, the text extractor yields no
    row, the loader returns the empty table tagged "unparsed", and the
    analysis returns the all-zero summary. *)
Theorem C10_empty_input :
  forall (L : Library) (filename : option string),
    decode utf_8_sig [] = Some "" ->
    Forall (fun p => misses (snd p)) (fallback_loaders []) ->
    first_loaded (specific_loaders (extension_of filename) []
                  ++ fallback_loaders []) = None /\
    Extract._extract_text_transactions (_decode_bytes []) = empty_frame /\
    _load_statement_dataframe [] filename = (empty_frame, "unparsed") /\
    analyze_bank_statement [] filename = Ok zero_summary.
Proof.
  intros L filename Hdec Hmiss.
  assert (Hchain : first_loaded (specific_loaders (extension_of filename) []
                                 ++ fallback_loaders []) = None).
  { apply first_loaded_all_miss. now apply chain_property. }
  assert (Htext : _decode_bytes [] = "").
  { unfold _decode_bytes. cbn [first_decoding]. now rewrite Hdec. }
  assert (Hload : _load_statement_dataframe [] filename = (empty_frame, "unparsed")).
  { unfold _load_statement_dataframe. cbv zeta. rewrite Hchain, Htext. reflexivity. }
  repeat split.
  - exact Hchain.
  - rewrite Htext. reflexivity.
  - exact Hload.
  - unfold analyze_bank_statement. rewrite Hload. reflexivity.
Qed.

Lemma C10_empty_input_witness :
  _load_statement_dataframe (L := ascii_library) [] (Some "statement.pdf")
  = (empty_frame, "unparsed") /\
  analyze_bank_statement (L := ascii_library) [] (Some "statement.pdf")
  = Ok zero_summary.
Proof.
  destruct (C10_empty_input ascii_library (Some "statement.pdf"))
    as (_ & _ & Hload & Hsum).
  - reflexivity.
  - repeat constructor.
  - split; assumption.
Defined.

(** * Further properties of the statement pipeline *)

(** ** Substrings *)

Lemma starts_with_app (p post : string) : Str.starts_with p (p ++ post) = true.
Proof.
  induction p as [|a p IH]; [now destruct post|].
  cbn [append Str.starts_with]. now rewrite Ascii.eqb_refl, IH.
Qed.

Lemma starts_with_split (p s : string) :
  Str.starts_with p s = true -> exists post, s = (p ++ post)%string.
Proof.
  revert s. induction p as [|a p IH]; intros s H.
  - now exists s.
  - destruct s as [|b s]; [discriminate|]. cbn [Str.starts_with] in H.
    apply andb_true_iff in H as [Hab H]. apply Ascii.eqb_eq in Hab. subst b.
    destruct (IH s H) as [post ->]. now exists post.
Qed.

(** [needle in hay] holds exactly when [hay] splits around [needle]. *)
Lemma contains_split (needle hay : string) :
  Str.contains needle hay = true <->
  exists pre post, hay = (pre ++ needle ++ post)%string.
Proof.
  split.
  - induction hay as [|c hay IH].
    + cbn [Str.contains]. rewrite orb_false_r. intros H.
      apply starts_with_split in H as [post ->]. now exists "", post.
    + cbn [Str.contains]. intros H. apply orb_true_iff in H as [H | H].
      * apply starts_with_split in H as [post ->]. now exists "", post.
      * destruct (IH H) as (pre & post & ->). now exists (String c pre), post.
  - intros (pre & post & ->). induction pre as [|c pre IH].
    + cbn [append]. destruct (needle ++ post)%string eqn:E.
      * cbn [Str.contains]. rewrite <- E, starts_with_app. reflexivity.
      * cbn [Str.contains]. rewrite <- E, starts_with_app. reflexivity.
    + cbn [append Str.contains]. rewrite IH. apply orb_true_r.
Qed.

Lemma append_assoc (a b c : string) :
  ((a ++ b) ++ c = a ++ (b ++ c))%string.
Proof. induction a as [|x a IH]; [reflexivity|]. cbn [append]. now rewrite IH. Qed.

Lemma contains_trans (a b c : string) :
  Str.contains a b = true -> Str.contains b c = true -> Str.contains a c = true.
Proof.
  intros Hab Hbc.
  apply contains_split in Hab as (p1 & q1 & ->).
  apply contains_split in Hbc as (p2 & q2 & ->).
  apply contains_split. exists (p2 ++ p1)%string, (q1 ++ q2)%string.
  now rewrite !append_assoc.
Qed.


(** ** The column resolver *)

Lemma find_label_none (key : string) (labels : list string) :
  find_label key (List.map pair_norm labels) = None <->
  Forall (fun l => Str.contains key (_normalize_col_name l) = false) labels.
Proof.
  induction labels as [|l rest IH]; cbn [List.map find_label pair_norm].
  - split; [constructor | reflexivity].
  - destruct (Str.contains key (_normalize_col_name l)) eqn:E.
    + split; [discriminate|]. intros H. inversion H; subst. congruence.
    + rewrite IH. split.
      * intros H. now constructor.
      * intros H. now inversion H.
Qed.


(** X16. [_find_column] is the double loop of the source: it returns the
    first column, in column order, that matches the first keyword, in
    keyword order, that any column matches; it returns nothing exactly
    when no column matches any keyword. *)
Theorem find_column_first_keyword_first_column :
  forall (df : DataFrame) (keywords : list string),
    match _find_column df keywords with
    | Some col =>
        exists kpre key kpost cpre cpost,
          keywords = kpre ++ key :: kpost /\
          columns df = cpre ++ col :: cpost /\
          Str.contains key (_normalize_col_name col) = true /\
          Forall (fun l => Str.contains key (_normalize_col_name l) = false) cpre /\
          Forall (fun k =>
                    Forall (fun l => Str.contains k (_normalize_col_name l) = false)
                      (columns df)) kpre
    | None =>
        Forall (fun k =>
                  Forall (fun l => Str.contains k (_normalize_col_name l) = false)
                    (columns df)) keywords
    end.
Proof.
  intros df keywords. unfold _find_column.
  change (fun col : string => (col, _normalize_col_name col)) with pair_norm.
  induction keywords as [|key rest IH]; cbn [first_match]; [constructor|].
  destruct (find_label key (List.map pair_norm (columns df))) as [col|] eqn:E.
  - apply find_label_some in E as (cpre & cpost & Hc & Hpre & Hcol).
    exists [], key, rest, cpre, cpost. repeat split; auto.
  - apply find_label_none in E.
    destruct (first_match rest (List.map pair_norm (columns df))) as [col|].
    + destruct IH as (kpre & k & kpost & cpre & cpost & -> & Hc & Hcol & Hpre & Hk).
      exists (key :: kpre), k, kpost, cpre, cpost. repeat split; auto.
    + now constructor.
Qed.

Lemma first_match_found (keywords : list string) (labels : list string)
  (key l : string) :
  In key keywords -> In l labels ->
  Str.contains key (_normalize_col_name l) = true ->
  exists c, first_match keywords (List.map pair_norm labels) = Some c.
Proof.
  intros Hk Hl Hc. induction keywords as [|k rest IH]; [contradiction|].
  cbn [first_match].
  destruct (find_label k (List.map pair_norm labels)) as [c|] eqn:E; [eauto|].
  destruct Hk as [-> | Hk]; [|auto].
  apply find_label_none in E. rewrite Forall_forall in E.
  rewrite (E _ Hl) in Hc. discriminate.
Qed.


(** X17. A column whose header is description-like also fills the credit
    role: the keyword "cr" of the credit list occurs inside
    "description".  So a table with such a column always has a credit
    column, and its description role is resolved as well. *)
Theorem description_header_fills_credit_role :
  forall (df : DataFrame) (col : string),
    In col (columns df) ->
    Str.contains "description" (_normalize_col_name col) = true ->
    let r := resolve_roles (work_of df) in
    Str.truthy (credit_col r) = true /\
    Str.truthy (description_col r) = true /\
    In (label_of (credit_col r)) (columns (work_of df)).
Proof.
  intros df col Hin Hd r.
  assert (Hcr : Str.contains "cr" (_normalize_col_name (Str.strip col)) = true).
  { rewrite normalize_col_name_strip.
    apply (contains_trans "cr" "description"); [reflexivity | exact Hd]. }
  assert (Hin' : In (Str.strip col) (columns (work_of df))).
  { cbn [work_of columns]. now apply in_map. }
  assert (Hd' : Str.contains "description" (_normalize_col_name (Str.strip col)) = true)
    by now rewrite normalize_col_name_strip.
  destruct (first_match_found credit_keywords (columns (work_of df)) "cr"
              (Str.strip col)) as [c Hc]; auto.
  { cbn. auto. }
  destruct (first_match_found description_keywords (columns (work_of df))
              "description" (Str.strip col)) as [d Hdc]; auto.
  { cbn. auto. }
  assert (Ec : credit_col r = Some c) by exact Hc.
  assert (Ed : description_col r = Some d) by exact Hdc.
  rewrite Ec, Ed. cbn [Str.truthy label_of]. repeat split.
  - eapply role_truthy; [|exact Hc]. repeat constructor.
  - eapply role_truthy; [|exact Hdc]. repeat constructor.
  - eapply first_match_in. exact Hc.
Qed.

Lemma description_header_fills_credit_role_witness :
  let r := resolve_roles (work_of
             {| columns := ["Date"; "Description"; "Debit"];
                data := [["2026-02-01"; "rent"; "1200"]] |}) in
  Str.truthy (credit_col r) = true /\
  Str.truthy (description_col r) = true /\
  In (label_of (credit_col r))
     (columns (work_of {| columns := ["Date"; "Description"; "Debit"];
                          data := [["2026-02-01"; "rent"; "1200"]] |})).
Proof.
  apply (description_header_fills_credit_role
           {| columns := ["Date"; "Description"; "Debit"];
              data := [["2026-02-01"; "rent"; "1200"]] |} "Description").
  - cbn. auto.
  - reflexivity.
Defined.

(** ** The loader *)

Lemma first_loaded_app (l1 l2 : list (string * Loaded)) :
  first_loaded (l1 ++ l2)
  = match first_loaded l1 with
    | Some found => Some found
    | None => first_loaded l2
    end.
Proof.
  induction l1 as [|[name outcome] l1 IH]; [reflexivity|].
  cbn [app first_loaded]. destruct outcome as [| |df]; try exact IH.
  destruct (df_empty df); [exact IH | reflexivity].
Qed.

Lemma loader_names (L : Library) (extension : string) (contents : list byte) :
  Forall (fun p => In (fst p)
                     ["csv"; "excel"; "text_csv"; "json"; "xml"; "pdf"; "docx"])
    (specific_loaders extension contents ++ fallback_loaders contents).
Proof.
  apply Forall_app. split.
  - unfold specific_loaders.
    repeat match goal with
           | |- context [if ?b then _ else _] => destruct b
           end;
      repeat first [apply Forall_nil | apply Forall_cons; [cbn; auto 10|]].
  - unfold fallback_loaders.
    repeat first [apply Forall_nil | apply Forall_cons; [cbn; auto 10|]].
Qed.

(** X18. What [_load_statement_dataframe] returns is classified by its tag:
    the frame is empty exactly when the tag is "unparsed", and then it is
    the frame without columns; under the tag "text_fallback" it is the
    result of the text extractor on the decoded bytes; every other tag
    names a reader strategy that returned this very frame. *)
Theorem loader_tag_classifies :
  forall (L : Library) (contents : list byte) (filename : option string),
    let result := _load_statement_dataframe contents filename in
    (df_empty (fst result) = true <-> snd result = "unparsed") /\
    (snd result = "unparsed" -> fst result = empty_frame) /\
    (snd result = "text_fallback" ->
     fst result = Extract._extract_text_transactions (_decode_bytes contents)) /\
    (snd result <> "unparsed" -> snd result <> "text_fallback" ->
     In (snd result, ReturnedFrame (fst result))
        (specific_loaders (extension_of filename) contents
         ++ fallback_loaders contents)).
Proof.
  intros L contents filename. cbv zeta.
  unfold _load_statement_dataframe. cbv zeta.
  pose proof (loader_names L (extension_of filename) contents) as Hnames.
  destruct (first_loaded _) as [[df name]|] eqn:E.
  - apply first_loaded_in in E as [Hin He]. cbn [fst snd].
    rewrite Forall_forall in Hnames. pose proof (Hnames _ Hin) as Hn.
    cbn [fst In] in Hn.
    assert (Hu : name <> "unparsed")
      by (intros ->; repeat destruct Hn as [Hn | Hn]; try discriminate; exact Hn).
    assert (Ht : name <> "text_fallback")
      by (intros ->; repeat destruct Hn as [Hn | Hn]; try discriminate; exact Hn).
    repeat split; congruence || auto.
  - destruct (df_empty (Extract._extract_text_transactions _)) eqn:Et;
      cbn [negb fst snd].
    + repeat split; first [congruence | discriminate | auto].
    + repeat split; first [congruence | discriminate | auto].
Qed.

(** X19. The extension matters only when its strategy yields a table: when
    the strategy chosen by the extension raises, returns nothing or
    returns an empty frame, the loader returns what it returns for an
    upload without a file name. *)
Theorem loader_skips_missing_strategy :
  forall (L : Library) (contents : list byte) (filename : option string),
    Forall (fun p => misses (snd p))
      (specific_loaders (extension_of filename) contents) ->
    _load_statement_dataframe contents filename
    = _load_statement_dataframe contents None.
Proof.
  intros L contents filename H. unfold _load_statement_dataframe. cbv zeta.
  rewrite first_loaded_app, (first_loaded_all_miss _ H).
  reflexivity.
Qed.

Lemma loader_skips_missing_strategy_witness :
  _load_statement_dataframe (L:=ascii_library) statement_csv (Some "feb.json")
  = _load_statement_dataframe (L:=ascii_library) statement_csv None.
Proof.
  apply (loader_skips_missing_strategy ascii_library statement_csv (Some "feb.json")).
  repeat constructor.
Defined.

(** ** The extension *)

Lemma contains_dot_cons (c : ascii) (r : string) :
  Str.contains "." (String c r) = Ascii.eqb "."%char c || Str.contains "." r.
Proof.
  cbn [Str.contains Str.starts_with]. now rewrite andb_true_r.
Qed.

Lemma after_last_dot_no_dot (s : string) :
  Str.contains "." (after_last_dot s) = false.
Proof.
  induction s as [|c r IH]; [reflexivity|]. cbn [after_last_dot].
  destruct (Str.contains "." r) eqn:Er; [exact IH|].
  destruct (Ascii.eqb c "."%char) eqn:Ec; [exact Er|].
  rewrite contains_dot_cons, Er, Ascii.eqb_sym, Ec. reflexivity.
Qed.

Lemma lower_char_idem (c : ascii) :
  Str.lower_char (Str.lower_char c) = Str.lower_char c.
Proof. destruct c as [[] [] [] [] [] [] [] []]; reflexivity. Qed.

Lemma lower_char_dot (c : ascii) :
  Ascii.eqb "."%char (Str.lower_char c) = Ascii.eqb "."%char c.
Proof. destruct c as [[] [] [] [] [] [] [] []]; reflexivity. Qed.

Lemma lower_idem (s : string) : Str.lower (Str.lower s) = Str.lower s.
Proof.
  induction s as [|c r IH]; [reflexivity|].
  unfold Str.lower in *. cbn [Str.map]. now rewrite lower_char_idem, IH.
Qed.

Lemma contains_dot_lower (s : string) :
  Str.contains "." (Str.lower s) = Str.contains "." s.
Proof.
  induction s as [|c r IH]; [reflexivity|].
  unfold Str.lower in *. cbn [Str.map].
  now rewrite !contains_dot_cons, lower_char_dot, IH.
Qed.

(** X20. The extension the loader dispatches on holds no dot and does not
    depend on the case of the file name; a name without a dot, an empty
    name and a missing name all give the empty extension, for which no
    specific strategy is chosen. *)
Theorem extension_of_file_name :
  forall (L : Library) (filename : string) (contents : list byte),
    Str.contains "." (extension_of (Some filename)) = false /\
    extension_of (Some (Str.lower filename)) = extension_of (Some filename) /\
    (Str.contains "." filename = false ->
     extension_of (Some filename) = extension_of None) /\
    specific_loaders (extension_of None) contents = [].
Proof.
  intros L filename contents. repeat split.
  - cbn [extension_of].
    destruct (Str.nonempty filename && Str.contains "." filename);
      [apply after_last_dot_no_dot | reflexivity].
  - cbn [extension_of]. rewrite contains_dot_lower, lower_idem.
    now destruct filename.
  - intros H. cbn [extension_of]. rewrite H. now rewrite andb_false_r.
Qed.

(** ** The text extractor *)

Lemma digit_not_punct (c : ascii) :
  Str.is_digit c = true ->
  Extract.is_sign c = false /\ Extract.is_comma c = false /\
  Extract.is_dot c = false.
Proof. destruct c as [[] [] [] [] [] [] [] []]; cbn; intros H; auto; discriminate. Qed.

Lemma sign_cases (c : ascii) :
  Extract.is_sign c = true ->
  (c = "-"%char \/ c = "+"%char) /\ Extract.is_comma c = false.
Proof.
  destruct c as [[] [] [] [] [] [] [] []]; cbn; intros H;
    try discriminate; auto.
Qed.

Lemma dot_not_digit : Str.is_digit "."%char = false.
Proof. reflexivity. Qed.

Lemma filter_app (p : ascii -> bool) (a b : string) :
  Str.filter p (a ++ b) = (Str.filter p a ++ Str.filter p b)%string.
Proof.
  induction a as [|c a IH]; [reflexivity|]. cbn [append Str.filter].
  destruct (p c); cbn [append]; now rewrite IH.
Qed.

Lemma uncomma_snoc (tok : string) (c : ascii) :
  uncomma (Extract.snoc tok c)
  = (uncomma tok ++ if Extract.is_comma c then "" else String c "")%string.
Proof.
  unfold uncomma, Extract.snoc. rewrite filter_app. cbn [Str.filter].
  now destruct (Extract.is_comma c).
Qed.

Lemma append_nil_r (s : string) : (s ++ "")%string = s.
Proof. induction s as [|c s IH]; [reflexivity|]. cbn [append]. now rewrite IH. Qed.

Lemma forallb_app (p : ascii -> bool) (a b : string) :
  Str.forallb p (a ++ b) = Str.forallb p a && Str.forallb p b.
Proof.
  induction a as [|c a IH]; [reflexivity|]. cbn [append Str.forallb].
  now rewrite IH, andb_assoc.
Qed.

Lemma nonempty_app (a b : string) :
  Str.nonempty a = true -> Str.nonempty (a ++ b) = true.
Proof. now destruct a. Qed.

(** A run of digits is read to its end. *)
Lemma read_digits_run (ds rest : string) (acc : Z) (n : nat) :
  all_digits ds = true ->
  Extract.head_is Str.is_digit rest = false ->
  exists acc',
    read_digits (ds ++ rest) acc n = (acc', (n + String.length ds)%nat, rest).
Proof.
  revert acc n. induction ds as [|c ds IH]; intros acc n Hd Hrest.
  - cbn [append String.length]. rewrite Nat.add_0_r.
    destruct rest as [|c r]; [now exists acc|].
    cbn [Extract.head_is] in Hrest. cbn [read_digits]. rewrite Hrest.
    now exists acc.
  - unfold all_digits in *. cbn [Str.forallb] in Hd.
    apply andb_true_iff in Hd as [Hc Hd].
    cbn [append read_digits String.length]. rewrite Hc.
    destruct (IH (acc * 10 + digit_val c)%Z (S n) Hd Hrest) as [acc' ->].
    exists acc'. f_equal. f_equal. lia.
Qed.

Lemma parse_unsigned_int (ds : string) :
  all_digits ds = true -> Str.nonempty ds = true ->
  exists q, parse_unsigned ds = Some q.
Proof.
  intros Hd Hn. unfold parse_unsigned.
  destruct (read_digits_run ds "" 0%Z 0 Hd eq_refl) as [ip E].
  rewrite append_nil_r in E. rewrite E. cbn [Nat.add].
  destruct ds; [discriminate|]. cbn [String.length Nat.ltb Nat.leb]. eauto.
Qed.

Lemma parse_unsigned_dec (ds fs : string) :
  all_digits ds = true -> Str.nonempty ds = true -> all_digits fs = true ->
  exists q, parse_unsigned (ds ++ String "." fs) = Some q.
Proof.
  intros Hd Hn Hf. unfold parse_unsigned.
  destruct (read_digits_run ds (String "." fs) 0%Z 0 Hd eq_refl) as [ip E].
  rewrite E. cbn [Nat.add]. rewrite Ascii.eqb_refl.
  destruct (read_digits_run fs "" 0%Z 0 Hf eq_refl) as [fp E'].
  rewrite append_nil_r in E'. rewrite E'. cbn [Nat.add].
  destruct ds; [discriminate|]. cbn [String.length Nat.add Nat.ltb Nat.leb]. eauto.
Qed.

(** A token of the shape the pattern matches is a float literal. *)
Lemma float_of_token_shape (tok sgn body : string) :
  uncomma tok = (sgn ++ body)%string ->
  sign_prefix sgn ->
  (exists ds, body = ds /\ all_digits ds = true /\ Str.nonempty ds = true)
  \/ (exists ds fs, body = (ds ++ String "." fs)%string /\ all_digits ds = true /\
                    Str.nonempty ds = true /\ all_digits fs = true) ->
  exists q, Extract.float_of_token tok = Some q.
Proof.
  intros Hu Hs Hb. unfold Extract.float_of_token. fold (uncomma tok). rewrite Hu.
  assert (Hparse : exists q, parse_unsigned body = Some q).
  { destruct Hb as [(ds & -> & Hd & Hn) | (ds & fs & -> & Hd & Hn & Hf)].
    - now apply parse_unsigned_int.
    - now apply parse_unsigned_dec. }
  assert (Hhead : exists d rest, body = String d rest /\ Str.is_digit d = true).
  { destruct Hb as [(ds & -> & Hd & Hn) | (ds & fs & -> & Hd & Hn & Hf)];
      (destruct ds as [|d ds]; [discriminate|]);
      unfold all_digits in Hd; cbn [Str.forallb] in Hd;
      apply andb_true_iff in Hd as [Hd _]; cbn [append]; eauto. }
  destruct Hparse as [q Hq].
  destruct Hs as [-> | (c & Hc & ->)].
  - cbn [append]. destruct Hhead as (d & rest & -> & Hd).
    destruct (digit_not_punct d Hd) as (Hsign & _ & _).
    unfold Extract.is_sign in Hsign. apply orb_false_iff in Hsign as [H1 H2].
    rewrite H1, H2. eauto.
  - cbn [append]. destruct (sign_cases c Hc) as [[-> | ->] _].
    + cbn [Ascii.eqb Bool.eqb]. rewrite Hq. cbn [option_map]. eauto.
    + cbn [Ascii.eqb Bool.eqb]. eauto.
Qed.

Lemma scan_inv_token (st : Extract.Scan) (tok : string) :
  scan_inv st tok -> st = Extract.IntPart \/ st = Extract.FracPart ->
  exists q, Extract.float_of_token tok = Some q.
Proof.
  intros Hinv [-> | ->]; cbn [scan_inv] in Hinv.
  - destruct Hinv as (sgn & ds & Hu & Hs & Hd & Hn).
    apply (float_of_token_shape tok sgn ds Hu Hs). left. eauto.
  - destruct Hinv as (sgn & ds & fs & Hu & Hs & Hd & Hn & Hf).
    apply (float_of_token_shape tok sgn (ds ++ String "." fs) Hu Hs).
    right. exists ds, fs. auto.
Qed.

Lemma scan_inv_start (c : ascii) :
  scan_inv (fst (Extract.start c)) (snd (Extract.start c)).
Proof.
  unfold Extract.start. destruct (Str.is_digit c) eqn:Hd.
  - cbn [fst snd scan_inv]. exists "", (String c "").
    destruct (digit_not_punct c Hd) as (_ & Hcomma & _).
    unfold uncomma. cbn [Str.filter]. rewrite Hcomma. cbn [negb append].
    repeat split; auto.
    + now left.
    + unfold all_digits. cbn [Str.forallb]. now rewrite Hd.
  - destruct (Extract.is_sign c) eqn:Hs; cbn [fst snd scan_inv]; eauto.
Qed.

Lemma scan_inv_int_digit (tok : string) (c : ascii) :
  scan_inv Extract.IntPart tok ->
  Str.is_digit c || Extract.is_comma c = true ->
  scan_inv Extract.IntPart (Extract.snoc tok c).
Proof.
  cbn [scan_inv]. intros (sgn & ds & Hu & Hs & Hd & Hn) Hc.
  rewrite uncomma_snoc, Hu. destruct (Extract.is_comma c) eqn:Hcomma.
  - exists sgn, ds. rewrite !append_nil_r. auto.
  - rewrite orb_false_r in Hc. exists sgn, (ds ++ String c "")%string.
    rewrite append_assoc. repeat split; auto.
    + unfold all_digits in *. rewrite forallb_app, Hd. cbn [Str.forallb].
      now rewrite Hc.
    + now apply nonempty_app.
Qed.

Lemma scan_inv_signed_digit (tok : string) (c : ascii) :
  scan_inv Extract.Signed tok -> Str.is_digit c = true ->
  scan_inv Extract.IntPart (Extract.snoc tok c).
Proof.
  cbn [scan_inv]. intros (s & Hs & ->) Hc.
  destruct (sign_cases s Hs) as [_ Hcomma].
  destruct (digit_not_punct c Hc) as (_ & Hcomma' & _).
  exists (String s ""), (String c "").
  unfold uncomma, Extract.snoc. cbn [append Str.filter].
  rewrite Hcomma, Hcomma'. cbn [negb append]. repeat split; auto.
  - right. eauto.
  - unfold all_digits. cbn [Str.forallb]. now rewrite Hc.
Qed.

Lemma scan_inv_dot (tok : string) (c : ascii) :
  scan_inv Extract.IntPart tok -> Extract.is_dot c = true ->
  scan_inv Extract.FracPart (Extract.snoc tok c).
Proof.
  cbn [scan_inv]. intros (sgn & ds & Hu & Hs & Hd & Hn) Hc.
  unfold Extract.is_dot in Hc. apply Ascii.eqb_eq in Hc. subst c.
  exists sgn, ds, "". rewrite uncomma_snoc, Hu. cbn [Extract.is_comma Ascii.eqb Bool.eqb].
  rewrite append_assoc. repeat split; auto.
Qed.

Lemma scan_inv_frac_digit (tok : string) (c : ascii) :
  scan_inv Extract.FracPart tok -> Str.is_digit c = true ->
  scan_inv Extract.FracPart (Extract.snoc tok c).
Proof.
  cbn [scan_inv]. intros (sgn & ds & fs & Hu & Hs & Hd & Hn & Hf) Hc.
  destruct (digit_not_punct c Hc) as (_ & Hcomma & _).
  exists sgn, ds, (fs ++ String c "")%string.
  rewrite uncomma_snoc, Hu, Hcomma. rewrite !append_assoc. cbn [append].
  repeat split; auto.
  unfold all_digits in *. rewrite forallb_app, Hf. cbn [Str.forallb].
  now rewrite Hc.
Qed.

Lemma findall_tokens_parse (s : string) (st : Extract.Scan) (tok : string) :
  scan_inv st tok ->
  Forall (fun t => exists q, Extract.float_of_token t = Some q)
    (Extract.findall s st tok).
Proof.
  revert st tok. induction s as [|c r IH]; intros st tok Hinv.
  - destruct st; cbn [Extract.findall]; constructor; try constructor;
      eapply scan_inv_token; eauto.
  - pose proof (scan_inv_start c) as Hstart.
    destruct (Extract.start c) as [st' tok'] eqn:Es. cbn [fst snd] in Hstart.
    destruct st; cbn [Extract.findall]; rewrite ?Es.
    + now apply IH.
    + destruct (Str.is_digit c) eqn:Hd.
      * apply IH. now apply scan_inv_signed_digit.
      * now apply IH.
    + destruct (Str.is_digit c || Extract.is_comma c) eqn:Hd.
      * apply IH. now apply scan_inv_int_digit.
      * destruct (Extract.is_dot c) eqn:Hdot.
        -- apply IH. now apply scan_inv_dot.
        -- constructor; [|now apply IH].
           eapply scan_inv_token; eauto.
    + destruct (Str.is_digit c) eqn:Hd.
      * apply IH. now apply scan_inv_frac_digit.
      * constructor; [|now apply IH].
        eapply scan_inv_token; eauto.
Qed.

Lemma parse_all_keeps (numbers : list string) :
  Forall (fun t => exists q, Extract.float_of_token t = Some q) numbers ->
  List.length (Extract.parse_all numbers) = List.length numbers.
Proof.
  induction 1 as [|n rest [q Hq] _ IH]; [reflexivity|].
  cbn [Extract.parse_all]. rewrite Hq. cbn [List.length]. now rewrite IH.
Qed.

Lemma findall_running (r : string) (st : Extract.Scan) (tok : string) :
  st = Extract.IntPart \/ st = Extract.FracPart ->
  Extract.findall r st tok <> [].
Proof.
  revert st tok. induction r as [|c r IH]; intros st tok Hst.
  - destruct Hst as [-> | ->]; discriminate.
  - destruct Hst as [-> | ->]; cbn [Extract.findall].
    + destruct (Str.is_digit c || Extract.is_comma c); [apply IH; auto|].
      destruct (Extract.is_dot c); [apply IH; auto|].
      destruct (Extract.start c). discriminate.
    + destruct (Str.is_digit c); [apply IH; auto|].
      destruct (Extract.start c). discriminate.
Qed.

Lemma findall_some_digit (s : string) (st : Extract.Scan) (tok : string) :
  digit_free s = false -> Extract.findall s st tok <> [].
Proof.
  revert st tok. induction s as [|c r IH]; intros st tok H; [discriminate|].
  unfold digit_free in H. cbn [Str.forallb] in H. unfold not_digit at 1 in H.
  destruct (Str.is_digit c) eqn:Hd; cbn [negb andb] in H.
  - destruct st; cbn [Extract.findall]; unfold Extract.start; rewrite ?Hd;
      cbn [orb]; apply findall_running; auto.
  - fold (digit_free r) in H.
    destruct st; cbn [Extract.findall]; rewrite ?Hd; cbn [orb].
    + destruct (Extract.start c). now apply IH.
    + destruct (Extract.start c). now apply IH.
    + destruct (Extract.is_comma c); [now apply IH|].
      destruct (Extract.is_dot c); [now apply IH|].
      destruct (Extract.start c). discriminate.
    + destruct (Extract.start c). discriminate.
Qed.

(** X21. Every text the amount pattern matches is a float literal once its
    commas are removed, so the [except] branch of the extractor is never
    taken: no matched number is dropped. *)
Theorem extractor_numbers_always_parse :
  forall line : string,
    Forall (fun n => exists q, Extract.float_of_token n = Some q)
      (Extract.amount_re_findall line) /\
    List.length (Extract.parse_all (Extract.amount_re_findall line))
    = List.length (Extract.amount_re_findall line).
Proof.
  intros line.
  assert (H : Forall (fun n => exists q, Extract.float_of_token n = Some q)
                (Extract.amount_re_findall line))
    by (apply findall_tokens_parse; exact I).
  split; [exact H | now apply parse_all_keeps].
Qed.

Lemma last_default {A : Type} (a : A) (l : list A) (d d' : A) :
  List.last (a :: l) d = List.last (a :: l) d'.
Proof.
  revert a. induction l as [|b l IH]; intros a; [reflexivity|].
  change (List.last (b :: l) d = List.last (b :: l) d'). apply IH.
Qed.

Lemma last_cons {A : Type} (a : A) (l : list A) (d : A) :
  List.last (a :: l) d = List.last l a.
Proof.
  destruct l as [|b l]; [reflexivity|].
  change (List.last (b :: l) d = List.last (b :: l) a). apply last_default.
Qed.

(** The last parsed number is the value of the last token. *)
Lemma parse_all_last (numbers : list string) :
  Forall (fun t => exists q, Extract.float_of_token t = Some q) numbers ->
  forall (n : string) (q : Q),
    Extract.float_of_token n = Some q ->
    Extract.float_of_token (List.last numbers n)
    = Some (List.last (Extract.parse_all numbers) q).
Proof.
  induction 1 as [|t rest [qt Ht] _ IH]; intros n q Hn; [exact Hn|].
  cbn [Extract.parse_all]. rewrite Ht, !last_cons. now apply IH.
Qed.

(** X22. A line gives a row exactly when, stripped, it has at least five
    characters and holds a digit.  The row then has five cells: the date
    the date pattern finds in the line, or the empty text when it finds
    none; the stripped line; the rendered absolute value of the first
    number; the rendered absolute value of the last number when the line
    holds at least two numbers, and "nan" otherwise; and the type, which is
    "credit" exactly when the lower-cased line contains a credit word and
    "debit" otherwise. *)
Theorem extractor_row_of_numeric_line :
  forall (L : Library) (raw_line : string),
    let line := Str.strip raw_line in
    let tokens := Extract.amount_re_findall line in
    match Extract.row_of_line raw_line with
    | None => (String.length line < 5)%nat \/ digit_free line = true
    | Some row =>
        (5 <= String.length line)%nat /\ digit_free line = false /\
        exists (token : string) (first_number last_number : Q),
          List.hd_error tokens = Some token /\
          Extract.float_of_token token = Some first_number /\
          Extract.float_of_token (List.last tokens token) = Some last_number /\
          row = [ match Extract.date_search line with
                  | Some d => d
                  | None => ""
                  end;
                  line;
                  float_repr (Qabs first_number);
                  if (2 <=? List.length tokens)%nat
                  then float_repr (Qabs last_number)
                  else "nan";
                  if List.existsb (fun k => Str.contains k (Str.lower line))
                       Extract.credit_words
                  then "credit"
                  else "debit" ]
    end.
Proof.
  intros L raw_line line tokens. unfold Extract.row_of_line. cbv zeta. fold line.
  destruct (String.length line <? 5)%nat eqn:Elen.
  { left. now apply Nat.ltb_lt. }
  apply Nat.ltb_ge in Elen.
  destruct (digit_free line) eqn:Edf.
  { unfold Extract.amount_re_findall.
    rewrite findall_digit_free; auto. }
  pose proof (findall_some_digit line Extract.Idle "" Edf) as Hne.
  pose proof (findall_tokens_parse line Extract.Idle "" I) as Hparse.
  fold (Extract.amount_re_findall line) in Hne, Hparse. fold tokens in Hne, Hparse.
  fold tokens.
  pose proof (parse_all_keeps tokens Hparse) as Hlen.
  destruct tokens as [|n rest] eqn:Ef; [contradiction|].
  inversion Hparse as [|? ? [q Hq] Hrest]; subst.
  pose proof (parse_all_last (n :: rest) Hparse n q Hq) as Hlast.
  cbn [Extract.parse_all] in Hlast, Hlen |- *. rewrite Hq in Hlast, Hlen |- *.
  split; [exact Elen|]. split; [reflexivity|].
  exists n, q, (List.last (q :: Extract.parse_all rest) q).
  split; [reflexivity|]. split; [exact Hq|]. split; [exact Hlast|].
  rewrite Hlen.
  destruct (List.existsb _ Extract.credit_words); [reflexivity|].
  destruct (List.existsb _ Extract.debit_words); reflexivity.
Qed.

(** ** The best numeric column *)

Lemma nan_gt_false (share bound : Q) :
  nan_gt (Some share) bound = false -> share <= bound.
Proof. cbn [nan_gt]. apply Qltb_ge. Qed.

Lemma nan_gt_true (score : option Q) (bound : Q) :
  nan_gt score bound = true -> exists share, score = Some share /\ bound < share.
Proof.
  destruct score as [share|]; [|discriminate]. cbn [nan_gt]. intros H.
  apply Qltb_lt in H. eauto.
Qed.

Lemma best_scan_best (df : DataFrame) (excluded cols scanned : list string)
  (best : option string) (score : Q) :
  NoDup (columns df) -> incl cols (columns df) ->
  shares_below df excluded scanned score ->
  match best with
  | Some col => In col scanned /\ eligible excluded col /\
                numeric_share df col = Some score
  | None => score = -1
  end ->
  exists best' score',
    best_scan df excluded cols best score = Ok (best', score') /\
    shares_below df excluded (scanned ++ cols) score' /\
    match best' with
    | Some col => In col (scanned ++ cols) /\ eligible excluded col /\
                  numeric_share df col = Some score'
    | None => score' = -1
    end.
Proof.
  intros Hnd. revert scanned best score.
  induction cols as [|col rest IH]; intros scanned best score Hincl Hbelow Hbest.
  - exists best, score. rewrite app_nil_r. auto.
  - assert (Hrest : incl rest (columns df))
      by (intros c Hc; apply Hincl; now right).
    replace (scanned ++ col :: rest) with ((scanned ++ [col]) ++ rest)
      by (now rewrite <- app_assoc).
    cbn [best_scan].
    destruct (existsb (String.eqb col) excluded) eqn:Ex.
    + apply IH; auto.
      * intros c share Hc He Hs. apply in_app_or in Hc as [Hc | [<- | []]].
        -- eapply Hbelow; eauto.
        -- unfold eligible in He. congruence.
      * destruct best as [b|]; [|exact Hbest].
        destruct Hbest as (Hin & He & Hs). repeat split; auto.
        apply in_or_app. now left.
    + destruct (getitem_ok AttributeError df col Hnd) as [cells Hcells];
        [apply Hincl; now left|].
      rewrite Hcells. cbn [bind].
      assert (Hshare : numeric_share df col = notna_mean (_to_numeric cells))
        by (unfold numeric_share; now rewrite Hcells).
      destruct (nan_gt (notna_mean (_to_numeric cells)) score) eqn:Egt.
      * apply nan_gt_true in Egt as (share & Es & Hlt).
        rewrite Es. cbn [fillna0]. apply IH; auto.
        -- intros c share' Hc He Hs.
           apply in_app_or in Hc as [Hc | [<- | []]].
           ++ apply Qle_trans with score; [eapply Hbelow; eauto|].
              now apply Qlt_le_weak.
           ++ rewrite Hshare, Es in Hs. injection Hs as <-. apply Qle_refl.
        -- repeat split.
           ++ apply in_or_app. right. now left.
           ++ exact Ex.
           ++ now rewrite Hshare.
      * apply IH; auto.
        -- intros c share' Hc He Hs.
           apply in_app_or in Hc as [Hc | [<- | []]].
           ++ eapply Hbelow; eauto.
           ++ rewrite Hshare in Hs. rewrite Hs in Egt.
              now apply nan_gt_false.
        -- destruct best as [b|]; [|exact Hbest].
           destruct Hbest as (Hin & He & Hs). repeat split; auto.
           apply in_or_app. now left.
Qed.

(** X23. On a table with distinct labels [_best_numeric_column] returns a
    column outside the excluded set whose share of numeric cells is at
    least 0.3 and is not exceeded by any other eligible column; it
    returns nothing exactly when every eligible column has a share below
    0.3 (or the table has no rows). *)
Theorem best_numeric_column_is_best :
  forall (df : DataFrame) (excluded : list string),
    NoDup (columns df) ->
    exists best,
      _best_numeric_column df excluded = Ok best /\
      match best with
      | Some col =>
          In col (columns df) /\ eligible excluded col /\
          exists share,
            numeric_share df col = Some share /\ 3 # 10 <= share /\
            shares_below df excluded (columns df) share
      | None =>
          forall col share,
            In col (columns df) -> eligible excluded col ->
            numeric_share df col = Some share -> share < 3 # 10
      end.
Proof.
  intros df excluded Hnd. unfold _best_numeric_column.
  destruct (best_scan_best df excluded (columns df) [] None (-1) Hnd)
    as (best & score & -> & Hbelow & Hbest).
  - apply incl_refl.
  - intros c share [].
  - reflexivity.
  - cbn [app bind] in *.
    destruct (Qltb score (3 # 10)) eqn:E.
    + apply Qltb_lt in E. exists None. split; [reflexivity|].
      intros col share Hin He Hs.
      apply Qle_lt_trans with score; [eapply Hbelow; eauto | exact E].
    + apply Qltb_ge in E. exists best. split; [reflexivity|].
      destruct best as [col|].
      * destruct Hbest as (Hin & He & Hs). repeat split; auto.
        exists score. auto.
      * subst score. lra.
Qed.

Lemma best_numeric_column_is_best_witness :
  exists best,
    _best_numeric_column
      {| columns := ["ref"; "value"]; data := [["a"; "100"]; ["7"; "250"]] |} []
    = Ok best /\
    match best with
    | Some col =>
        In col ["ref"; "value"] /\ eligible [] col /\
        exists share,
          numeric_share
            {| columns := ["ref"; "value"];
               data := [["a"; "100"]; ["7"; "250"]] |} col = Some share /\
          3 # 10 <= share /\
          shares_below
            {| columns := ["ref"; "value"];
               data := [["a"; "100"]; ["7"; "250"]] |} [] ["ref"; "value"] share
    | None =>
        forall col share,
          In col ["ref"; "value"] -> eligible [] col ->
          numeric_share
            {| columns := ["ref"; "value"];
               data := [["a"; "100"]; ["7"; "250"]] |} col = Some share ->
          share < 3 # 10
    end.
Proof.
  apply (best_numeric_column_is_best
           {| columns := ["ref"; "value"]; data := [["a"; "100"]; ["7"; "250"]] |} []).
  cbn [columns]. repeat constructor; cbn; intuition discriminate.
Defined.

(** ** The debit and credit columns *)



(** X24. When both a debit and a credit column are resolved, on a table
    none of whose cells reads as the least 64-bit integer, no row is
    dropped: row by row the amount is the absolute credit when it is
    positive and the absolute debit otherwise (a missing value counting
    as zero), and the type is "credit" exactly when the credit is
    positive. No amount column is reported. *)
Theorem dual_branch_keeps_every_row :
  forall (L : Library) (df : DataFrame) (final : Normalized) (detected : Detected),
    let work := work_of df in
    let r := resolve_roles work in
    abs_exact df ->
    dual r = true ->
    _normalize_statement df = Ok (final, detected) ->
    exists dcells ccells,
      getitem AttributeError work (label_of (debit_col r)) = Ok dcells /\
      getitem AttributeError work (label_of (credit_col r)) = Ok ccells /\
      let debit := List.map (fun v => Qabs (fillna0 v)) (_to_numeric dcells) in
      let credit := List.map (fun v => Qabs (fillna0 v)) (_to_numeric ccells) in
      n_amount final = List.map Some (map2 dual_amount credit debit) /\
      n_type final = List.map Some (map2 dual_type credit debit) /\
      List.length (n_amount final) = List.length (data df) /\
      amount_col detected = None.
Proof.
  intros L df final detected work r _ Hdual H.
  exact (dual_branch_rows L df final detected Hdual H).
Qed.

Lemma dual_branch_keeps_every_row_witness :
  exists final detected,
    _normalize_statement (L := ascii_library)
      {| columns := ["Debit"; "Credit"]; data := [["1200"; ""]; ["x"; "45000"]] |}
    = Ok (final, detected) /\
    List.length (n_amount final) = 2%nat /\
    amount_col detected = None.
Proof.
  eexists. eexists.
  assert (H : _normalize_statement (L := ascii_library)
                {| columns := ["Debit"; "Credit"];
                   data := [["1200"; ""]; ["x"; "45000"]] |}
              = Ok (finish {| n_date := [None; None];
                              n_amount := [Some (Qabs 1200); Some (Qabs 45000)];
                              n_type := [Some "debit"; Some "credit"];
                              n_balance := [None; None];
                              n_description := [""; ""] |},
                    {| date_col := None; amount_col := None;
                       debit_col := Some "Debit"; credit_col := Some "Credit";
                       type_col := None; balance_col := None;
                       description_col := None |}))
    by reflexivity.
  split; [exact H|].
  destruct (dual_branch_keeps_every_row ascii_library
              {| columns := ["Debit"; "Credit"];
                 data := [["1200"; ""]; ["x"; "45000"]] |} _ _
              ltac:(repeat constructor; intros q [= <-]; vm_compute; discriminate)
              eq_refl H)
    as (dcells & ccells & _ & _ & _ & _ & Hlen & Hc).
  split; [exact Hlen | exact Hc].
Defined.

(** ** The summary is not negative *)

Lemma round_half_even_nonneg (q : Q) : 0 <= q -> (0 <= round_half_even q)%Z.
Proof.
  intros H. unfold round_half_even. cbv zeta.
  assert (Hf : (0 <= Qfloor q)%Z).
  { change 0%Z with (Qfloor 0). now apply Qfloor_resp_le. }
  destruct (Qcompare _ _); [destruct (Z.even _)| |]; lia.
Qed.

Lemma py_round_nonneg (q : Q) (ndigits : nat) : 0 <= q -> 0 <= py_round q ndigits.
Proof.
  intros H. unfold py_round.
  assert (Hz : (0 <= round_half_even (q * inject_Z (Z.pos (ten_pow ndigits))))%Z).
  { apply round_half_even_nonneg. apply Qmult_le_0_compat; [exact H|].
    unfold Qle. cbn. lia. }
  unfold Qle. cbn [Qnum Qden]. lia.
Qed.

Lemma round_sqrt_nonneg (w : Q) : (0 <= round_sqrt w)%Z.
Proof.
  unfold round_sqrt. cbv zeta.
  pose proof (Z.sqrt_nonneg (Qfloor (4 * w))) as Hs.
  set (s := Z.sqrt (Qfloor (4 * w))) in *.
  assert (H2 : (0 <= s / 2)%Z) by (apply Z.div_pos; lia).
  assert (H3 : (0 <= (s + 1) / 2)%Z) by (apply Z.div_pos; lia).
  destruct (Z.odd s && Qeq_bool _ _); [destruct (Z.even _)|]; lia.
Qed.

Lemma py_round_sqrt_nonneg (v : Q) (ndigits : nat) : 0 <= py_round_sqrt v ndigits.
Proof.
  unfold py_round_sqrt. cbv zeta.
  pose proof (round_sqrt_nonneg (v * inject_Z (Z.pos (ten_pow ndigits * ten_pow ndigits)))).
  unfold Qle. cbn [Qnum Qden]. lia.
Qed.

Lemma sum_abs_nonneg (s : list (option Q)) :
  0 <= sum_skipna (List.map (option_map Qabs) s).
Proof.
  induction s as [|[q|] s IH]; cbn [List.map option_map sum_skipna];
    [apply Qle_refl | | exact IH].
  pose proof (Qabs_nonneg q). lra.
Qed.

Lemma select_length_mask {A : Type} (mask : list bool) (s : list A) :
  (List.length (select mask s) <= List.length mask)%nat.
Proof.
  revert s. induction mask as [|b mask IH]; intros s; [apply Nat.le_refl|].
  destruct s as [|x s]; cbn [select List.length]; [lia|].
  specialize (IH s). destruct b; cbn [List.length]; lia.
Qed.

Lemma filter_length_le {A : Type} (p : A -> bool) (l : list A) :
  (List.length (List.filter p l) <= List.length l)%nat.
Proof.
  induction l as [|x l IH]; [apply Nat.le_refl|]. cbn [List.filter].
  destruct (p x); cbn [List.length]; lia.
Qed.

(** X25. In exact arithmetic (sums that neither round nor wrap), whatever
    the table, the summary holds no negative estimate: the income, the
    expenses and the volatility are at least zero.  The UPI frequency is
    at most the number of rows of the raw table. *)
Theorem summary_estimates_nonnegative :
  forall (L : Library) (df : DataFrame) (s : Summary),
    analyze_frame df = Ok s ->
    0 <= monthly_income_estimate s /\
    0 <= monthly_expense_estimate s /\
    0 <= income_volatility_index s /\
    (upi_transaction_frequency s <= List.length (data df))%nat.
Proof.
  intros L df s H. unfold analyze_frame in H.
  assert (Hzero : 0 <= monthly_income_estimate zero_summary /\
                  0 <= monthly_expense_estimate zero_summary /\
                  0 <= income_volatility_index zero_summary /\
                  (upi_transaction_frequency zero_summary
                   <= List.length (data df))%nat).
  { cbn. repeat split; try apply Qle_refl. lia. }
  destruct (df_empty df); [injection H as <-; exact Hzero|].
  bind_inv H as v E. destruct v as [final detected].
  destruct (is_nil (n_amount final)); injection H as <-; [exact Hzero|].
  apply normalize_inv in E as (pre & Hpre & ->).
  apply assemble_facts in Hpre as (_ & Hlen & _).
  unfold summarize. cbv zeta.
  cbn [monthly_income_estimate monthly_expense_estimate
       income_volatility_index upi_transaction_frequency].
  repeat split.
  - apply py_round_nonneg. rewrite sum_if_nil. apply sum_abs_nonneg.
  - apply py_round_nonneg. rewrite sum_if_nil. apply sum_abs_nonneg.
  - destruct (1 <? _)%nat; [apply py_round_sqrt_nonneg|].
    apply py_round_nonneg. apply Qle_refl.
  - assert (Hkeep : forall A (col : list A),
               (List.length (select (List.map notna (n_amount pre)) col)
                <= List.length (data df))%nat).
    { intros A col. rewrite <- Hlen.
      rewrite <- (length_map notna (n_amount pre)). apply select_length_mask. }
    destruct (description_col detected).
    + eapply Nat.le_trans; [apply filter_length_le|].
      rewrite length_map. unfold finish. cbn [n_description]. apply Hkeep.
    + eapply Nat.le_trans; [apply filter_length_le|].
      unfold finish. cbn [n_type]. rewrite length_map. apply Hkeep.
Qed.

Lemma summary_estimates_nonnegative_witness :
  exists s,
    analyze_frame (L := ascii_library) statement_table = Ok s /\
    0 <= monthly_income_estimate s /\
    0 <= monthly_expense_estimate s /\
    0 <= income_volatility_index s /\
    (upi_transaction_frequency s <= 3)%nat.
Proof.
  destruct (statement_table_summary ascii_library) as (s & Hs & _).
  exists s. split; [exact Hs|].
  exact (summary_estimates_nonnegative ascii_library statement_table s Hs).
Defined.

(** ** The exceptions of the analysis *)

Lemma positions_count (col : string) (labels : list string) (j : nat) :
  List.length (positions col labels j) = count_occ string_dec labels col.
Proof.
  revert j. induction labels as [|l rest IH]; intros j; [reflexivity|].
  cbn [positions count_occ]. destruct (string_dec l col) as [-> | Hne].
  - rewrite String.eqb_refl. cbn [List.length]. now rewrite IH.
  - apply String.eqb_neq in Hne. rewrite Hne. apply IH.
Qed.

Lemma getitem_raise (e e' : Exn) (df : DataFrame) (col : string) :
  In col (columns df) -> getitem e df col = Raise e' ->
  e' = e /\ (2 <= count_occ string_dec (columns df) col)%nat.
Proof.
  intros Hin. unfold getitem.
  pose proof (positions_count col (columns df) 0) as Hc.
  destruct (positions col (columns df) 0) as [|j [|k rest]].
  - apply (count_occ_In string_dec) in Hin. cbn [List.length] in Hc. lia.
  - discriminate.
  - intros [= <-]. cbn [List.length] in Hc. split; [reflexivity | lia].
Qed.

Lemma getitem_repeated (e : Exn) (df : DataFrame) (col : string) :
  (2 <= count_occ string_dec (columns df) col)%nat ->
  getitem e df col = Raise e.
Proof.
  intros H. unfold getitem.
  pose proof (positions_count col (columns df) 0) as Hc.
  destruct (positions col (columns df) 0) as [|j [|k rest]];
    cbn [List.length] in Hc; [lia | lia | reflexivity].
Qed.

Lemma bind_raise {A B : Type} (r : Result A) (k : A -> Result B) (e : Exn) :
  bind r k = Raise e -> r = Raise e \/ exists a, r = Ok a /\ k a = Raise e.
Proof. destruct r as [a|e']; cbn [bind]; [eauto | intros [= ->]; auto]. Qed.

Lemma role_getitem_raise (e e' : Exn) (work : DataFrame) (o : option string) :
  names_column work o -> Str.truthy o = true ->
  getitem e work (label_of o) = Raise e' ->
  e' = e /\ (2 <= count_occ string_dec (columns work) (label_of o))%nat.
Proof.
  intros Hn Ht. apply getitem_raise. apply Hn. now apply truthy_label.
Qed.

Lemma best_scan_raise (work : DataFrame) (excluded cols : list string)
  (best : option string) (score : Q) (e : Exn) :
  incl cols (columns work) ->
  best_scan work excluded cols best score = Raise e -> e = AttributeError.
Proof.
  revert best score. induction cols as [|col rest IH]; intros best score Hincl;
    cbn [best_scan]; [discriminate|].
  assert (Hrest : incl rest (columns work))
    by (intros c Hc; apply Hincl; now right).
  destruct (existsb (String.eqb col) excluded); [now apply IH|].
  intros H. apply bind_raise in H as [H | (cells & _ & H)].
  - apply getitem_raise in H as [-> _]; [reflexivity|]. apply Hincl. now left.
  - destruct (nan_gt _ _); eapply IH; eauto.
Qed.

Lemma best_scan_names (work : DataFrame) (excluded cols : list string)
  (best b : option string) (score s : Q) :
  incl cols (columns work) -> names_column work best ->
  best_scan work excluded cols best score = Ok (b, s) -> names_column work b.
Proof.
  revert best score. induction cols as [|col rest IH]; intros best score Hincl Hbest;
    cbn [best_scan].
  - now intros [= <- _].
  - assert (Hrest : incl rest (columns work))
      by (intros c Hc; apply Hincl; now right).
    destruct (existsb (String.eqb col) excluded); [now apply IH|].
    intros H. bind_inv H as cells E.
    destruct (nan_gt _ _); (eapply IH; [exact Hrest | | exact H]);
      [|exact Hbest].
    intros c [= <-]. apply Hincl. now left.
Qed.

Section Raises.
Context {L : Library}.
Variable work : DataFrame.

Let r : Detected := resolve_roles work.

Lemma parse_twice_raise (cells : list string) (e : Exn) :
  (parsed_dates <- parse_dates true cells ;;
   if nan_lt (notna_mean parsed_dates) (3 # 10)
   then parse_dates false cells
   else Ok parsed_dates) = Raise e <->
  e = ValueError /\ parser_raises cells = true.
Proof.
  unfold parse_dates, parser_raises.
  destruct (to_datetime true cells) as [parsed|]; cbn [bind].
  - destruct (nan_lt (notna_mean parsed) (3 # 10)); cbn [andb].
    + destruct (to_datetime false cells).
      * split; [discriminate | intros [_ H]; discriminate].
      * split; [intros [= <-]; auto | intros [-> _]; reflexivity].
    + split; [discriminate | intros [_ H]; discriminate].
  - split; [intros [= <-]; auto | intros [-> _]; reflexivity].
Qed.

Lemma date_column_raise (e : Exn) :
  date_column work r = Raise e ->
  e = ValueError /\ Str.truthy (date_col r) = true /\
  ((2 <= count_occ string_dec (columns work) (label_of (date_col r)))%nat
   \/ dates_rejected work).
Proof.
  unfold date_column. destruct (Str.truthy (date_col r)) eqn:Ht; [|discriminate].
  intros H. apply bind_raise in H as [H | (cells & Hcells & H)].
  - apply role_getitem_raise in H as [-> Hc]; auto.
    apply roles_name_columns.
  - apply parse_twice_raise in H as [-> H].
    repeat split. right. exists cells. auto.
Qed.

Lemma date_column_raises :
  Str.truthy (date_col r) = true ->
  (2 <= count_occ string_dec (columns work) (label_of (date_col r)))%nat
  \/ dates_rejected work ->
  date_column work r = Raise ValueError.
Proof.
  intros Ht [Hc | (cells & Hcells & Hp)]; unfold date_column; rewrite Ht.
  - now rewrite getitem_repeated.
  - fold r in Hcells. rewrite Hcells. cbn [bind].
    apply parse_twice_raise. auto.
Qed.

Lemma amount_and_type_raise (e : Exn) :
  amount_and_type work r = Raise e -> e = AttributeError.
Proof.
  pose proof (roles_name_columns work) as (_ & _ & Hty & Hde & Hdb & Hcr & Ham).
  fold r in Hty, Hde, Hdb, Hcr, Ham.
  unfold amount_and_type. destruct (dual r) eqn:Hdual.
  - unfold dual in Hdual. apply andb_true_iff in Hdual as [Hd Hc].
    intros H. apply bind_raise in H as [H | (dcells & _ & H)].
    { now apply role_getitem_raise in H as [-> _]. }
    apply bind_raise in H as [H | (ccells & _ & H)]; [|discriminate].
    now apply role_getitem_raise in H as [-> _].
  - intros H. apply bind_raise in H as [H | (c & Hc & H)].
    { unfold resolve_amount_col in H. destruct (amount_col r); [discriminate|].
      unfold _best_numeric_column in H.
      apply bind_raise in H as [H | ([b s] & _ & H)].
      - eapply best_scan_raise; [apply incl_refl | exact H].
      - destruct (Qltb s (3 # 10)); discriminate. }
    assert (Hname : names_column work c).
    { unfold resolve_amount_col in Hc. destruct (amount_col r) as [a|] eqn:Ea.
      - injection Hc as <-. intros x [= <-]. apply Ham. reflexivity.
      - unfold _best_numeric_column in Hc. bind_inv Hc as v Ev.
        destruct v as [b s]. destruct (Qltb s (3 # 10)); injection Hc as <-.
        + intros x Hx. discriminate.
        + eapply best_scan_names; [apply incl_refl | | exact Ev].
          intros x Hx. discriminate. }
    apply bind_raise in H as [H | (amount & _ & H)].
    { unfold raw_amount in H. destruct (Str.truthy c) eqn:Ht; [|discriminate].
      apply bind_raise in H as [H | (cells & _ & H)]; [|discriminate].
      now apply role_getitem_raise in H as [-> _]. }
    apply bind_raise in H as [H | (tx & _ & H)]; [|discriminate].
    unfold single_type in H.
    destruct (Str.truthy (type_col r)) eqn:Ht.
    { apply bind_raise in H as [H | (cells & _ & H)]; [|discriminate].
      now apply role_getitem_raise in H as [-> _]. }
    destruct (Str.truthy (description_col r)) eqn:Hd; [|discriminate].
    apply bind_raise in H as [H | (cells & _ & H)]; [|discriminate].
    now apply role_getitem_raise in H as [-> _].
Qed.

End Raises.

Lemma column_stage_raise (L : Library) (work : DataFrame) (e : Exn) :
  balance_column work (resolve_roles work) = Raise e
  \/ description_column work (resolve_roles work) = Raise e ->
  e = AttributeError.
Proof.
  pose proof (roles_name_columns work) as (_ & Hb & _ & Hd & _).
  unfold balance_column, description_column. intros [H | H].
  - destruct (Str.truthy (balance_col _)) eqn:Ht; [|discriminate].
    apply bind_raise in H as [H | (cells & _ & H)]; [|discriminate].
    now apply role_getitem_raise in H as [-> _].
  - destruct (Str.truthy (description_col _)) eqn:Ht; [|discriminate].
    apply bind_raise in H as [H | (cells & _ & H)]; [|discriminate].
    now apply role_getitem_raise in H as [-> _].
Qed.

(** Where an exception of the analysis comes from. *)
Lemma analyze_frame_raise (L : Library) (df : DataFrame) (e : Exn) :
  analyze_frame df = Raise e ->
  df_empty df = false /\
  (date_column (work_of df) (resolve_roles (work_of df)) = Raise e
   \/ ((exists d, date_column (work_of df) (resolve_roles (work_of df)) = Ok d)
       /\ e = AttributeError)).
Proof.
  unfold analyze_frame. destruct (df_empty df); [discriminate|].
  intros H. split; [reflexivity|].
  apply bind_raise in H as [H | ([final detected] & _ & H)];
    [|destruct (is_nil _); discriminate].
  unfold _normalize_statement in H.
  apply bind_raise in H as [H | ([pre detected] & _ & H)]; [|discriminate].
  unfold assemble in H. cbv zeta in H.
  apply bind_raise in H as [H | (d & Hd & H)]; [now left|].
  right. split; [eauto|].
  apply bind_raise in H as [H | ([[amount tx] c] & _ & H)].
  { eapply amount_and_type_raise; eauto. }
  apply bind_raise in H as [H | (b & _ & H)].
  { eapply column_stage_raise; eauto. }
  apply bind_raise in H as [H | (ds & _ & H)]; [|discriminate].
  eapply column_stage_raise; eauto.
Qed.

(** The analysis of a table raises [ValueError] exactly when the table
    is not empty, a date column is resolved, and its label is repeated or
    the date parser raises on its cells. *)
Lemma analyze_frame_value_error (L : Library) (df : DataFrame) :
  analyze_frame df = Raise ValueError <->
  df_empty df = false /\
  Str.truthy (date_col (resolve_roles (work_of df))) = true /\
  ((2 <= count_occ string_dec (columns (work_of df))
           (label_of (date_col (resolve_roles (work_of df)))))%nat
   \/ dates_rejected (work_of df)).
Proof.
  split.
  - intros H. apply analyze_frame_raise in H as [He [H | [_ H]]];
      [|discriminate].
    apply date_column_raise in H as (_ & Ht & Hc). auto.
  - intros (He & Ht & Hc). unfold analyze_frame. rewrite He.
    unfold _normalize_statement, assemble. cbv zeta.
    now rewrite (date_column_raises (work_of df) Ht Hc).
Qed.

(** With distinct stripped labels only the date column can raise. *)
Lemma analyze_frame_raise_distinct (L : Library) (df : DataFrame) (e : Exn) :
  NoDup (List.map Str.strip (columns df)) ->
  analyze_frame df = Raise e ->
  e = ValueError /\ df_empty df = false /\
  Str.truthy (date_col (resolve_roles (work_of df))) = true /\
  dates_rejected (work_of df).
Proof.
  intros Hnd H.
  assert (Hw : NoDup (columns (work_of df))) by exact Hnd.
  assert (Hdate : date_column (work_of df) (resolve_roles (work_of df)) = Raise e).
  { unfold analyze_frame in H. destruct (df_empty df); [discriminate|].
    apply bind_raise in H as [H | ([final detected] & _ & H)];
      [|destruct (is_nil _); discriminate].
    unfold _normalize_statement in H.
    apply bind_raise in H as [H | ([pre detected] & _ & H)]; [|discriminate].
    unfold assemble in H. cbv zeta in H.
    apply bind_raise in H as [H | (d & Hd & H)]; [exact H|].
    destruct (amount_and_type_ok (work_of df) Hw) as [[[amount tx] c] E].
    rewrite E in H. cbn [bind] in H.
    destruct (balance_column_ok (work_of df) Hw) as [b Eb].
    rewrite Eb in H. cbn [bind] in H.
    destruct (description_column_ok (work_of df) Hw) as [ds Eds].
    rewrite Eds in H. discriminate. }
  apply analyze_frame_raise in H as [He _].
  apply date_column_raise in Hdate as (-> & Ht & [Hc | Hp]); [|auto].
  exfalso. rewrite (NoDup_count_occ string_dec) in Hw.
  specialize (Hw (label_of (date_col (resolve_roles (work_of df))))). lia.
Qed.

(** X26. [analyze_bank_statement] raises [ValueError] exactly when the
    loaded table is not empty, a date column is resolved, and either its
    label occurs more than once among the stripped labels or the date
    parser raises on its cells (at the first call, or at the second one,
    made when fewer than 30% of the cells parsed). *)
Theorem value_error_iff_date_column_fails :
  forall (L : Library) (contents : list byte) (filename : option string),
    let work := work_of (fst (_load_statement_dataframe contents filename)) in
    let r := resolve_roles work in
    analyze_bank_statement contents filename = Raise ValueError <->
    df_empty (fst (_load_statement_dataframe contents filename)) = false /\
    Str.truthy (date_col r) = true /\
    ((2 <= count_occ string_dec (columns work) (label_of (date_col r)))%nat
     \/ exists cells : list string,
          getitem ValueError work (label_of (date_col r)) = Ok cells /\
          parser_raises cells = true).
Proof.
  intros L contents filename. cbv zeta. rewrite analyze_via_frame.
  apply analyze_frame_value_error.
Qed.

(** X27. The analysis of a table never raises [KeyError]: every column it
    selects was resolved among the labels.  When the stripped labels are
    pairwise distinct it raises only [ValueError], and only because the
    date parser raises on the cells of the date column; every other
    exception needs two equal stripped labels. *)
Theorem analysis_never_raises_key_error :
  forall (L : Library) (df : DataFrame) (e : Exn),
    analyze_frame df = Raise e ->
    e <> KeyError /\
    (NoDup (List.map Str.strip (columns df)) ->
     e = ValueError /\
     exists cells : list string,
       getitem ValueError (work_of df)
         (label_of (date_col (resolve_roles (work_of df)))) = Ok cells /\
       parser_raises cells = true).
Proof.
  intros L df e H. split.
  - apply analyze_frame_raise in H as [_ [H | [_ ->]]]; [|discriminate].
    apply date_column_raise in H as (-> & _). discriminate.
  - intros Hnd.
    destruct (analyze_frame_raise_distinct L df e Hnd H) as (-> & _ & _ & Hp).
    split; [reflexivity | exact Hp].
Qed.

Lemma analysis_never_raises_key_error_witness :
  ValueError <> KeyError /\
  (NoDup (List.map Str.strip ["Date"; "Amount"]) ->
   ValueError = ValueError /\
   exists cells : list string,
     getitem ValueError (work_of mixed_offsets_table)
       (label_of (date_col (resolve_roles (work_of mixed_offsets_table))))
     = Ok cells /\
     parser_raises (L := offsets_library) cells = true).
Proof.
  apply (analysis_never_raises_key_error offsets_library mixed_offsets_table
           ValueError).
  vm_compute. reflexivity.
Defined.

(** ** The numeric normaliser *)

Lemma filter_filter_numeric (s : string) :
  clean_numeric s = Str.filter numeric_char s.
Proof.
  unfold clean_numeric. induction s as [|c s IH]; [reflexivity|].
  cbn [Str.filter]. destruct (Ascii.eqb c ","%char) eqn:Ec; cbn [negb].
  - apply Ascii.eqb_eq in Ec. subst c. exact IH.
  - cbn [Str.filter]. fold (numeric_char c). destruct (numeric_char c);
      now rewrite IH.
Qed.

(** X28. [_to_numeric] reads a cell through its digits, dots and minus
    signs only: a character of any other kind, wherever it stands in the
    cell, does not change the value read, and a cell and its cleaned text
    read alike. *)
Theorem to_numeric_ignores_other_characters :
  forall (before after : string) (c : ascii),
    numeric_char c = false ->
    to_numeric_cell (before ++ String c after)
    = to_numeric_cell (before ++ after) /\
    to_numeric_cell (clean_numeric (before ++ after))
    = to_numeric_cell (before ++ after).
Proof.
  intros before after c Hc. unfold to_numeric_cell.
  rewrite !filter_filter_numeric, !filter_app. cbn [Str.filter]. rewrite Hc.
  split; [reflexivity|].
  assert (Hidem : forall s, Str.filter numeric_char (Str.filter numeric_char s)
                            = Str.filter numeric_char s).
  { induction s as [|x s IH]; [reflexivity|]. cbn [Str.filter].
    destruct (numeric_char x) eqn:Ex; [|exact IH].
    cbn [Str.filter]. now rewrite Ex, IH. }
  now rewrite !Hidem.
Qed.

Lemma to_numeric_ignores_other_characters_witness :
  to_numeric_cell ("1" ++ String ","%char "200.50")
  = to_numeric_cell ("1" ++ "200.50") /\
  to_numeric_cell (clean_numeric ("1" ++ "200.50"))
  = to_numeric_cell ("1" ++ "200.50").
Proof.
  apply (to_numeric_ignores_other_characters "1" "200.50" ","%char).
  reflexivity.
Defined.

(** ** The statement endpoint *)

(** X29. The endpoint answers 200 with the summary whenever the stripped
    labels of the loaded table are pairwise distinct and the date parser
    returns on the date column; it answers 400 exactly when the table is
    not empty, a date column is resolved, and its label is repeated or the
    date parser raises on its cells; it answers 500 only for an
    [AttributeError], which needs two equal stripped labels. *)
Theorem statement_endpoint_status :
  forall (L : Library) (contents : list byte) (filename : option string),
    let frame := fst (_load_statement_dataframe contents filename) in
    let work := work_of frame in
    let r := resolve_roles work in
    (NoDup (columns work) -> dates_accepted work ->
     exists summary, parse_bank_statement contents filename = Http200 summary) /\
    (parse_bank_statement contents filename = Http400 <->
     df_empty frame = false /\ Str.truthy (date_col r) = true /\
     ((2 <= count_occ string_dec (columns work) (label_of (date_col r)))%nat
      \/ exists cells : list string,
           getitem ValueError work (label_of (date_col r)) = Ok cells /\
           parser_raises cells = true)) /\
    (parse_bank_statement contents filename = Http500 ->
     analyze_bank_statement contents filename = Raise AttributeError /\
     ~ NoDup (columns work)).
Proof.
  intros L contents filename. cbv zeta. unfold parse_bank_statement.
  rewrite analyze_via_frame.
  set (frame := fst (_load_statement_dataframe contents filename)).
  pose proof (analyze_frame_value_error L frame) as Hv.
  split; [|split].
  - intros Hnd Hdates.
    destruct (analyze_frame_ok L frame Hnd Hdates) as [s ->]. eauto.
  - change (exists cells : list string,
             getitem ValueError (work_of frame)
               (label_of (date_col (resolve_roles (work_of frame)))) = Ok cells /\
             parser_raises cells = true)
      with (dates_rejected (work_of frame)).
    rewrite <- Hv. destruct (analyze_frame frame) as [s|[]];
      split; intros H; try discriminate; reflexivity.
  - destruct (analyze_frame frame) as [s|e] eqn:E; [discriminate|].
    destruct e; try discriminate; intros _.
    + split; [reflexivity|]. intros Hnd.
      destruct (analyze_frame_raise_distinct L frame _ Hnd E) as (E' & _).
      discriminate.
    + apply analyze_frame_raise in E as [_ [E | [_ E]]]; [|discriminate].
      apply date_column_raise in E as (E & _). discriminate.
Qed.

(** ** The volatility of equal credits *)

Lemma sum_const (s : list (option Q)) (c : Q) :
  Forall (fun a => exists q, a = Some q /\ q == c) s ->
  sum_skipna s == inject_Z (Z.of_nat (List.length s)) * c /\
  count_notna s = List.length s.
Proof.
  unfold count_notna.
  induction 1 as [|a s (q & -> & Hq) _ [IHs IHc]].
  - split; [cbn; ring | reflexivity].
  - cbn [sum_skipna List.filter notna List.length]. rewrite IHs, IHc, Hq.
    split; [|reflexivity].
    rewrite Nat2Z.inj_succ, <- Z.add_1_r, inject_Z_plus.
    change (inject_Z 1) with 1. ring.
Qed.

Lemma mean_const (s : list (option Q)) (c : Q) :
  s <> [] ->
  Forall (fun a => exists q, a = Some q /\ q == c) s ->
  mean_skipna s == c.
Proof.
  intros Hne H. unfold mean_skipna.
  destruct (sum_const s c H) as [-> ->].
  assert (Hn : ~ inject_Z (Z.of_nat (List.length s)) == 0).
  { destruct s; [contradiction|]. cbn [List.length].
    unfold Qeq. cbn [Qnum Qden inject_Z]. lia. }
  field. exact Hn.
Qed.

Lemma var_pop_const (s : list (option Q)) (c : Q) :
  s <> [] ->
  Forall (fun a => exists q, a = Some q /\ q == c) s ->
  var_pop s == 0.
Proof.
  intros Hne H. unfold var_pop. cbv zeta.
  pose proof (mean_const s c Hne H) as Hm.
  apply mean_const.
  - destruct s; [contradiction | discriminate].
  - rewrite Forall_map. eapply Forall_impl; [|exact H].
    intros a (q & -> & Hq). cbn [option_map]. eexists. split; [reflexivity|].
    rewrite Hm, Hq. ring.
Qed.

Lemma round_sqrt_comp (x y : Q) : x == y -> round_sqrt x = round_sqrt y.
Proof.
  intros H. unfold round_sqrt. cbv zeta.
  assert (Hf : Qfloor (4 * x) = Qfloor (4 * y)) by now rewrite H.
  rewrite Hf.
  assert (Hb : Qeq_bool
                 (inject_Z (Z.sqrt (Qfloor (4 * y)) * Z.sqrt (Qfloor (4 * y))))
                 (4 * x)
               = Qeq_bool
                   (inject_Z (Z.sqrt (Qfloor (4 * y)) * Z.sqrt (Qfloor (4 * y))))
                   (4 * y)).
  { destruct (Qeq_bool _ (4 * y)) eqn:E.
    - apply Qeq_bool_iff in E. apply Qeq_bool_iff. now rewrite H.
    - destruct (Qeq_bool _ (4 * x)) eqn:E'; [|reflexivity].
      apply Qeq_bool_iff in E'. rewrite H in E'. apply Qeq_bool_iff in E'.
      congruence. }
  now rewrite Hb.
Qed.

Lemma py_round_sqrt_zero (v : Q) (ndigits : nat) :
  v == 0 -> py_round_sqrt v ndigits == 0.
Proof.
  intros H. unfold py_round_sqrt. cbv zeta.
  rewrite (round_sqrt_comp _ 0) by (rewrite H; ring).
  reflexivity.
Qed.

(** X30. In exact arithmetic, when every credit transaction of the
    canonical table has the same amount, the income volatility index is
    zero; it is zero as well, in any arithmetic, when there are fewer than
    two credit transactions. *)
Theorem equal_credits_zero_volatility :
  forall (L : Library) (df : Normalized) (detected : Detected) (c : Q),
    Forall (fun a => exists q, a = Some q /\ q == c) (amounts_of "credit" df)
    \/ (List.length (amounts_of "credit" df) <= 1)%nat ->
    income_volatility_index (summarize df detected) == 0.
Proof.
  intros L df detected c H. unfold summarize. cbv zeta.
  cbn [income_volatility_index].
  destruct (1 <? List.length (amounts_of "credit" df))%nat eqn:E.
  - apply Nat.ltb_lt in E. destruct H as [H | H]; [|lia].
    apply py_round_sqrt_zero. apply (var_pop_const _ c); [|exact H].
    destruct (amounts_of "credit" df); [cbn in E; lia | discriminate].
  - apply py_round_zero. reflexivity.
Qed.

Lemma equal_credits_zero_volatility_witness :
  income_volatility_index
    (summarize (L := ascii_library)
       {| n_date := [None; None; None];
          n_amount := [Some 45000; Some 1200; Some 45000];
          n_type := [Some "credit"; Some "debit"; Some "credit"];
          n_balance := [None; None; None];
          n_description := [""; ""; ""] |} no_roles) == 0.
Proof.
  apply (equal_credits_zero_volatility ascii_library _ no_roles 45000).
  left. repeat constructor; eexists; split; reflexivity.
Defined.

(** * Properties of the risk assessment *)

Module RiskFacts.
Import Risk.

(** ** The instalment formula *)

Lemma py_max_ge_l (a b : Q) : a <= py_max a b.
Proof.
  unfold py_max. destruct (Qltb a b) eqn:E; [|apply Qle_refl].
  apply Qltb_lt in E. now apply Qlt_le_weak.
Qed.

Lemma py_max_ge_r (a b : Q) : b <= py_max a b.
Proof.
  unfold py_max. destruct (Qltb a b) eqn:E; [apply Qle_refl|].
  now apply Qltb_ge in E.
Qed.

Lemma py_max_cases (a b : Q) : py_max a b = a \/ py_max a b = b.
Proof. unfold py_max. destruct (Qltb a b); auto. Qed.

Lemma py_min_le_l (a b : Q) : py_min a b <= a.
Proof.
  unfold py_min. destruct (Qltb b a) eqn:E; [|apply Qle_refl].
  apply Qltb_lt in E. now apply Qlt_le_weak.
Qed.

Lemma py_min_le_r (a b : Q) : py_min a b <= b.
Proof.
  unfold py_min. destruct (Qltb b a) eqn:E; [apply Qle_refl|].
  now apply Qltb_ge in E.
Qed.

Lemma py_min_cases (a b : Q) : py_min a b = a \/ py_min a b = b.
Proof. unfold py_min. destruct (Qltb b a); auto. Qed.

(** [_clamp] keeps a value inside a non-empty interval and leaves a value
    of the interval alone. *)
Lemma clamp_bounds (value low high : Q) :
  low <= high -> low <= _clamp value low high <= high.
Proof.
  intros H. unfold _clamp. split; [apply py_max_ge_l|].
  destruct (py_max_cases low (py_min high value)) as [-> | ->];
    [exact H | apply py_min_le_l].
Qed.

Lemma clamp_inside (value low high : Q) :
  low <= value <= high -> _clamp value low high == value.
Proof.
  intros [Hl Hh]. unfold _clamp, py_max, py_min.
  destruct (Qltb value high) eqn:E1.
  - destruct (Qltb low value) eqn:E2; [reflexivity|].
    apply Qltb_ge in E2. now apply Qle_antisym.
  - apply Qltb_ge in E1.
    destruct (Qltb low high) eqn:E2; [now apply Qle_antisym|].
    apply Qltb_ge in E2. apply Qle_antisym; lra.
Qed.

Lemma monthly_rate_scale (annual_rate : Q) :
  annual_rate / 12 / 100 == annual_rate * (1 # 1200).
Proof. field. Qed.

Lemma monthly_rate_pos (annual_rate : Q) :
  0 < annual_rate -> 0 < annual_rate / 12 / 100.
Proof. intros H. rewrite monthly_rate_scale. lra. Qed.

Lemma Qeq_bool_false (x y : Q) : ~ x == y -> Qeq_bool x y = false.
Proof.
  intros H. destruct (Qeq_bool x y) eqn:E; [|reflexivity].
  apply Qeq_bool_eq in E. contradiction.
Qed.

Lemma Qeq_bool_true (x y : Q) : x == y -> Qeq_bool x y = true.
Proof. apply Qeq_eq_bool. Qed.

(** Compound growth over a positive number of months exceeds 1. *)
Lemma factor_gt_1 (r : Q) (n : Z) : 0 < r -> (0 < n)%Z -> 1 < (1 + r) ^ n.
Proof.
  intros Hr Hn. apply Qpower_1_lt; [lra | exact Hn].
Qed.

Lemma factor_lt_1 (r : Q) (n : Z) : 0 < r -> (n < 0)%Z -> (1 + r) ^ n < 1.
Proof.
  intros Hr Hn.
  assert (H1 : 1 < (1 + r) ^ (- n)) by (apply factor_gt_1; [exact Hr | lia]).
  rewrite Qpower_opp in H1.
  assert (Hp : 0 < (1 + r) ^ n) by (apply Qpower_0_lt; lra).
  apply Qnot_le_lt. intros Hle.
  assert (Hi : / (1 + r) ^ n <= 1).
  { apply Qle_shift_inv_r; [exact Hp | lra]. }
  lra.
Qed.

(** The instalment with interest, when it is defined. *)
Lemma emi_with_interest (principal annual_rate : Q) (n : Z) :
  0 < annual_rate -> (n <> 0)%Z ->
  let r := annual_rate / 12 / 100 in
  _emi principal annual_rate n
  = Val (principal * r * (1 + r) ^ n / ((1 + r) ^ n - 1))
  /\ ~ (1 + r) ^ n - 1 == 0.
Proof.
  intros Hrate Hn r.
  assert (Hr : 0 < r) by now apply monthly_rate_pos.
  assert (Hf : ~ (1 + r) ^ n - 1 == 0).
  { destruct (Z.lt_total n 0) as [Hneg | [-> | Hpos]]; [|contradiction|].
    - pose proof (factor_lt_1 r n Hr Hneg). lra.
    - pose proof (factor_gt_1 r n Hr Hpos). lra. }
  split; [|exact Hf].
  unfold _emi. fold r. rewrite Qeq_bool_false by lra.
  unfold float_pow. rewrite (Qeq_bool_false (1 + r) 0) by lra.
  rewrite andb_false_r. cbn [rbind]. unfold float_div.
  now rewrite Qeq_bool_false.
Qed.

(** X1. A tenure of zero months makes [_emi] raise (ZeroDivisionError).
    In exact arithmetic, where [1 + monthly_rate] differs from 1 for every
    positive rate, it is the only case: for a non-negative annual rate
    [_emi] raises exactly when the tenure is zero months. *)
Theorem emi_raises_iff_zero_tenure :
  forall (principal annual_rate : Q) (tenure_months : Z),
    0 <= annual_rate ->
    (_emi principal annual_rate tenure_months = Err ZeroDivisionError
     <-> tenure_months = 0%Z).
Proof.
  intros principal annual_rate n Hrate.
  destruct (Qlt_le_dec 0 annual_rate) as [Hpos | Hzero].
  - split.
    + intros H. destruct (Z.eq_dec n 0) as [-> | Hn]; [reflexivity|].
      destruct (emi_with_interest principal annual_rate n Hpos Hn) as [E _].
      rewrite E in H. discriminate.
    + intros ->. unfold _emi.
      rewrite Qeq_bool_false by (pose proof (monthly_rate_pos _ Hpos); lra).
      unfold float_pow. cbn [Z.ltb Z.compare andb rbind]. unfold float_div.
      now rewrite Qeq_bool_true by (cbn; ring).
  - assert (Hr : annual_rate / 12 / 100 == 0)
      by (rewrite monthly_rate_scale; apply Qle_antisym; lra).
    unfold _emi. rewrite (Qeq_bool_true _ _ Hr). unfold float_div.
    split.
    + destruct (Qeq_bool (inject_Z n) 0) eqn:E; [|discriminate].
      intros _. apply Qeq_bool_eq in E. unfold Qeq in E. cbn in E. lia.
    + intros ->. reflexivity.
Qed.

Lemma emi_raises_iff_zero_tenure_witness :
  _emi 120000 14 0 = Err ZeroDivisionError <-> 0%Z = 0%Z.
Proof. apply (emi_raises_iff_zero_tenure 120000 14 0). discriminate. Defined.

Lemma factor_succ (r : Q) (k : nat) :
  0 < r -> (1 + r) ^ Z.of_nat (S k) == (1 + r) ^ Z.of_nat k * (1 + r).
Proof.
  intros Hr. rewrite Nat2Z.inj_succ, <- Z.add_1_r.
  rewrite Qpower_plus by lra. now rewrite Qpower_1_r.
Qed.

Lemma outstanding_closed_form (principal r instalment : Q) (k : nat) :
  0 < r ->
  outstanding principal r instalment k * r
  == principal * r * (1 + r) ^ Z.of_nat k
     - instalment * ((1 + r) ^ Z.of_nat k - 1).
Proof.
  intros Hr. induction k as [|k IH].
  - cbn [outstanding Z.of_nat Qpower]. ring.
  - rewrite factor_succ by exact Hr. cbn [outstanding].
    transitivity ((outstanding principal r instalment k * r) * (1 + r)
                  - instalment * r); [ring|].
    rewrite IH. ring.
Qed.

Lemma outstanding_without_interest (principal r instalment : Q) (k : nat) :
  r == 0 ->
  outstanding principal r instalment k
  == principal - inject_Z (Z.of_nat k) * instalment.
Proof.
  intros Hr. induction k as [|k IH].
  - cbn [outstanding Z.of_nat]. ring.
  - cbn [outstanding]. rewrite IH, Hr, Nat2Z.inj_succ, <- Z.add_1_r, inject_Z_plus.
    change (inject_Z 1) with 1. ring.
Qed.

(** X2. The instalment [_emi] returns amortises the loan: paid at the end
    of each month of the tenure, with the balance growing at the monthly
    rate, it leaves a balance of exactly zero. *)
Theorem emi_amortises_the_loan :
  forall (principal annual_rate instalment : Q) (months : nat),
    0 <= annual_rate ->
    months <> O ->
    _emi principal annual_rate (Z.of_nat months) = Val instalment ->
    outstanding principal (annual_rate / 12 / 100) instalment months == 0.
Proof.
  intros principal annual_rate instalment months Hrate Hm He.
  assert (Hn : (Z.of_nat months <> 0)%Z) by lia.
  destruct (Qlt_le_dec 0 annual_rate) as [Hpos | Hzero].
  - destruct (emi_with_interest principal annual_rate _ Hpos Hn) as [E Hf].
    rewrite E in He. injection He as <-.
    set (r := annual_rate / 12 / 100) in *.
    assert (Hr : 0 < r) by now apply monthly_rate_pos.
    pose proof (outstanding_closed_form principal r
                  (principal * r * (1 + r) ^ Z.of_nat months
                   / ((1 + r) ^ Z.of_nat months - 1)) months Hr) as Hc.
    set (o := outstanding _ _ _ _) in *.
    assert (Ho : o * r == 0).
    { rewrite Hc. field. exact Hf. }
    apply Qmult_integral in Ho. destruct Ho as [Ho | Ho]; [exact Ho | lra].
  - assert (Hr : annual_rate / 12 / 100 == 0)
      by (rewrite monthly_rate_scale; apply Qle_antisym; lra).
    unfold _emi in He. rewrite (Qeq_bool_true _ _ Hr) in He.
    unfold float_div in He.
    destruct (Qeq_bool (inject_Z (Z.of_nat months)) 0) eqn:E; [discriminate|].
    injection He as <-.
    rewrite outstanding_without_interest by exact Hr.
    field. intros H0. apply Qeq_eq_bool in H0. congruence.
Qed.

Lemma emi_amortises_the_loan_witness :
  exists instalment,
    _emi 1200 12 2 = Val instalment /\
    outstanding 1200 (12 / 12 / 100) instalment 2 == 0.
Proof.
  exists (30460022784000000 # 50015232000000). split; [reflexivity|].
  apply (emi_amortises_the_loan 1200 12 _ 2).
  - discriminate.
  - discriminate.
  - reflexivity.
Defined.

(** Compound growth is at most linear growth times the final factor. *)
Lemma growth_bound (r : Q) (k : nat) :
  0 < r ->
  (1 + r) ^ Z.of_nat k - 1 <= inject_Z (Z.of_nat k) * r * (1 + r) ^ Z.of_nat k.
Proof.
  intros Hr. induction k as [|k IH].
  - cbn [Z.of_nat Qpower]. change (inject_Z 0) with 0. lra.
  - rewrite factor_succ by exact Hr.
    rewrite Nat2Z.inj_succ, <- Z.add_1_r, inject_Z_plus.
    change (inject_Z 1) with 1.
    assert (Hf : 1 <= (1 + r) ^ Z.of_nat k).
    { destruct k; [cbn; lra|]. apply Qlt_le_weak, factor_gt_1; [exact Hr | lia]. }
    set (f := (1 + r) ^ Z.of_nat k) in *.
    set (n := inject_Z (Z.of_nat k)) in *.
    assert (Hn : 0 <= n).
    { unfold n. change 0 with (inject_Z 0). rewrite <- Zle_Qle. lia. }
    nra.
Qed.

(** X3. In exact arithmetic, with a non-negative principal and rate, the
    instalments paid over the tenure add up to at least the principal. *)
Theorem emi_repays_at_least_principal :
  forall (principal annual_rate instalment : Q) (months : nat),
    0 <= principal ->
    0 <= annual_rate ->
    months <> O ->
    _emi principal annual_rate (Z.of_nat months) = Val instalment ->
    principal <= instalment * inject_Z (Z.of_nat months).
Proof.
  intros principal annual_rate instalment months Hp Hrate Hm He.
  assert (Hn : (Z.of_nat months <> 0)%Z) by lia.
  assert (Hnq : 0 < inject_Z (Z.of_nat months)).
  { change 0 with (inject_Z 0). rewrite <- Zlt_Qlt. lia. }
  destruct (Qlt_le_dec 0 annual_rate) as [Hpos | Hzero].
  - destruct (emi_with_interest principal annual_rate _ Hpos Hn) as [E Hf].
    rewrite E in He. injection He as <-.
    set (r := annual_rate / 12 / 100) in *.
    assert (Hr : 0 < r) by now apply monthly_rate_pos.
    pose proof (growth_bound r months Hr) as Hg.
    pose proof (factor_gt_1 r (Z.of_nat months) Hr ltac:(lia)) as Hf1.
    set (f := (1 + r) ^ Z.of_nat months) in *.
    set (n := inject_Z (Z.of_nat months)) in *.
    assert (Hd : 0 < f - 1) by lra.
    setoid_replace (principal * r * f / (f - 1) * n)
      with (principal * (n * r * f) / (f - 1)) by (field; lra).
    apply Qle_shift_div_l; [exact Hd|]. nra.
  - assert (Hr : annual_rate / 12 / 100 == 0)
      by (rewrite monthly_rate_scale; apply Qle_antisym; lra).
    unfold _emi in He. rewrite (Qeq_bool_true _ _ Hr) in He.
    unfold float_div in He.
    destruct (Qeq_bool (inject_Z (Z.of_nat months)) 0) eqn:E; [discriminate|].
    injection He as <-.
    setoid_replace (principal / inject_Z (Z.of_nat months)
                    * inject_Z (Z.of_nat months)) with principal
      by (field; lra).
    apply Qle_refl.
Qed.


Lemma emi_repays_at_least_principal_witness :
  exists instalment,
    _emi 1200 12 2 = Val instalment /\
    1200 <= instalment * inject_Z (Z.of_nat 2).
Proof.
  exists (30460022784000000 # 50015232000000). split; [reflexivity|].
  apply (emi_repays_at_least_principal 1200 12 _ 2).
  - discriminate.
  - discriminate.
  - discriminate.
  - reflexivity.
Defined.

(** ** The tenure search *)

Lemma range_from_bounds (start step : Z) (count : nat) (t : Z) :
  (0 <= step)%Z -> In t (range_from start step count) ->
  (start <= t <= start + step * (Z.of_nat count - 1))%Z.
Proof.
  intros Hs. revert start. induction count as [|count IH]; intros start Hin.
  - contradiction.
  - cbn [range_from In] in Hin. destruct Hin as [<- | Hin].
    + nia.
    + apply IH in Hin. nia.
Qed.

Lemma range_from_nonempty (start step : Z) (count : nat) :
  count <> O -> exists rest, range_from start step count = start :: rest.
Proof. destruct count; [contradiction|]. intros _. cbn. eauto. Qed.

Lemma last_in {A : Type} (l : list A) (d : A) : l <> [] -> In (last l d) l.
Proof.
  induction l as [|x l IH]; [contradiction|]. intros _.
  destruct l as [|y l]; [now left|]. right. apply IH. discriminate.
Qed.

(** The tenures tried: a non-empty list of tenures between the minimum
    and the maximum that starts with the minimum and ends with the
    maximum. *)
Lemma tenure_options_spec (min_tenure max_tenure : Z) :
  (min_tenure <= max_tenure)%Z ->
  exists rest,
    tenure_options min_tenure max_tenure = Val (min_tenure :: rest) /\
    Forall (fun t => (min_tenure <= t <= max_tenure)%Z) (min_tenure :: rest) /\
    last (min_tenure :: rest) min_tenure = max_tenure.
Proof.
  intros Hle. unfold tenure_options.
  set (step := if (96 <? max_tenure)%Z then 12%Z else 6%Z).
  assert (Hstep : (0 < step)%Z) by (unfold step; destruct (96 <? max_tenure)%Z; lia).
  unfold py_range.
  set (count := Z.to_nat ((max_tenure + 1 - min_tenure + step - 1) / step)).
  assert (Hq : ((max_tenure + 1 - min_tenure + step - 1) / step
                = (max_tenure - min_tenure) / step + 1)%Z).
  { replace (max_tenure + 1 - min_tenure + step - 1)%Z
      with ((max_tenure - min_tenure) + 1 * step)%Z by lia.
    rewrite Z.div_add by lia. reflexivity. }
  assert (Hdiv : (0 <= (max_tenure - min_tenure) / step)%Z)
    by (apply Z.div_pos; lia).
  assert (Hcount : count <> O) by (unfold count; rewrite Hq; lia).
  assert (Hupper : (step * (Z.of_nat count - 1) <= max_tenure - min_tenure)%Z).
  { unfold count. rewrite Hq, Z2Nat.id by lia.
    replace ((max_tenure - min_tenure) / step + 1 - 1)%Z
      with ((max_tenure - min_tenure) / step)%Z by lia.
    apply Z.mul_div_le. exact Hstep. }
  destruct (range_from_nonempty min_tenure step count Hcount) as [rest Hr].
  assert (Hall : Forall (fun t => (min_tenure <= t <= max_tenure)%Z)
                   (range_from min_tenure step count)).
  { apply Forall_forall. intros t Hin.
    apply range_from_bounds in Hin; lia. }
  rewrite Hr in *.
  destruct (last (min_tenure :: rest) min_tenure =? max_tenure)%Z eqn:El;
    cbn [negb].
  - apply Z.eqb_eq in El. exists rest. auto.
  - exists (rest ++ [max_tenure]). split; [reflexivity|]. split.
    + change (min_tenure :: rest ++ [max_tenure])
        with ((min_tenure :: rest) ++ [max_tenure]).
      apply Forall_app. split; [exact Hall|]. constructor; [lia | constructor].
    + change (min_tenure :: rest ++ [max_tenure])
        with ((min_tenure :: rest) ++ [max_tenure]).
      apply last_last.
Qed.

(** X5. An empty tenure range makes [_pick_tenure] raise: with the minimum
    above the maximum, [tenure_options[-1]] is an IndexError. *)
Theorem pick_tenure_empty_range :
  forall (loan_amount annual_rate : Q) (min_tenure max_tenure : Z)
         (monthly_income existing_emis monthly_expenses : Q),
    (max_tenure < min_tenure)%Z ->
    _pick_tenure loan_amount annual_rate min_tenure max_tenure
      monthly_income existing_emis monthly_expenses = Err IndexError.
Proof.
  intros loan rate mn mx inc emis exp H.
  unfold _pick_tenure, tenure_options, py_range.
  set (step := if (96 <? mx)%Z then 12%Z else 6%Z).
  assert (Hstep : (0 < step)%Z) by (unfold step; destruct (96 <? mx)%Z; lia).
  assert (Hq : ((mx + 1 - mn + step - 1) / step <= 0)%Z).
  { apply Z.lt_succ_r. apply Z.div_lt_upper_bound; lia. }
  replace (Z.to_nat ((mx + 1 - mn + step - 1) / step)) with O by lia.
  reflexivity.
Qed.

Lemma pick_tenure_empty_range_witness :
  _pick_tenure 120000 14 60 12 30000 4000 17000 = Err IndexError.
Proof. apply (pick_tenure_empty_range 120000 14 60 12 30000 4000 17000). lia. Defined.

(** The loop: the tenures before the chosen one are all unaffordable. *)
Lemma first_affordable_spec (loan rate affordable : Q) (options : list Z)
  (chosen : Z * Q) :
  0 < rate ->
  Forall (fun t => (0 < t)%Z) options ->
  exists result pre post,
    first_affordable loan rate affordable options chosen = Val result /\
    options = pre ++ post /\
    Forall (fun t => exists e, _emi loan rate t = Val e /\ affordable < e) pre /\
    ((exists t e post', post = t :: post' /\ result = (t, e) /\
                        _emi loan rate t = Val e /\ e <= affordable)
     \/ (post = [] /\ result = chosen)).
Proof.
  intros Hrate Hpos. induction Hpos as [|t rest Ht _ IH].
  - exists chosen, [], []. repeat split; auto.
  - cbn [first_affordable].
    destruct (emi_with_interest loan rate t Hrate ltac:(lia)) as [E _].
    rewrite E. cbn [rbind]. set (e := _ / _) in *.
    destruct (Qle_bool e affordable) eqn:Ea.
    + exists (t, e), [], (t :: rest). repeat split; auto.
      left. exists t, e, rest. repeat split; auto. now apply Qle_bool_iff.
    + destruct IH as (result & pre & post & Hres & Hsplit & Hpre & Hcase).
      exists result, (t :: pre), post. rewrite Hres, Hsplit.
      repeat split; auto. constructor; [|exact Hpre].
      exists e. split; [exact E|]. apply Qnot_le_lt. intros Hle.
      apply Qle_bool_iff in Hle. congruence.
Qed.

(** X6. In exact arithmetic, for a positive rate and tenure bounds
    [0 < min <= max], [_pick_tenure] returns the first tenure of its list
    whose instalment is affordable, with that instalment; when no tenure is
    affordable it returns the maximum tenure. The tenure lies between the
    bounds. *)
Theorem pick_tenure_first_affordable :
  forall (loan_amount annual_rate : Q) (min_tenure max_tenure : Z)
         (monthly_income existing_emis monthly_expenses : Q),
    0 < annual_rate ->
    (0 < min_tenure <= max_tenure)%Z ->
    let affordable := affordable_emi monthly_income existing_emis monthly_expenses in
    exists options tenure emi pre post,
      tenure_options min_tenure max_tenure = Val options /\
      _pick_tenure loan_amount annual_rate min_tenure max_tenure
        monthly_income existing_emis monthly_expenses = Val (tenure, emi) /\
      _emi loan_amount annual_rate tenure = Val emi /\
      (min_tenure <= tenure <= max_tenure)%Z /\
      options = pre ++ post /\
      Forall (fun t => exists e, _emi loan_amount annual_rate t = Val e
                                 /\ affordable < e) pre /\
      ((exists post', post = tenure :: post' /\ emi <= affordable)
       \/ (post = [] /\ tenure = max_tenure)).
Proof.
  intros loan rate mn mx inc emis exp Hrate [Hmn Hle] affordable.
  destruct (tenure_options_spec mn mx Hle) as (rest & Hopts & Hall & Hlast).
  destruct (emi_with_interest loan rate mx Hrate ltac:(lia)) as [Emax _].
  set (emax := _ / _) in Emax.
  assert (Hpos : Forall (fun t => (0 < t)%Z) (mn :: rest)).
  { eapply Forall_impl; [|exact Hall]. cbn beta. lia. }
  destruct (first_affordable_spec loan rate affordable (mn :: rest) (mx, emax)
              Hrate Hpos)
    as (result & pre & post & Hres & Hsplit & Hpre & Hcase).
  assert (Hpick : _pick_tenure loan rate mn mx inc emis exp = Val result).
  { unfold _pick_tenure. rewrite Hopts. cbn [rbind]. rewrite Emax. cbn [rbind].
    exact Hres. }
  destruct Hcase as [(t & e & post' & -> & -> & He & Hea) | [-> ->]].
  - exists (mn :: rest), t, e, pre, (t :: post').
    repeat split; auto.
    + rewrite Forall_forall in Hall. apply Hall. rewrite Hsplit.
      apply in_or_app. right. now left.
    + rewrite Forall_forall in Hall. apply Hall. rewrite Hsplit.
      apply in_or_app. right. now left.
    + left. eauto.
  - exists (mn :: rest), mx, emax, pre, []. repeat split; auto; lia.
Qed.

Lemma pick_tenure_first_affordable_witness :
  let affordable := affordable_emi 30000 4000 17000 in
  exists options tenure emi pre post,
    tenure_options 12 60 = Val options /\
    _pick_tenure 120000 14 12 60 30000 4000 17000 = Val (tenure, emi) /\
    _emi 120000 14 tenure = Val emi /\
    (12 <= tenure <= 60)%Z /\
    options = pre ++ post /\
    Forall (fun t => exists e, _emi 120000 14 t = Val e /\ affordable < e) pre /\
    ((exists post', post = tenure :: post' /\ emi <= affordable)
     \/ (post = [] /\ tenure = 60%Z)).
Proof.
  apply (pick_tenure_first_affordable 120000 14 12 60 30000 4000 17000).
  - reflexivity.
  - lia.
Defined.

(** ** The assessment *)

Lemma emi_pressure_bounds (income emis : Q) :
  10 <= fst (_emi_pressure_risk income emis) <= 48.
Proof.
  unfold _emi_pressure_risk.
  repeat match goal with |- context [if ?b then _ else _] => destruct b end;
    cbn [fst]; split; discriminate.
Qed.

Lemma loan_burden_bounds (income loan : Q) :
  12 <= fst (_loan_burden_risk income loan) <= 44.
Proof.
  unfold _loan_burden_risk.
  repeat match goal with |- context [if ?b then _ else _] => destruct b end;
    cbn [fst]; split; discriminate.
Qed.

Lemma expense_bounds (income expenses : Q) :
  10 <= fst (_expense_risk income expenses) <= 48.
Proof.
  unfold _expense_risk.
  repeat match goal with |- context [if ?b then _ else _] => destruct b end;
    cbn [fst]; split; discriminate.
Qed.

Lemma savings_bounds (income savings : Q) :
  8 <= fst (_savings_risk income savings) <= 40.
Proof.
  unfold _savings_risk.
  repeat match goal with |- context [if ?b then _ else _] => destruct b end;
    cbn [fst]; split; discriminate.
Qed.

Lemma occupation_bounds (occupation : string) :
  12 <= fst (_occupation_risk occupation) <= 36.
Proof.
  unfold _occupation_risk.
  repeat match goal with |- context [if ?b then _ else _] => destruct b end;
    cbn [fst]; split; discriminate.
Qed.

Lemma age_bounds (age : Z) : 14 <= fst (_age_risk age) <= 34.
Proof.
  unfold _age_risk.
  repeat match goal with |- context [if ?b then _ else _] => destruct b end;
    cbn [fst]; split; discriminate.
Qed.

Lemma cibil_bounds (score : Z) (estimated : bool) :
  8 <= fst (_cibil_risk score estimated) <= 46.
Proof.
  unfold _cibil_risk.
  repeat match goal with |- context [if ?b then _ else _] => destruct b end;
    cbn [fst]; split; discriminate.
Qed.

(** Every purpose profile has a positive rate, tenure bounds
    [0 < min <= max] and a risk score between 16 and 32. *)
Lemma purpose_profile_facts (purpose : string) :
  exists name rate mn mx risk,
    _purpose_profile purpose = (name, rate, mn, mx, risk) /\
    0 < rate /\ (0 < mn <= mx)%Z /\ 16 <= risk <= 32.
Proof.
  unfold _purpose_profile.
  repeat match goal with |- context [if ?b then _ else _] => destruct b end;
    do 5 eexists; (split; [reflexivity|]);
    (split; [reflexivity|]); (split; [lia|]); split; discriminate.
Qed.

Lemma condition_risk_bounds (occupation : string) (age : Z) :
  12.76 <= snd (fst (_predict_financial_condition occupation age)) <= 35.24.
Proof.
  unfold _predict_financial_condition. cbn [fst snd].
  pose proof (occupation_bounds occupation) as Ho.
  pose proof (age_bounds age) as Ha.
  destruct (_occupation_risk occupation) as [o om].
  destruct (_age_risk age) as [a am]. cbn [fst] in *.
  destruct Ho, Ha. split; lra.
Qed.

Lemma round_half_even_Z (m : Z) : round_half_even (inject_Z m) = m.
Proof.
  unfold round_half_even. rewrite Qfloor_Z.
  assert (H : Qcompare (inject_Z m - inject_Z m) (1 # 2) = Lt).
  { rewrite <- Qlt_alt. generalize (inject_Z m). intros x. lra. }
  now rewrite H.
Qed.

(** A value with two decimals is its own rounding to two decimals. *)
Lemma py_round_2_exact (q : Q) (m : Z) : q == m # 100 -> py_round q 2 == q.
Proof.
  intros H. unfold py_round. change (ten_pow 2) with 100%positive.
  rewrite (round_half_even_comp (q * inject_Z 100) (inject_Z m)).
  - rewrite round_half_even_Z. now rewrite H.
  - rewrite H. unfold Qeq. cbn. lia.
Qed.

Lemma round_half_even_bounds (q : Q) (a b : Z) :
  inject_Z a <= q <= inject_Z b -> (a <= round_half_even q <= b)%Z.
Proof.
  intros [Ha Hb]. unfold round_half_even.
  assert (Hfa : (a <= Qfloor q)%Z).
  { rewrite <- (Qfloor_Z a). now apply Qfloor_resp_le. }
  assert (Hfb : (Qfloor q <= b)%Z).
  { rewrite <- (Qfloor_Z b). now apply Qfloor_resp_le. }
  pose proof (Qfloor_le q) as Hlo.
  destruct (Z.eq_dec (Qfloor q) b) as [Eb | Nb].
  - assert (Hq : q == inject_Z (Qfloor q)).
    { apply Qle_antisym; [rewrite Eb; exact Hb | exact Hlo]. }
    assert (Hc : Qcompare (q - inject_Z (Qfloor q)) (1 # 2) = Lt).
    { rewrite <- Qlt_alt. revert Hq. generalize (inject_Z (Qfloor q)).
      intros x Hx. lra. }
    cbv zeta. rewrite Hc. lia.
  - cbv zeta. destruct (Qcompare _ _); [destruct (Z.even _)| |]; lia.
Qed.


Lemma pick_tenure_returns (loan rate : Q) (mn mx : Z) (inc emis exp : Q) :
  0 < rate -> (0 < mn <= mx)%Z ->
  exists tenure emi,
    _pick_tenure loan rate mn mx inc emis exp = Val (tenure, emi) /\
    (mn <= tenure <= mx)%Z /\ _emi loan rate tenure = Val emi.
Proof.
  intros Hrate [Hmn Hle].
  destruct (tenure_options_spec mn mx Hle) as (rest & Hopts & Hall & _).
  destruct (emi_with_interest loan rate mx Hrate ltac:(lia)) as [Emax _].
  set (emax := _ / _) in Emax.
  assert (Hpos : Forall (fun t => (0 < t)%Z) (mn :: rest)).
  { eapply Forall_impl; [|exact Hall]. cbn beta. lia. }
  destruct (first_affordable_spec loan rate (affordable_emi inc emis exp)
              (mn :: rest) (mx, emax) Hrate Hpos)
    as (result & pre & post & Hres & Hsplit & _ & Hcase).
  unfold _pick_tenure. rewrite Hopts. cbn [rbind]. rewrite Emax. cbn [rbind].
  rewrite Hres.
  destruct Hcase as [(t & e & post' & -> & -> & He & _) | [_ ->]].
  - exists t, e. repeat split; auto;
      rewrite Forall_forall in Hall; apply Hall; rewrite Hsplit;
      apply in_or_app; right; now left.
  - exists mx, emax. repeat split; auto; lia.
Qed.

(** The weights add up to one, so the score is a weighted mean of the
    seven component risks and lies between their extremes. *)
Lemma risk_score_bounds (e s x v c p k : Q) :
  10 <= e <= 48 -> 12 <= s <= 44 -> 10 <= x <= 48 -> 8 <= v <= 40 ->
  12.76 <= c <= 35.24 -> 16 <= p <= 32 -> 8 <= k <= 46 ->
  10.8 <=
    float_sum
      (List.map (fun sw => fst sw * snd sw)
         ([ (e, 0.20); (s, 0.18); (x, 0.16); (v, 0.12); (c, 0.17); (p, 0.07) ]
          ++ [ (k, 0.10) ]))
    / py_max
        (float_sum
           (List.map snd
              ([ (e, 0.20); (s, 0.18); (x, 0.16); (v, 0.12); (c, 0.17); (p, 0.07) ]
               ++ [ (k, 0.10) ])))
        (1 # 1000000000)
  <= 42.9.
Proof.
  intros [? ?] [? ?] [? ?] [? ?] [? ?] [? ?] [? ?].
  cbn [app List.map fst snd float_sum fold_left].
  set (tw := py_max _ _).
  assert (Htw : tw == 1) by (vm_compute; reflexivity).
  clearbody tw. rewrite Htw. unfold Qdiv. change (/ 1) with 1.
  rewrite Qmult_1_r. split; lra.
Qed.

(** What [assess_risk] returns, field by field. *)
Lemma assess_risk_result (payload : RiskAssessmentRequest) :
  exists r name rate mn mx ps tenure emi score,
    assess_risk payload = Val r /\
    _purpose_profile (purpose payload) = (name, rate, mn, mx, ps) /\
    _pick_tenure (loan_amount payload) rate mn mx (monthly_income payload)
      (existing_emis payload) (monthly_expenses payload) = Val (tenure, emi) /\
    (0 < mn <= tenure)%Z /\ (tenure <= mx)%Z /\
    _emi (loan_amount payload) rate tenure = Val emi /\
    recommended_loan_type r = name /\
    suggested_tenure_months r = tenure /\
    estimated_monthly_emi r = py_round emi 2 /\
    10.8 <= score <= 42.9 /\
    default_probability r = py_round (_clamp score 3 95) 2 /\
    approval_probability r = py_round (100 - default_probability r) 2 /\
    risk_category r
    = (if Qltb (default_probability r) 30 then "Low"
       else if Qltb (default_probability r) 60 then "Medium" else "High") /\
    cibil_score_used r
    = match cibil_score payload with
      | None => _estimate_cibil payload
      | Some given => given
      end /\
    cibil_estimated r
    = match cibil_score payload with None => true | Some _ => false end.
Proof.
  destruct (purpose_profile_facts (purpose payload))
    as (name & rate & mn & mx & ps & Hp & Hrate & Hten & Hps).
  destruct (pick_tenure_returns (loan_amount payload) rate mn mx
              (monthly_income payload) (existing_emis payload)
              (monthly_expenses payload) Hrate Hten)
    as (tenure & emi & Hpick & Hbounds & Hemi).
  unfold assess_risk. rewrite Hp.
  pose proof (emi_pressure_bounds (monthly_income payload) (existing_emis payload)) as He.
  destruct (_emi_pressure_risk _ _) as [emi_risk emi_msg].
  pose proof (loan_burden_bounds (monthly_income payload) (loan_amount payload)) as Hs.
  destruct (_loan_burden_risk _ _) as [size_risk size_msg].
  pose proof (expense_bounds (monthly_income payload) (monthly_expenses payload)) as Hx.
  destruct (_expense_risk _ _) as [expense_risk expense_msg].
  pose proof (savings_bounds (monthly_income payload) (current_savings payload)) as Hv.
  destruct (_savings_risk _ _) as [savings_risk savings_msg].
  pose proof (condition_risk_bounds (occupation payload) (age payload)) as Hc.
  destruct (_predict_financial_condition _ _) as [[cscore crisk] cmsg].
  set (used := match cibil_score payload with
               | None => _estimate_cibil payload
               | Some given => given
               end).
  set (estimated := match cibil_score payload with
                    | None => true
                    | Some _ => false
                    end).
  pose proof (cibil_bounds used estimated) as Hk.
  destruct (_cibil_risk used estimated) as [cibil_risk cibil_msg].
  cbn [fst snd] in *.
  rewrite Hpick. cbn [rbind].
  pose proof (risk_score_bounds emi_risk size_risk expense_risk savings_risk
                crisk ps cibil_risk He Hs Hx Hv Hc Hps Hk) as Hscore.
  eexists _, name, rate, mn, mx, ps, tenure, emi, _.
  split; [reflexivity|]. cbn [recommended_loan_type suggested_tenure_months
    estimated_monthly_emi default_probability approval_probability
    risk_category cibil_score_used cibil_estimated].
  repeat (split; [first [reflexivity | eassumption | lia]|]).
  reflexivity.
Qed.


(** X12. [assess_risk] returns for every request. The tenure it suggests
    lies within the bounds of the purpose's profile, and the instalment
    it reports is the instalment of the loan at the profile's rate over
    that tenure, rounded to two decimals. *)
Theorem assess_risk_never_raises :
  forall payload : RiskAssessmentRequest,
  exists r name rate mn mx ps emi,
    assess_risk payload = Val r /\
    _purpose_profile (purpose payload) = (name, rate, mn, mx, ps) /\
    recommended_loan_type r = name /\
    (mn <= suggested_tenure_months r <= mx)%Z /\
    _emi (loan_amount payload) rate (suggested_tenure_months r) = Val emi /\
    estimated_monthly_emi r = py_round emi 2.
Proof.
  intros payload.
  destruct (assess_risk_result payload)
    as (r & name & rate & mn & mx & ps & tenure & emi & score & Hr & Hp & _
        & Hlo & Hhi & Hemi & Hname & Hten & Hest & _).
  exists r, name, rate, mn, mx, ps, emi. rewrite Hten.
  repeat split; auto; lia.
Qed.

(** X13. The default probability [assess_risk] reports lies between 10 and
    43 percent whatever the request, so the category is "Low" or
    "Medium": "High" is never returned. *)
Theorem assess_risk_never_high :
  forall payload : RiskAssessmentRequest,
  exists r,
    assess_risk payload = Val r /\
    10 <= default_probability r <= 43 /\
    (risk_category r = "Low" \/ risk_category r = "Medium") /\
    (risk_category r = "Low" <-> default_probability r < 30).
Proof.
  intros payload.
  destruct (assess_risk_result payload)
    as (r & name & rate & mn & mx & ps & tenure & emi & score & Hr & _ & _
        & _ & _ & _ & _ & _ & _ & Hscore & Hdp & _ & Hcat & _).
  exists r. split; [exact Hr|].
  assert (Hb : 10 <= default_probability r <= 43).
  { rewrite Hdp.
    pose proof (py_round_2_error (_clamp score 3 95)) as Herr.
    pose proof (clamp_inside score 3 95 ltac:(lra)) as Hin.
    revert Herr. generalize (py_round (_clamp score 3 95) 2). intros d Herr.
    rewrite Hin in Herr. apply Qabs_Qle_condition in Herr.
    destruct Hscore, Herr. split; lra. }
  split; [exact Hb|]. rewrite Hcat.
  destruct (Qltb (default_probability r) 30) eqn:E30.
  - apply Qltb_lt in E30. split; [now left|]. split; auto.
  - apply Qltb_ge in E30.
    destruct (Qltb (default_probability r) 60) eqn:E60.
    + split; [now right|]. split; [discriminate|]. intros H. lra.
    + apply Qltb_ge in E60. destruct Hb. lra.
Qed.

(** X14. The two probabilities [assess_risk] reports add up to 100: the
    second rounding, of [100 - default_probability], changes nothing. *)
Theorem assess_risk_probabilities_complementary :
  forall payload : RiskAssessmentRequest,
  exists r,
    assess_risk payload = Val r /\
    approval_probability r + default_probability r == 100.
Proof.
  intros payload.
  destruct (assess_risk_result payload)
    as (r & name & rate & mn & mx & ps & tenure & emi & score & Hr & _ & _
        & _ & _ & _ & _ & _ & _ & _ & Hdp & Hap & _).
  exists r. split; [exact Hr|]. rewrite Hap.
  set (d := default_probability r) in *.
  assert (Hd : exists m, d = m # 100).
  { rewrite Hdp. unfold py_round. change (ten_pow 2) with 100%positive. eauto. }
  destruct Hd as [m Hd].
  rewrite (py_round_2_exact (100 - d) (10000 - m)).
  - ring.
  - rewrite Hd. unfold Qeq, Qminus, Qplus, Qopp. cbn [Qnum Qden].
    change (Z.pos (1 * 100)) with 100%Z. lia.
Qed.

(** The estimate of the credit score is an integer between 520 and 790. *)
Lemma estimate_cibil_range (payload : RiskAssessmentRequest) :
  (520 <= _estimate_cibil payload <= 790)%Z.
Proof.
  unfold _estimate_cibil. cbv zeta.
  apply round_half_even_bounds.
  apply (clamp_bounds _ 520 790). discriminate.
Qed.

(** X15. [assess_risk] uses the credit score of the request when it has one
    and flags it as provided; without one it uses the estimate, an integer
    between 520 and 790, and flags it as estimated. *)
Theorem assess_risk_cibil_used :
  forall payload : RiskAssessmentRequest,
  exists r,
    assess_risk payload = Val r /\
    match cibil_score payload with
    | Some given => cibil_score_used r = given /\ cibil_estimated r = false
    | None =>
        cibil_score_used r = _estimate_cibil payload /\
        cibil_estimated r = true /\
        (520 <= cibil_score_used r <= 790)%Z
    end.
Proof.
  intros payload.
  destruct (assess_risk_result payload)
    as (r & name & rate & mn & mx & ps & tenure & emi & score & Hr & _ & _
        & _ & _ & _ & _ & _ & _ & _ & _ & _ & _ & Hused & Hest).
  exists r. split; [exact Hr|].
  destruct (cibil_score payload) as [given|].
  - auto.
  - repeat split; auto; rewrite Hused; apply estimate_cibil_range.
Qed.

(** X7. [_clamp] with [low <= high] returns a value of the interval: the
    value itself when it lies inside, the nearer bound otherwise. *)
Theorem clamp_to_interval :
  forall value low high : Q,
    low <= high ->
    low <= _clamp value low high <= high /\
    (low <= value <= high -> _clamp value low high == value) /\
    (value <= low -> _clamp value low high == low) /\
    (high <= value -> _clamp value low high == high).
Proof.
  intros value low high H.
  split; [now apply clamp_bounds|].
  split; [apply clamp_inside|].
  split; intros Hv.
  - destruct (Qle_lt_or_eq _ _ Hv) as [Hlt | Heq].
    + unfold _clamp, py_max, py_min.
      destruct (Qltb value high) eqn:E1.
      * destruct (Qltb low value) eqn:E2; [|reflexivity].
        apply Qltb_lt in E2. lra.
      * apply Qltb_ge in E1. lra.
    + rewrite <- Heq at 2. apply clamp_inside. lra.
  - unfold _clamp, py_max, py_min.
    destruct (Qltb value high) eqn:E1.
    + apply Qltb_lt in E1. lra.
    + destruct (Qltb low high) eqn:E2; [reflexivity|].
      apply Qltb_ge in E2. apply Qle_antisym; lra.
Qed.

Lemma clamp_to_interval_witness :
  3 <= _clamp 120 3 95 <= 95 /\
  (3 <= 120 <= 95 -> _clamp 120 3 95 == 120) /\
  (120 <= 3 -> _clamp 120 3 95 == 3) /\
  (95 <= 120 -> _clamp 120 3 95 == 95).
Proof. apply (clamp_to_interval 120 3 95). discriminate. Defined.

Lemma Qle_bool_lt (a b : Q) : Qle_bool a b = false -> b < a.
Proof.
  intros E. apply Qnot_le_lt. intros H. apply Qle_bool_iff in H. congruence.
Qed.

Ltac band_cases :=
  repeat match goal with
    | |- context [Qle_bool ?a ?b] =>
        let E := fresh "E" in
        destruct (Qle_bool a b) eqn:E;
        [apply Qle_bool_iff in E | apply Qle_bool_lt in E]
    end.

(** X9. The financial-condition score is [100 - condition_risk] (the clamp
    to [5, 95] never acts), it lies between 64.76 and 87.24, and the
    note calls the profile strong or moderate: the vulnerable label is
    never reached. *)
Theorem financial_condition_never_vulnerable :
  forall (occupation : string) (age : Z),
  exists score risk label,
    _predict_financial_condition occupation age
    = (score, risk,
       ("Financial-condition model (occupation + age) indicates a "
        ++ label ++ " profile with score "
        ++ format_fixed score 1 ++ "/100.")%string) /\
    score == 100 - risk /\
    64.76 <= score <= 87.24 /\
    (label = "strong" \/ label = "moderate") /\
    (label = "strong" <-> 72 <= score).
Proof.
  intros occupation age.
  pose proof (condition_risk_bounds occupation age) as Hb.
  unfold _predict_financial_condition in *. cbn [fst snd] in Hb.
  cbv zeta.
  set (risk := 0.62 * fst (_occupation_risk occupation)
               + 0.38 * fst (_age_risk age)) in *.
  destruct Hb as [Hlo Hhi].
  pose proof (clamp_inside (100 - risk) 5 95 ltac:(lra)) as Hc.
  set (score := _clamp (100 - risk) 5 95) in *.
  assert (Hs : 64.76 <= score <= 87.24) by (rewrite Hc; lra).
  destruct (Qle_bool 72 score) eqn:E72.
  - apply Qle_bool_iff in E72. exists score, risk, "strong".
    split; [reflexivity|]. split; [exact Hc|]. split; [exact Hs|].
    split; [now left|]. split; auto.
  - apply Qle_bool_lt in E72.
    destruct (Qle_bool 52 score) eqn:E52.
    + exists score, risk, "moderate".
      split; [reflexivity|]. split; [exact Hc|]. split; [exact Hs|].
      split; [now right|]. split; [discriminate|]. intros H. lra.
    + apply Qle_bool_lt in E52. destruct Hs. lra.
Qed.

Lemma ratio_monotone (a b m : Q) : 1 <= m -> a <= b -> a / m <= b / m.
Proof.
  intros Hm H. unfold Qdiv. apply Qmult_le_compat_r; [exact H|].
  apply Qinv_le_0_compat. lra.
Qed.

(** X10. With the income fixed, the component risks move with their input:
    a larger existing EMI, loan amount or monthly expense never lowers
    its risk, and larger savings never raise theirs. *)
Theorem component_risks_monotone :
  forall income a b : Q,
    a <= b ->
    fst (_emi_pressure_risk income a) <= fst (_emi_pressure_risk income b) /\
    fst (_loan_burden_risk income a) <= fst (_loan_burden_risk income b) /\
    fst (_expense_risk income a) <= fst (_expense_risk income b) /\
    fst (_savings_risk income b) <= fst (_savings_risk income a).
Proof.
  intros income a b H.
  pose proof (ratio_monotone a b (py_max income 1) (py_max_ge_r _ _) H) as H1.
  pose proof (ratio_monotone a b (py_max (income * 12) 1) (py_max_ge_r _ _) H) as H2.
  unfold _emi_pressure_risk, _loan_burden_risk, _expense_risk, _savings_risk.
  cbv zeta.
  revert H1 H2.
  generalize (a / py_max income 1), (b / py_max income 1),
    (a / py_max (income * 12) 1), (b / py_max (income * 12) 1).
  intros ra rb la lb H1 H2.
  repeat split; band_cases; cbn [fst]; lra.
Qed.

Lemma component_risks_monotone_witness :
  fst (_emi_pressure_risk 30000 4000) <= fst (_emi_pressure_risk 30000 17000) /\
  fst (_loan_burden_risk 30000 4000) <= fst (_loan_burden_risk 30000 17000) /\
  fst (_expense_risk 30000 4000) <= fst (_expense_risk 30000 17000) /\
  fst (_savings_risk 30000 17000) <= fst (_savings_risk 30000 4000).
Proof. apply (component_risks_monotone 30000 4000 17000). discriminate. Defined.

(** X11. A higher credit score never gives a higher risk, and whether the
    score was estimated changes only the message, not the risk. *)
Theorem cibil_risk_antitone :
  forall (low high : Z) (e1 e2 : bool),
    (low <= high)%Z ->
    fst (_cibil_risk high e1) <= fst (_cibil_risk low e2) /\
    fst (_cibil_risk low e1) = fst (_cibil_risk low e2).
Proof.
  intros low high e1 e2 H. unfold _cibil_risk. cbv zeta. split.
  - repeat match goal with
      | |- context [(?a <=? ?b)%Z] => destruct (Z.leb_spec a b)
      end; cbn [fst]; first [lia | discriminate].
  - repeat match goal with
      | |- context [(?a <=? ?b)%Z] => destruct (Z.leb_spec a b)
      end; reflexivity.
Qed.

Lemma cibil_risk_antitone_witness :
  fst (_cibil_risk 790 true) <= fst (_cibil_risk 520 false) /\
  fst (_cibil_risk 520 true) = fst (_cibil_risk 520 false).
Proof. apply (cibil_risk_antitone 520 790 true false). lia. Defined.


Lemma factor_monotone (r : Q) (n1 n2 : Z) :
  0 < r -> (0 <= n1 <= n2)%Z -> (1 + r) ^ n1 <= (1 + r) ^ n2.
Proof.
  intros Hr [H1 H2].
  replace n2 with (n1 + (n2 - n1))%Z by lia.
  rewrite Qpower_plus by lra.
  assert (Hk : 1 <= (1 + r) ^ (n2 - n1)).
  { destruct (Z.eq_dec (n2 - n1) 0) as [-> | Hne]; [cbn; lra|].
    apply Qlt_le_weak, factor_gt_1; [exact Hr | lia]. }
  assert (Hp : 0 < (1 + r) ^ n1) by (apply Qpower_0_lt; lra).
  set (f := (1 + r) ^ n1) in *. set (g := (1 + r) ^ (n2 - n1)) in *. nra.
Qed.

(** X4. In exact arithmetic, with a non-negative principal and a positive
    rate, a longer tenure never raises the instalment: the tenures
    [_pick_tenure] tries in ascending order have descending instalments. *)
Theorem emi_decreases_with_tenure :
  forall (principal annual_rate : Q) (shorter longer : Z) (e1 e2 : Q),
    0 <= principal ->
    0 < annual_rate ->
    (0 < shorter <= longer)%Z ->
    _emi principal annual_rate shorter = Val e1 ->
    _emi principal annual_rate longer = Val e2 ->
    e2 <= e1.
Proof.
  intros principal annual_rate n1 n2 e1 e2 Hp Hrate [Hn1 Hn12] H1 H2.
  destruct (emi_with_interest principal annual_rate n1 Hrate ltac:(lia)) as [E1 _].
  destruct (emi_with_interest principal annual_rate n2 Hrate ltac:(lia)) as [E2 _].
  rewrite E1 in H1. rewrite E2 in H2. injection H1 as <-. injection H2 as <-.
  set (r := annual_rate / 12 / 100) in *.
  assert (Hr : 0 < r) by now apply monthly_rate_pos.
  pose proof (factor_gt_1 r n1 Hr Hn1) as Hf1.
  pose proof (factor_monotone r n1 n2 Hr ltac:(lia)) as Hf12.
  set (f1 := (1 + r) ^ n1) in *. set (f2 := (1 + r) ^ n2) in *.
  assert (Hd : 0 < (f1 - 1) * (f2 - 1)) by nra.
  apply Qle_minus_iff.
  setoid_replace (principal * r * f1 / (f1 - 1) + - (principal * r * f2 / (f2 - 1)))
    with (principal * r * (f2 - f1) / ((f1 - 1) * (f2 - 1))) by (field; lra).
  apply Qle_shift_div_l; [exact Hd|].
  assert (Ha : 0 <= principal * r) by nra.
  nra.
Qed.

Lemma emi_decreases_with_tenure_witness :
  exists e1 e2,
    _emi 1200 12 1 = Val e1 /\ _emi 1200 12 2 = Val e2 /\ e2 <= e1.
Proof.
  eexists. eexists. split; [reflexivity|]. split; [reflexivity|].
  eapply (emi_decreases_with_tenure 1200 12 1 2); try reflexivity.
  - discriminate.
  - lia.
Defined.

(** X8. The purpose keywords are tried in a fixed order and as substrings,
    so a purpose that mentions "car" anywhere, "healthcare" or "medical
    care" for instance, is never classified as a medical or a personal
    loan: one of the four earlier products wins. *)
Theorem purpose_keywords_shadow :
  forall purpose : string,
    Str.contains "car" (_normalize_text purpose) = true ->
    let '(name, _, _, _, _) := _purpose_profile purpose in
    name = "Home Loan" \/ name = "Education Loan" \/
    name = "Business Loan" \/ name = "Vehicle Loan".
Proof.
  intros purpose H. unfold _purpose_profile. cbv zeta.
  assert (Hv : any_in ["vehicle"; "bike"; "car"; "auto"] (_normalize_text purpose)
               = true).
  { unfold any_in. cbn [existsb]. rewrite H. now rewrite !orb_true_r. }
  destruct (any_in ["home"; "house"; "property"] _); [auto|].
  destruct (any_in ["education"; "study"; "college"; "course"] _); [auto|].
  destruct (any_in ["business"; "inventory"; "shop"; "working capital"] _); [auto|].
  rewrite Hv. auto.
Qed.

Lemma purpose_keywords_shadow_witness :
  let '(name, _, _, _, _) := _purpose_profile "Healthcare expenses" in
  name = "Home Loan" \/ name = "Education Loan" \/
  name = "Business Loan" \/ name = "Vehicle Loan".
Proof. apply (purpose_keywords_shadow "Healthcare expenses"). reflexivity. Defined.

End RiskFacts.
